(** * Space Invaders emulator core: port bridge, frame scheduler,
      state persistence and observation extractor.

    A shallow embedding of [space_invaders_core.c] (and of the port
    handlers of the older front-end [SpaceInvaders.c]), with the
    properties of the specification stated over it.

    Conventions.
    - [uint8_t] values are [byte]s (256 constructors); arithmetic on them
      goes through [byte.unsigned], a store of an [int] expression into a
      [uint8_t] through [byte.of_Z] (reduction modulo 256).
    - wider integers are [Z], every store into a [uint16_t], [uint32_t]
      or [uint64_t] object is written with its reduction ([to_u16],
      [to_u32], [to_u64]).
    - the three globals of the program ([e8080], the banks of the memory
      system, [si_state]) are the fields of one record [World] that every
      operation takes and returns. *)

From Stdlib Require Import String ZArith List Bool Lia SpecFloat.
From coqutil Require Import Byte Datatypes.List Word.LittleEndianList.
Import ListNotations.
Local Open Scope Z_scope.

(** ** Fixed-width integers *)

Definition to_u16 (z : Z) : Z := z mod 2 ^ 16.
Definition to_u32 (z : Z) : Z := z mod 2 ^ 32.
Definition to_u64 (z : Z) : Z := z mod 2 ^ 64.

Definition in_u16 (z : Z) : bool := (0 <=? z) && (z <? 2 ^ 16).
Definition in_u32 (z : Z) : bool := (0 <=? z) && (z <? 2 ^ 32).
Definition in_u64 (z : Z) : bool := (0 <=? z) && (z <? 2 ^ 64).
(** [int] is 32 bits wide, two's complement. *)
Definition in_int (z : Z) : bool := (- 2 ^ 31 <=? z) && (z <? 2 ^ 31).

(** ** Constants of [space_invaders_core.h] *)

Definition SI_SCREEN_WIDTH : Z := 256.
Definition SI_SCREEN_HEIGHT : Z := 224.
Definition SI_VRAM_START : Z := 0x2400.
Definition SI_VRAM_END : Z := 0x4000.
Definition SI_RAM_START : Z := 0x2000.
Definition SI_RAM_SIZE : Z := 0x2000.

(** The button flags of [space_invaders_core.h]. *)
Definition SI_BTN_COIN : Z := Z.shiftl 1 0.
Definition SI_BTN_P2_START : Z := Z.shiftl 1 1.
Definition SI_BTN_P1_START : Z := Z.shiftl 1 2.
Definition SI_BTN_P1_FIRE : Z := Z.shiftl 1 4.
Definition SI_BTN_LEFT : Z := Z.shiftl 1 5.
Definition SI_BTN_RIGHT : Z := Z.shiftl 1 6.

Definition button_bits : list Z := [0; 1; 2; 4; 5; 6].

Definition is_button_bit (i : Z) : bool := existsb (Z.eqb i) button_bits.

Definition button_mask : Z :=
  fold_right Z.lor 0
    [SI_BTN_COIN; SI_BTN_P2_START; SI_BTN_P1_START;
     SI_BTN_P1_FIRE; SI_BTN_LEFT; SI_BTN_RIGHT].

(** ** Address space *)

(** Modelled from the spec: the memory system ([8080Memory.h] and its
    implementation are not among the sources).  A bank is a base address,
    a length, a read-only flag and the byte buffer it owns; the address
    space is the ordered collection of registered banks. *)
Record MemoryBank : Type := {
  bank_base : Z;
  bank_length : Z;
  bank_read_only : bool;
  bank_data : list byte
}.

Definition AddressSpace : Type := list MemoryBank.

Definition covers (b : MemoryBank) (addr : Z) : bool :=
  (bank_base b <=? addr) && (addr <? bank_base b + bank_length b).

Definition overlaps (base len : Z) (b : MemoryBank) : bool :=
  (base <? bank_base b + bank_length b) && (bank_base b <? base + len).

(** Modelled from the spec: [registerBank(base, length, initial, read_only)]
    fails on an overlap with a registered bank, and when the memory system
    has no capacity left for the bank; without initial contents the new
    bank owns a zero-filled buffer.  The capacity is a matter of
    [8080Memory], not among the sources: [room mem len] says whether the
    banks [mem] leave room for one more bank of [len] bytes. *)
Definition registerBank (room : AddressSpace -> Z -> bool) (base len : Z)
    (initial : option (list byte)) (read_only : bool) (mem : AddressSpace)
    : option AddressSpace :=
  if existsb (overlaps base len) mem || negb (room mem len) then None
  else
    let buf := match initial with
               | Some bs => bs
               | None => repeat Byte.x00 (Z.to_nat len)
               end in
    Some (mem ++ [{| bank_base := base; bank_length := len;
                     bank_read_only := read_only; bank_data := buf |}]).

(** Modelled from the spec: [readByte(addr)] resolves the bank covering
    the address and returns its byte; an unmapped address reads 0x00. *)
Fixpoint readByte (addr : Z) (mem : AddressSpace) : byte :=
  match mem with
  | [] => Byte.x00
  | b :: rest =>
      if covers b addr
      then nth (Z.to_nat (addr - bank_base b)) (bank_data b) Byte.x00
      else readByte addr rest
  end.

Definition store_bank (b : MemoryBank) (addr : Z) (value : byte) : MemoryBank :=
  {| bank_base := bank_base b;
     bank_length := bank_length b;
     bank_read_only := bank_read_only b;
     bank_data := List.upd (bank_data b) (Z.to_nat (addr - bank_base b)) value |}.

(** Modelled from the spec: [writeByte(value, addr)] resolves the covering
    bank; a write to a read-only bank or to an unmapped address is
    silently discarded. *)
Fixpoint writeByte (value : byte) (addr : Z) (mem : AddressSpace) : AddressSpace :=
  match mem with
  | [] => []
  | b :: rest =>
      if covers b addr
      then (if bank_read_only b then b else store_bank b addr value) :: rest
      else b :: writeByte value addr rest
  end.

(** The bank an address resolves to is writable. *)
Fixpoint writable (addr : Z) (mem : AddressSpace) : bool :=
  match mem with
  | [] => false
  | b :: rest =>
      if covers b addr then negb (bank_read_only b) else writable addr rest
  end.

(** The addresses [start, start + 1, ..., start + n - 1] that the loops
    [for (addr = start; addr < start + n; addr++)] visit, in order. *)
Definition addr_range (start : Z) (n : nat) : list Z :=
  map (fun i => start + Z.of_nat i) (seq 0 n).

Definition ram_addresses : list Z :=
  addr_range SI_RAM_START (Z.to_nat SI_RAM_SIZE).

(** The addresses of the RAM range. *)
Definition in_ram (addr : Z) : bool :=
  (SI_RAM_START <=? addr) && (addr <? SI_RAM_START + SI_RAM_SIZE).

(** The read-only banks of an address space, with their contents. *)
Definition rom_banks (mem : AddressSpace) : list MemoryBank :=
  filter bank_read_only mem.

(** The address resolves to a writable bank whose buffer reaches it: a
    byte written there can be read back. *)
Fixpoint backed (addr : Z) (mem : AddressSpace) : bool :=
  match mem with
  | [] => false
  | b :: rest =>
      if covers b addr
      then negb (bank_read_only b)
           && (Z.to_nat (addr - bank_base b) <? length (bank_data b))%nat
      else backed addr rest
  end.

(** ** CPU state *)

(** Modelled from the spec: the [e8080] structure of [8080Core.h], which is
    not among the sources.  The register file, stack pointer, program
    counter, the five status flags, and the fields [space_invaders_core.c]
    names: [IE], [halt], and the three pointers [ram], [portIn], [portOut]
    (held as addresses, 0 for a null pointer). *)
Record CpuState : Type := {
  reg_A : byte; reg_B : byte; reg_C : byte; reg_D : byte;
  reg_E : byte; reg_H : byte; reg_L : byte;
  SP : Z;
  PC : Z;
  flag_S : bool; flag_Z : bool; flag_P : bool; flag_CY : bool; flag_AC : bool;
  IE : byte;
  halt : byte;
  ram : Z;
  portIn : Z;
  portOut : Z
}.

(** Modelled from the spec: [reset8080(vector)] clears the registers, the
    flags, interrupt enable and halted, and sets the program counter to
    the reset vector.  It clears the pointers too: [si_reset] saves them
    across the call because "reset8080 clears the entire e8080
    structure". *)
Definition reset8080 (vector : Z) : CpuState :=
  {| reg_A := Byte.x00; reg_B := Byte.x00; reg_C := Byte.x00; reg_D := Byte.x00;
     reg_E := Byte.x00; reg_H := Byte.x00; reg_L := Byte.x00;
     SP := 0;
     PC := to_u16 vector;
     flag_S := false; flag_Z := false; flag_P := false;
     flag_CY := false; flag_AC := false;
     IE := Byte.x00;
     halt := Byte.x00;
     ram := 0; portIn := 0; portOut := 0 |}.

Definition set_pointers (saved_ram saved_portIn saved_portOut : Z)
    (c : CpuState) : CpuState :=
  {| reg_A := reg_A c; reg_B := reg_B c; reg_C := reg_C c; reg_D := reg_D c;
     reg_E := reg_E c; reg_H := reg_H c; reg_L := reg_L c;
     SP := SP c; PC := PC c;
     flag_S := flag_S c; flag_Z := flag_Z c; flag_P := flag_P c;
     flag_CY := flag_CY c; flag_AC := flag_AC c;
     IE := IE c; halt := halt c;
     ram := saved_ram; portIn := saved_portIn; portOut := saved_portOut |}.

Definition set_IE (v : byte) (c : CpuState) : CpuState :=
  {| reg_A := reg_A c; reg_B := reg_B c; reg_C := reg_C c; reg_D := reg_D c;
     reg_E := reg_E c; reg_H := reg_H c; reg_L := reg_L c;
     SP := SP c; PC := PC c;
     flag_S := flag_S c; flag_Z := flag_Z c; flag_P := flag_P c;
     flag_CY := flag_CY c; flag_AC := flag_AC c;
     IE := v; halt := halt c;
     ram := ram c; portIn := portIn c; portOut := portOut c |}.

(** ** Machine state ([space_invaders_core.h]) *)

(** [float] is held as its IEEE-754 binary32 bit pattern. *)
Definition float32 : Type := Z.

Record si_config_t : Type := {
  headless : bool;
  speed_multiplier : float32;
  uncapped : bool;
  dip_switches : byte * byte * byte
}.

Record si_state_t : Type := {
  screen_buf : list byte;
  shift_reg : Z;
  shift_offset : Z;
  input_state : byte;
  frame_count : Z;
  cycle_count : Z;
  initialized : bool;
  config : si_config_t
}.

Definition dip0 (c : si_config_t) : byte := fst (fst (dip_switches c)).
Definition dip1 (c : si_config_t) : byte := snd (fst (dip_switches c)).
Definition dip2 (c : si_config_t) : byte := snd (dip_switches c).

(** The program's globals. *)
Record World : Type := {
  e8080 : CpuState;
  memory : AddressSpace;
  si_state : si_state_t
}.

Definition with_si (w : World) (s : si_state_t) : World :=
  {| e8080 := e8080 w; memory := memory w; si_state := s |}.

Definition with_memory (w : World) (m : AddressSpace) : World :=
  {| e8080 := e8080 w; memory := m; si_state := si_state w |}.

Definition with_cpu (w : World) (c : CpuState) : World :=
  {| e8080 := c; memory := memory w; si_state := si_state w |}.

(** ** Port I/O handlers *)

(** [si_port_in]: the value is returned as a [uint8_t]. *)
Definition si_port_in (port : Z) (s : si_state_t) : byte :=
  match port with
  | 0 => dip0 (config s)
  | 1 => input_state s
  | 2 => dip2 (config s)
  | 3 => byte.of_Z (Z.shiftr (shift_reg s) (8 - shift_offset s))
  | _ => Byte.x00
  end.

Definition set_shift_offset (v : Z) (s : si_state_t) : si_state_t :=
  {| screen_buf := screen_buf s; shift_reg := shift_reg s; shift_offset := v;
     input_state := input_state s; frame_count := frame_count s;
     cycle_count := cycle_count s; initialized := initialized s;
     config := config s |}.

Definition set_shift_reg (v : Z) (s : si_state_t) : si_state_t :=
  {| screen_buf := screen_buf s; shift_reg := v; shift_offset := shift_offset s;
     input_state := input_state s; frame_count := frame_count s;
     cycle_count := cycle_count s; initialized := initialized s;
     config := config s |}.

Definition si_port_out (port : Z) (value : byte) (s : si_state_t) : si_state_t :=
  match port with
  | 2 => set_shift_offset (Z.land (byte.unsigned value) 7) s
  | 4 => set_shift_reg
           (to_u16 (Z.lor (Z.shiftr (shift_reg s) 8)
                          (Z.shiftl (byte.unsigned value) 8))) s
  | _ => s
  end.

(** The round trip through the shift register: port 2 takes the offset,
    port 4 the byte, port 3 is read back. *)
Definition shift_round_trip (s : si_state_t) (k v : byte) : byte :=
  si_port_in 3 (si_port_out 4 v (si_port_out 2 k s)).

(** The port handlers touch the shift register and its offset only. *)
Definition same_outside_shift (s s' : si_state_t) : Prop :=
  s' = set_shift_reg (shift_reg s') (set_shift_offset (shift_offset s') s).

(** ** The port handlers of the older front-end ([SpaceInvaders.c]) *)

Module Legacy.

Record ports : Type := {
  dip1 : byte;
  dip2 : byte;
  shiftReg : Z;
  shiftOff : Z
}.

(** [spaceInvaders_portIn]: [None] stands for the [while (1);] of the
    default case, which never returns. *)
Definition spaceInvaders_portIn (port : Z) (p : ports) : option byte :=
  match port with
  | 1 => Some (dip1 p)
  | 2 => Some (dip2 p)
  | 3 => Some (byte.of_Z (Z.shiftr (Z.shiftl (shiftReg p) (shiftOff p)) 8))
  | _ => None
  end.

Definition spaceInvaders_portOut (port : Z) (value : byte) (p : ports) : ports :=
  match port with
  | 2 => {| dip1 := dip1 p; dip2 := dip2 p; shiftReg := shiftReg p;
            shiftOff := byte.unsigned value |}
  | 4 => {| dip1 := dip1 p; dip2 := dip2 p;
            shiftReg := to_u16 (Z.lor (Z.shiftr (shiftReg p) 8)
                                      (byte.unsigned value));
            shiftOff := shiftOff p |}
  | _ => p
  end.

End Legacy.

(** ** The CPU engine as seen from the core *)

(** What a call into the engine does to [si_state]: the engine knows the
    machine only through the two handlers registered in [e8080.portIn] and
    [e8080.portOut], so one call is a finite dialogue of port reads and port
    writes that ends with the engine's result. *)
Inductive port_io (R : Type) : Type :=
| Done (r : R)
| PortIn (port : Z) (k : byte -> port_io R)
| PortOut (port : Z) (value : byte) (k : port_io R).

Arguments Done {R} r.
Arguments PortIn {R} port k.
Arguments PortOut {R} port value k.

(** The dialogue answered by [si_port_in] and [si_port_out]. *)
Fixpoint run_ports {R : Type} (t : port_io R) (s : si_state_t) : R * si_state_t :=
  match t with
  | Done r => (r, s)
  | PortIn port k => run_ports (k (si_port_in port s)) s
  | PortOut port value k => run_ports k (si_port_out port value s)
  end.

(** The interface of the engine ([8080Core.h], not among the sources):
    [emulate8080(cycles)] runs instructions on the CPU state and the
    address space, talks to the ports, and returns the cycles consumed;
    [causeInt(vector)] acts on the CPU state and the address space. *)
Class Cpu8080 : Type := {
  emulate8080 : Z -> CpuState -> AddressSpace ->
                port_io (Z * (CpuState * AddressSpace));
  causeInt : Z -> CpuState -> AddressSpace -> CpuState * AddressSpace
}.

Definition set_counters (frames cycles : Z) (s : si_state_t) : si_state_t :=
  {| screen_buf := screen_buf s; shift_reg := shift_reg s;
     shift_offset := shift_offset s; input_state := input_state s;
     frame_count := frames; cycle_count := cycles;
     initialized := initialized s; config := config s |}.

Section Execution.
Context {cpu : Cpu8080}.

(** A call [emulate8080(cycles)] on the globals. *)
Definition call_emulate8080 (cycles : Z) (w : World) : Z * World :=
  let '((n, (c, m)), s) :=
    run_ports (emulate8080 cycles (e8080 w) (memory w)) (si_state w) in
  (n, {| e8080 := c; memory := m; si_state := s |}).

(** A call [causeInt(vector)] on the globals. *)
Definition call_causeInt (vector : Z) (w : World) : World :=
  let '(c, m) := causeInt vector (e8080 w) (memory w) in
  {| e8080 := c; memory := m; si_state := si_state w |}.

Definition half_frame_cycles : Z := 17066.

(** The engine's part of a frame: burst, interrupt 8, burst, interrupt 16. *)
Definition frame_bursts (w : World) : Z * World :=
  let burst1 := call_emulate8080 half_frame_cycles w in
  let after_A := call_causeInt 8 (snd burst1) in
  let burst2 := call_emulate8080 half_frame_cycles after_A in
  let after_B := call_causeInt 16 (snd burst2) in
  (fst burst1 + fst burst2, after_B).

Definition si_step_frame (w : World) : Z * World :=
  let '(cycles1, w) := call_emulate8080 half_frame_cycles w in
  let w := call_causeInt 8 w in
  let '(cycles2, w) := call_emulate8080 half_frame_cycles w in
  let w := call_causeInt 16 w in
  let s := si_state w in
  let s := set_counters (to_u32 (frame_count s + 1)) (cycle_count s) s in
  let s := set_counters (frame_count s)
                        (to_u64 (cycle_count s + (cycles1 + cycles2))) s in
  (cycles1 + cycles2, with_si w s).

Definition si_step_cycles (cycles : Z) (w : World) : Z * World :=
  let '(executed, w) := call_emulate8080 cycles w in
  let s := si_state w in
  (executed,
   with_si w (set_counters (frame_count s) (to_u64 (cycle_count s + executed)) s)).

End Execution.

(** ** Reset *)

Definition reset_hardware (s : si_state_t) : si_state_t :=
  {| screen_buf := screen_buf s;
     shift_reg := 0x0000;
     shift_offset := 0;
     input_state := Byte.x08;
     frame_count := 0;
     cycle_count := 0;
     initialized := initialized s;
     config := config s |}.

(** A loop [for (addr = ...; ...; addr++) writeByte(0x00, addr);] over a
    list of addresses. *)
Definition zero_fill (addrs : list Z) (mem : AddressSpace) : AddressSpace :=
  fold_left (fun m addr => writeByte Byte.x00 addr m) addrs mem.

(** The loop of [si_reset] over the RAM addresses. *)
Definition clear_ram (mem : AddressSpace) : AddressSpace :=
  zero_fill ram_addresses mem.

Definition si_reset (w : World) : World :=
  let saved_ram := ram (e8080 w) in
  let saved_portIn := portIn (e8080 w) in
  let saved_portOut := portOut (e8080 w) in
  let c := reset8080 0x0001 in
  let c := set_pointers saved_ram saved_portIn saved_portOut c in
  let s := reset_hardware (si_state w) in
  let m := clear_ram (memory w) in
  let c := set_IE Byte.x01 c in
  {| e8080 := c; memory := m; si_state := s |}.

(** ** State persistence *)

(** The object representation of a structure: [fwrite(&x, sizeof(x), 1, fp)]
    writes [to_bytes x], [fread(&x, sizeof(x), 1, fp)] replaces the bytes of
    [x], after which [x] is what [of_bytes] reads in them.  The layout
    itself (offsets, padding, endianness) is left open: the development
    holds for every layout of fixed size that represents each well-typed
    value ([ok], the ranges of the C types) faithfully. *)
Class Layout (T : Type) (ok : T -> bool) : Type := {
  sizeof : nat;
  to_bytes : T -> list byte;
  of_bytes : list byte -> T;
  to_bytes_length : forall x, ok x = true -> length (to_bytes x) = sizeof;
  of_to_bytes : forall x, ok x = true -> of_bytes (to_bytes x) = x
}.

(** A pointer is 64 bits wide. *)
Definition cpu_ok (c : CpuState) : bool :=
  in_u16 (SP c) && in_u16 (PC c) &&
  in_u64 (ram c) && in_u64 (portIn c) && in_u64 (portOut c).

Definition screen_bytes : nat :=
  Z.to_nat (SI_SCREEN_WIDTH * SI_SCREEN_HEIGHT * 4).

Definition si_state_ok (s : si_state_t) : bool :=
  (length (screen_buf s) =? screen_bytes)%nat &&
  in_u16 (shift_reg s) && in_int (shift_offset s) &&
  in_u32 (frame_count s) && in_u64 (cycle_count s) &&
  in_u32 (speed_multiplier (config s)).

Definition world_ok (w : World) : bool :=
  cpu_ok (e8080 w) && si_state_ok (si_state w).

(** Files: what [fopen(name, "rb")] finds, and whether [fopen(name, "wb")]
    succeeds. *)
Record FileSystem : Type := {
  fs_file : string -> option (list byte);
  fs_can_create : string -> bool
}.

Definition fs_write (name : string) (contents : list byte) (fs : FileSystem)
    : FileSystem :=
  {| fs_file := fun n => if String.eqb n name then Some contents else fs_file fs n;
     fs_can_create := fs_can_create fs |}.

Fixpoint bytes_eqb (a b : list byte) : bool :=
  match a, b with
  | [], [] => true
  | x :: a', y :: b' => Byte.eqb x y && bytes_eqb a' b'
  | _, _ => false
  end.

Definition magic : list byte := list_byte_of_string "SI80".

(** The format version, a [uint32_t] written in host byte order (little
    endian). *)
Definition version : Z := 1.

(** The messages of [si_load_state] on [stderr]. *)
Inductive load_diag : Type :=
| FailedToOpen
| BadMagic
| IncompatibleVersion
| FailedCpuState
| FailedEmulatorState
| FailedRamContents.

Section Persistence.
Context {cpu_layout : Layout CpuState cpu_ok}.
Context {si_layout : Layout si_state_t si_state_ok}.

(** The bytes [si_save_state] writes, in order. *)
Definition save_blob (w : World) : list byte :=
  magic ++ le_split 4 version ++
  to_bytes (e8080 w) ++
  to_bytes (si_state w) ++
  map (fun addr => readByte addr (memory w)) ram_addresses.

Definition si_save_state (filename : string) (w : World) (fs : FileSystem)
    : Z * FileSystem :=
  if fs_can_create fs filename
  then (0, fs_write filename (save_blob w) fs)
  else (-1, fs).

(** [fread(&x, sizeof(x), 1, fp)]: the count returned (1 or 0) as a
    boolean, the object afterwards, and the rest of the stream.  A short
    read leaves the bytes that were available in the front of the
    object. *)
Definition fread_object {T : Type} {ok : T -> bool} {L : Layout T ok}
    (x : T) (stream : list byte) : bool * T * list byte :=
  let chunk := firstn sizeof stream in
  if (length chunk =? sizeof)%nat
  then (true, of_bytes chunk, skipn sizeof stream)
  else (false, of_bytes (chunk ++ skipn (length chunk) (to_bytes x)),
        skipn sizeof stream).

(** The loop that reads the RAM contents, one byte per address. *)
Fixpoint load_ram (addrs : list Z) (stream : list byte) (mem : AddressSpace)
    : bool * AddressSpace :=
  match addrs with
  | [] => (true, mem)
  | addr :: addrs' =>
      match stream with
      | [] => (false, mem)
      | b :: stream' => load_ram addrs' stream' (writeByte b addr mem)
      end
  end.

Definition si_load_state (filename : string) (fs : FileSystem) (w : World)
    : Z * option load_diag * World :=
  match fs_file fs filename with
  | None => (-1, Some FailedToOpen, w)
  | Some stream =>
      let magic_read := firstn 4 stream in
      let stream := skipn 4 stream in
      if negb (length magic_read =? 4)%nat || negb (bytes_eqb magic_read magic)
      then (-1, Some BadMagic, w)
      else
        let version_read := firstn 4 stream in
        let stream := skipn 4 stream in
        if negb (length version_read =? 4)%nat
           || negb (le_combine version_read =? version)
        then (-1, Some IncompatibleVersion, w)
        else
          let '(got, c, stream) := fread_object (e8080 w) stream in
          let w := with_cpu w c in
          if negb got then (-1, Some FailedCpuState, w)
          else
            let '(got, s, stream) := fread_object (si_state w) stream in
            let w := with_si w s in
            if negb got then (-1, Some FailedEmulatorState, w)
            else
              let '(got, m) := load_ram ram_addresses stream (memory w) in
              let w := with_memory w m in
              if negb got then (-1, Some FailedRamContents, w)
              else (0, None, w)
  end.

End Persistence.

(** What the RAM loop of [si_load_state] leaves in [live] when the stream
    holds the RAM bytes saved from [saved]. *)
Definition restore_ram (saved live : AddressSpace) : AddressSpace :=
  fold_left (fun m addr => writeByte (readByte addr saved) addr m)
            ram_addresses live.

(** ** Input control *)

Definition set_input_state (v : byte) (s : si_state_t) : si_state_t :=
  {| screen_buf := screen_buf s; shift_reg := shift_reg s;
     shift_offset := shift_offset s; input_state := v;
     frame_count := frame_count s; cycle_count := cycle_count s;
     initialized := initialized s; config := config s |}.

Definition si_set_input (buttons : byte) (s : si_state_t) : si_state_t :=
  set_input_state
    (byte.of_Z (Z.lor (Z.land (byte.unsigned buttons) 0x77) 0x08)) s.

Definition si_get_input (s : si_state_t) : byte := input_state s.

(** ** Game state queries *)

Definition si_get_lives (mem : AddressSpace) : Z :=
  let ships_remaining := readByte 0x21FF mem in
  let player_alive := readByte 0x20E7 mem in
  let total_lives :=
    byte.unsigned ships_remaining
    + (if negb (byte.unsigned player_alive =? 0) then 1 else 0) in
  if total_lives >? 6 then 0 else total_lives.

(** The lives reported for a reserve count and an alive flag. *)
Definition reported_lives (reserve alive : byte) : Z :=
  let sum := byte.unsigned reserve + (if Byte.eqb alive Byte.x00 then 0 else 1) in
  if sum <=? 6 then sum else 0.

(** ** Structured state observations *)

(** An output parameter [uint8_t *x]: [None] is a null pointer, [Some v] a
    location that holds [v].  [store_out] is [if (x) *x = v;]. *)
Definition out_param : Type := option byte.

Definition store_out (p : out_param) (v : byte) : out_param :=
  match p with
  | None => None
  | Some _ => Some v
  end.

Definition si_get_player_shot (x y : out_param) (mem : AddressSpace)
    : byte * out_param * out_param :=
  let status := readByte 0x2025 mem in
  let x := store_out x (readByte 0x202A mem) in
  let y := store_out y (readByte 0x2029 mem) in
  (status, x, y).

Definition si_get_rolling_shot (x y : out_param) (mem : AddressSpace)
    : byte * out_param * out_param :=
  let shot_y := readByte 0x203D mem in
  let shot_x := readByte 0x203E mem in
  let x := store_out x shot_x in
  let y := store_out y shot_y in
  (if negb (byte.unsigned shot_y =? 0) then Byte.x01 else Byte.x00, x, y).

Definition si_get_plunger_shot (x y : out_param) (mem : AddressSpace)
    : byte * out_param * out_param :=
  let shot_y := readByte 0x204D mem in
  let shot_x := readByte 0x204E mem in
  let x := store_out x shot_x in
  let y := store_out y shot_y in
  (if negb (byte.unsigned shot_y =? 0) then Byte.x01 else Byte.x00, x, y).

Definition si_get_squiggly_shot (x y : out_param) (mem : AddressSpace)
    : byte * out_param * out_param :=
  let shot_y := readByte 0x205D mem in
  let shot_x := readByte 0x205E mem in
  let x := store_out x shot_x in
  let y := store_out y shot_y in
  (if negb (byte.unsigned shot_y =? 0) then Byte.x01 else Byte.x00, x, y).

Definition si_get_ufo_active (x y : out_param) (mem : AddressSpace)
    : bool * out_param * out_param :=
  let active := negb (byte.unsigned (readByte 0x2084 mem) =? 0) in
  if active
  then (active, store_out x (readByte 0x207C mem),
                store_out y (readByte 0x207B mem))
  else (active, x, y).

(** The active predicate a shot getter returns: its [uint8_t] result is
    non-zero. *)
Definition shot_active (ret : byte * out_param * out_param) : bool :=
  negb (Byte.eqb (fst (fst ret)) Byte.x00).

(** The vertical position a shot getter reports through [y]. *)
Definition shot_y (ret : byte * out_param * out_param) : out_param := snd ret.

(** ** Configuration *)

(** The value a binary32 bit pattern stands for: sign in bit 31, biased
    exponent in bits 30..23, fraction in bits 22..0. *)
Definition f32_value (bits : float32) : spec_float :=
  let sign := Z.testbit bits 31 in
  let e := Z.land (Z.shiftr bits 23) 0xFF in
  let m := Z.land bits 0x7FFFFF in
  if e =? 0 then
    if m =? 0 then S754_zero sign else S754_finite sign (Z.to_pos m) (-149)
  else if e =? 255 then
    if m =? 0 then S754_infinity sign else S754_nan
  else S754_finite sign (Z.to_pos (Z.lor m 0x800000)) (e - 150).

(** The comparison [a == b] on [float]. *)
Definition f32_eqb (a b : float32) : bool := SFeqb (f32_value a) (f32_value b).

(** The literal [0.0f]. *)
Definition f32_zero : float32 := 0.

Definition set_config (c : si_config_t) (s : si_state_t) : si_state_t :=
  {| screen_buf := screen_buf s; shift_reg := shift_reg s;
     shift_offset := shift_offset s; input_state := input_state s;
     frame_count := frame_count s; cycle_count := cycle_count s;
     initialized := initialized s; config := c |}.

Definition set_speed_multiplier (m : float32) (c : si_config_t) : si_config_t :=
  {| headless := headless c; speed_multiplier := m;
     uncapped := uncapped c; dip_switches := dip_switches c |}.

Definition set_uncapped (u : bool) (c : si_config_t) : si_config_t :=
  {| headless := headless c; speed_multiplier := speed_multiplier c;
     uncapped := u; dip_switches := dip_switches c |}.

Definition si_set_speed (multiplier : float32) (s : si_state_t) : si_state_t :=
  let s := set_config (set_speed_multiplier multiplier (config s)) s in
  if f32_eqb multiplier f32_zero
  then set_config (set_uncapped true (config s)) s
  else s.

Definition si_set_uncapped (u : bool) (s : si_state_t) : si_state_t :=
  set_config (set_uncapped u (config s)) s.

Definition is_zero_value (f : spec_float) : bool :=
  match f with
  | S754_zero _ => true
  | _ => false
  end.

(** ** A packed little-endian layout *)

(** One layout among those [Layout] admits: the fields in declaration
    order, integers little-endian, no padding.  It serves to run the
    persistence functions on concrete files. *)

Definition put_bool (b : bool) : list byte :=
  [if b then Byte.x01 else Byte.x00].

Definition get_byte (bs : list byte) : byte * list byte :=
  (hd Byte.x00 bs, tl bs).

Definition get_bool (bs : list byte) : bool * list byte :=
  (negb (Byte.eqb (hd Byte.x00 bs) Byte.x00), tl bs).

Definition get_uint (n : nat) (bs : list byte) : Z * list byte :=
  (le_combine (firstn n bs), skipn n bs).

(** A 32-bit two's complement [int]. *)
Definition get_int (bs : list byte) : Z * list byte :=
  let u := le_combine (firstn 4 bs) in
  (if u <? 2 ^ 31 then u else u - 2 ^ 32, skipn 4 bs).

Definition get_array (n : nat) (bs : list byte) : list byte * list byte :=
  (firstn n bs, skipn n bs).

Definition cpu_to_bytes (c : CpuState) : list byte :=
  [reg_A c; reg_B c; reg_C c; reg_D c; reg_E c; reg_H c; reg_L c]
  ++ le_split 2 (SP c) ++ le_split 2 (PC c)
  ++ put_bool (flag_S c) ++ put_bool (flag_Z c) ++ put_bool (flag_P c)
  ++ put_bool (flag_CY c) ++ put_bool (flag_AC c)
  ++ [IE c; halt c]
  ++ le_split 8 (ram c) ++ le_split 8 (portIn c) ++ le_split 8 (portOut c).

Definition cpu_of_bytes (bs : list byte) : CpuState :=
  let '(a, bs) := get_byte bs in
  let '(b, bs) := get_byte bs in
  let '(c, bs) := get_byte bs in
  let '(d, bs) := get_byte bs in
  let '(e, bs) := get_byte bs in
  let '(h, bs) := get_byte bs in
  let '(l, bs) := get_byte bs in
  let '(sp, bs) := get_uint 2 bs in
  let '(pc, bs) := get_uint 2 bs in
  let '(fs, bs) := get_bool bs in
  let '(fz, bs) := get_bool bs in
  let '(fp, bs) := get_bool bs in
  let '(fcy, bs) := get_bool bs in
  let '(fac, bs) := get_bool bs in
  let '(ie, bs) := get_byte bs in
  let '(hlt, bs) := get_byte bs in
  let '(rm, bs) := get_uint 8 bs in
  let '(pin, bs) := get_uint 8 bs in
  let '(pout, bs) := get_uint 8 bs in
  {| reg_A := a; reg_B := b; reg_C := c; reg_D := d;
     reg_E := e; reg_H := h; reg_L := l;
     SP := sp; PC := pc;
     flag_S := fs; flag_Z := fz; flag_P := fp; flag_CY := fcy; flag_AC := fac;
     IE := ie; halt := hlt;
     ram := rm; portIn := pin; portOut := pout |}.

Definition si_state_to_bytes (s : si_state_t) : list byte :=
  screen_buf s
  ++ le_split 2 (shift_reg s) ++ le_split 4 (shift_offset s)
  ++ [input_state s]
  ++ le_split 4 (frame_count s) ++ le_split 8 (cycle_count s)
  ++ put_bool (initialized s)
  ++ put_bool (headless (config s))
  ++ le_split 4 (speed_multiplier (config s))
  ++ put_bool (uncapped (config s))
  ++ [dip0 (config s); dip1 (config s); dip2 (config s)].

Definition si_state_of_bytes (bs : list byte) : si_state_t :=
  let '(screen, bs) := get_array screen_bytes bs in
  let '(reg, bs) := get_uint 2 bs in
  let '(off, bs) := get_int bs in
  let '(inp, bs) := get_byte bs in
  let '(frames, bs) := get_uint 4 bs in
  let '(cycles, bs) := get_uint 8 bs in
  let '(init, bs) := get_bool bs in
  let '(hl, bs) := get_bool bs in
  let '(speed, bs) := get_uint 4 bs in
  let '(unc, bs) := get_bool bs in
  let '(d0, bs) := get_byte bs in
  let '(d1, bs) := get_byte bs in
  let '(d2, bs) := get_byte bs in
  {| screen_buf := screen; shift_reg := reg; shift_offset := off;
     input_state := inp; frame_count := frames; cycle_count := cycles;
     initialized := init;
     config := {| headless := hl; speed_multiplier := speed; uncapped := unc;
                  dip_switches := (d0, d1, d2) |} |}.

Definition si_state_packed_size : nat := (screen_bytes + 29)%nat.

(** ** Sample states *)

(** The machine state [si_init] leaves behind. *)
Definition power_on_state : si_state_t :=
  {| screen_buf := repeat Byte.x00 screen_bytes;
     shift_reg := 0; shift_offset := 0; input_state := Byte.x08;
     frame_count := 0; cycle_count := 0; initialized := true;
     config := {| headless := false; speed_multiplier := 0x3F800000;
                  uncapped := false;
                  dip_switches := (Byte.x0e, Byte.x08, Byte.x00) |} |}.

(** The ROM bank after [si_init_with_config] has read four all-zero
    images into it and patched its first byte with the JMP opcode. *)
Definition patched_rom : list byte :=
  Byte.xc3 :: repeat Byte.x00 (Z.to_nat (4 * 0x0800) - 1).

(** A memory system that never runs out of capacity. *)
Definition unlimited : AddressSpace -> Z -> bool := fun _ _ => true.

(** The banks [si_init_with_config] registers: 8 KiB of ROM at 0x0000
    (read-only) and 8 KiB of zero-filled RAM at [SI_RAM_START]. *)
Definition blank_memory : AddressSpace :=
  match registerBank unlimited 0x0000 (4 * 0x0800) (Some patched_rom) true []
  with
  | None => []
  | Some m =>
      match registerBank unlimited SI_RAM_START SI_RAM_SIZE None false m with
      | None => []
      | Some m' => m'
      end
  end.

(** The globals after a successful [si_init]: the CPU reset to 0x0001 with
    its handlers registered, blank banks, the power-on machine state. *)
Definition power_on_world : World :=
  {| e8080 := set_pointers 0x1000 0x2000 0x3000 (reset8080 0x0001);
     memory := blank_memory;
     si_state := power_on_state |}.

(** A RAM image with the reserve-ships byte and the player-alive byte set. *)
Definition lives_memory (reserve alive : byte) : AddressSpace :=
  writeByte reserve 0x21FF (writeByte alive 0x20E7 blank_memory).

(** A RAM image in which the player's shot has vertical position 5 and
    status 0. *)
Definition idle_shot_memory : AddressSpace :=
  writeByte Byte.x05 0x2029 (writeByte Byte.x00 0x2025 blank_memory).

(** A machine in the middle of a game: two seconds of frames counted, a
    byte in the shift register, two reserve ships and a live player in
    RAM. *)
Definition running_world : World :=
  {| e8080 := set_IE Byte.x01
                (set_pointers 0x1000 0x2000 0x3000 (reset8080 0x1A2B));
     memory := lives_memory Byte.x02 Byte.x01;
     si_state := set_counters 120 4096000
                   (si_port_out 4 Byte.xaa (si_port_out 2 Byte.x03 power_on_state)) |}.

Definition empty_disk : FileSystem :=
  {| fs_file := fun _ => None; fs_can_create := fun _ => true |}.

(** A save file cut off right after its CPU section. *)
Definition truncated_blob : list byte :=
  magic ++ le_split 4 version ++ cpu_to_bytes (e8080 running_world).

Definition damaged_disk : FileSystem :=
  {| fs_file := fun name =>
       if String.eqb name "cut.sav" then Some truncated_blob else None;
     fs_can_create := fun _ => true |}.

(** ** A small engine *)

Definition set_reg_A (v : byte) (c : CpuState) : CpuState :=
  {| reg_A := v; reg_B := reg_B c; reg_C := reg_C c; reg_D := reg_D c;
     reg_E := reg_E c; reg_H := reg_H c; reg_L := reg_L c;
     SP := SP c; PC := PC c;
     flag_S := flag_S c; flag_Z := flag_Z c; flag_P := flag_P c;
     flag_CY := flag_CY c; flag_AC := flag_AC c;
     IE := IE c; halt := halt c;
     ram := ram c; portIn := portIn c; portOut := portOut c |}.

Definition set_PC (v : Z) (c : CpuState) : CpuState :=
  {| reg_A := reg_A c; reg_B := reg_B c; reg_C := reg_C c; reg_D := reg_D c;
     reg_E := reg_E c; reg_H := reg_H c; reg_L := reg_L c;
     SP := SP c; PC := v;
     flag_S := flag_S c; flag_Z := flag_Z c; flag_P := flag_P c;
     flag_CY := flag_CY c; flag_AC := flag_AC c;
     IE := IE c; halt := halt c;
     ram := ram c; portIn := portIn c; portOut := portOut c |}.

(** An engine to run the scheduler on: a burst programs the shift register
    (offset 3, then the byte 0xAA), reads it back into the accumulator and
    reports four cycles more than its budget; an interrupt is taken when
    interrupts are enabled, and dropped otherwise. *)
Definition demo_cpu : Cpu8080 :=
  {| emulate8080 := fun cycles c m =>
       PortOut 2 Byte.x03
         (PortOut 4 Byte.xaa
            (PortIn 3 (fun r => Done (cycles + 4, (set_reg_A r c, m)))));
     causeInt := fun vector c m =>
       if Byte.eqb (IE c) Byte.x00 then (c, m)
       else (set_PC vector (set_IE Byte.x00 c), m) |}.

(** The machine one frame before its frame counter is full. *)
Definition last_frame_world : World :=
  with_si running_world
    (set_counters (2 ^ 32 - 1) 4096000 (si_state running_world)).

(** ** Further operations of [space_invaders_core.c] *)

(** [memset(&si_state, 0, sizeof(si_state))]: every field is zero. *)
Definition zeroed_state : si_state_t :=
  {| screen_buf := repeat Byte.x00 screen_bytes;
     shift_reg := 0; shift_offset := 0; input_state := Byte.x00;
     frame_count := 0; cycle_count := 0; initialized := false;
     config := {| headless := false; speed_multiplier := 0; uncapped := false;
                  dip_switches := (Byte.x00, Byte.x00, Byte.x00) |} |}.

Definition si_destroy (s : si_state_t) : si_state_t := zeroed_state.

Definition set_dip_switches (d : byte * byte * byte) (c : si_config_t)
    : si_config_t :=
  {| headless := headless c; speed_multiplier := speed_multiplier c;
     uncapped := uncapped c; dip_switches := d |}.

Definition si_set_dip_switches (d0 d1 d2 : byte) (s : si_state_t) : si_state_t :=
  set_config (set_dip_switches (d0, d1, d2) (config s)) s.

Definition si_get_frame_count (s : si_state_t) : Z := frame_count s.

Definition si_get_cycle_count (s : si_state_t) : Z := cycle_count s.

(** [si_get_score]: two BCD bytes, the result a [uint32_t]. *)
Definition si_get_score (mem : AddressSpace) : Z :=
  let bcd_lsb := byte.unsigned (readByte 0x20F8 mem) in
  let bcd_msb := byte.unsigned (readByte 0x20F9 mem) in
  to_u32 (Z.shiftr bcd_msb 4 * 1000
          + Z.land bcd_msb 0x0F * 100
          + Z.shiftr bcd_lsb 4 * 10
          + Z.land bcd_lsb 0x0F).

Definition si_is_game_over (c : CpuState) (mem : AddressSpace) : bool :=
  let ships_remaining := readByte 0x21FF mem in
  let player_alive := readByte 0x20E7 mem in
  negb (byte.unsigned (halt c) =? 0)
  || ((byte.unsigned player_alive =? 0) && (byte.unsigned ships_remaining =? 0)).

(** [si_get_level]: the division and the addition are done on [uint32_t],
    the result (at most 1193047) is returned as an [int]. *)
Definition si_get_level (s : si_state_t) : Z :=
  to_u32 (frame_count s / 3600 + 1).

Definition si_get_player_x (mem : AddressSpace) : byte := readByte 0x201B mem.

Definition si_get_player_y (mem : AddressSpace) : byte := readByte 0x201A mem.

Definition si_get_player_alive (mem : AddressSpace) : bool :=
  negb (byte.unsigned (readByte 0x20E7 mem) =? 0).

(** [si_get_alien_grid]: the loop [grid[i] = readByte(0x2100 + i)] for
    [i] from 0 to 54 on the caller's buffer, which must hold 55 bytes. *)
Definition si_get_alien_grid (grid : list byte) (mem : AddressSpace) : list byte :=
  fold_left (fun g i => List.upd g i (readByte (0x2100 + Z.of_nat i) mem))
            (seq 0 55) grid.

Definition si_get_alien_count (mem : AddressSpace) : byte := readByte 0x2082 mem.

(** ** Display access *)

Definition WHITE : Z := 0xFFFFFFFF.
Definition BLACK : Z := 0xFF000000.

(** The pixel [si_update_framebuffer] stores for bit [i] of a VRAM byte. *)
Definition pixel_of_bit (b : byte) (i : Z) : Z :=
  if negb (Z.land (Z.shiftr (byte.unsigned b) i) 1 =? 0) then WHITE else BLACK.

(** The eight pixels of one VRAM byte, bit 0 first. *)
Definition pixels_of_byte (b : byte) : list Z :=
  map (pixel_of_bit b) [0; 1; 2; 3; 4; 5; 6; 7].

Definition vram_addresses : list Z :=
  addr_range SI_VRAM_START (Z.to_nat (SI_VRAM_END - SI_VRAM_START)).

(** The pixels the loop of [si_update_framebuffer] stores, in the order of
    [*screen_ptr++]. *)
Definition vram_pixels (mem : AddressSpace) : list Z :=
  flat_map (fun addr => pixels_of_byte (readByte addr mem)) vram_addresses.

(** A [uint32_t] stored through [screen_ptr] is four bytes of [screen_buf],
    least significant first. *)
Definition pixel_bytes (pixels : list Z) : list byte :=
  flat_map (le_split 4) pixels.

Definition set_screen_buf (buf : list byte) (s : si_state_t) : si_state_t :=
  {| screen_buf := buf; shift_reg := shift_reg s;
     shift_offset := shift_offset s; input_state := input_state s;
     frame_count := frame_count s; cycle_count := cycle_count s;
     initialized := initialized s; config := config s |}.

(** [si_update_framebuffer]: the stored bytes replace the front of
    [screen_buf]. *)
Definition si_update_framebuffer (w : World) : World :=
  let written := pixel_bytes (vram_pixels (memory w)) in
  with_si w
    (set_screen_buf
       (written ++ skipn (length written) (screen_buf (si_state w)))
       (si_state w)).

(** An output parameter [int *width]. *)
Definition store_int (p : option Z) (v : Z) : option Z :=
  match p with
  | None => None
  | Some _ => Some v
  end.

(** [si_get_framebuffer]: the buffer the returned pointer shows, and the
    two output parameters. *)
Definition si_get_framebuffer (width height : option Z) (s : si_state_t)
    : list byte * option Z * option Z :=
  (screen_buf s, store_int width SI_SCREEN_WIDTH, store_int height SI_SCREEN_HEIGHT).

(** [screen_ptr[i]]: the [uint32_t] at byte offset [4 * i]. *)
Definition screen_pixel (buf : list byte) (i : nat) : Z :=
  le_combine (firstn 4 (skipn (4 * i) buf)).

Definition gray_of_pixel (p : Z) : byte :=
  if negb (Z.land p 0x00FFFFFF =? 0) then Byte.xff else Byte.x00.

Definition pixel_count : nat := Z.to_nat (SI_SCREEN_WIDTH * SI_SCREEN_HEIGHT).

(** The values the loop of [si_get_framebuffer_grayscale] stores. *)
Definition gray_pixels (s : si_state_t) : list byte :=
  map (fun i => gray_of_pixel (screen_pixel (screen_buf s) i)) (seq 0 pixel_count).

(** [si_get_framebuffer_grayscale]: nothing for a null buffer; otherwise
    the first [width * height] bytes of the caller's buffer are stored
    (the buffer must be that long). *)
Definition si_get_framebuffer_grayscale (buffer : option (list byte))
    (s : si_state_t) : option (list byte) :=
  match buffer with
  | None => None
  | Some buf => Some (gray_pixels s ++ skipn pixel_count buf)
  end.

(** ** Initialization *)

(** The buffer [registerBank] hands back is the buffer of the bank it has
    just added, the last of the collection.  [buf_write off bytes] is a
    store of [bytes] at [buf + off] through that pointer. *)
Definition store_in_bank (off : nat) (bytes : list byte) (b : MemoryBank)
    : MemoryBank :=
  {| bank_base := bank_base b; bank_length := bank_length b;
     bank_read_only := bank_read_only b;
     bank_data := List.upds (bank_data b) off bytes |}.

Fixpoint buf_write (idx off : nat) (bytes : list byte) (mem : AddressSpace)
    : AddressSpace :=
  match mem, idx with
  | [], _ => []
  | b :: rest, O => store_in_bank off bytes b :: rest
  | b :: rest, S idx' => b :: buf_write idx' off bytes rest
  end.

(** The size of one ROM file, the [0x0800] of [si_init_with_config]. *)
Definition ROM_FILE_SIZE : nat := 0x0800.

(** The loop of [si_init_with_config] over the ROM files: [i] counts the
    files done.  A file that cannot be opened ends the loop; a short file
    ends it after its bytes have been read into the buffer. *)
Fixpoint load_roms (rom_files : list string) (i : nat) (rom_buf : nat)
    (fs : FileSystem) (mem : AddressSpace) : bool * AddressSpace :=
  match rom_files with
  | [] => (true, mem)
  | name :: rest =>
      match fs_file fs name with
      | None => (false, mem)
      | Some contents =>
          let got := firstn ROM_FILE_SIZE contents in
          let mem := buf_write rom_buf (i * ROM_FILE_SIZE) got mem in
          if negb (length got =? ROM_FILE_SIZE)%nat then (false, mem)
          else load_roms rest (S i) rom_buf fs mem
      end
  end.

Definition init_hardware (s : si_state_t) : si_state_t :=
  {| screen_buf := screen_buf s;
     shift_reg := 0x0000; shift_offset := 0; input_state := Byte.x08;
     frame_count := 0; cycle_count := 0;
     initialized := true; config := config s |}.

(** The argument [const si_config_t *config] of [si_init_with_config]:
    null, the address of an object of the caller's outside [si_state], or
    an address inside [si_state] (the global is [extern]), whose bytes the
    [memset] has zeroed by the time they are copied. *)
Inductive config_ptr : Type :=
| config_null
| config_at (c : si_config_t)
| config_in_si_state.

Section Initialization.
(** The addresses of the two port handlers. *)
Variables si_port_in_ptr si_port_out_ptr : Z.

(** What [8080Memory], not among the sources, decides: whether the
    registered banks leave room for one more ([room]); which banks are
    still registered once [reset8080] has cleared the whole of [e8080],
    [e8080.ram] included, without [si_reset]'s saving and restoring of that
    pointer ([banks_after_reset]); and the handle kept in [e8080.ram] for
    the registered banks ([ram_handle]). *)
Variable room : AddressSpace -> Z -> bool.
Variable banks_after_reset : AddressSpace -> AddressSpace.
Variable ram_handle : AddressSpace -> Z.

Definition si_init_with_config (rom_h rom_g rom_f rom_e : string)
    (config : config_ptr) (fs : FileSystem) (w : World) : Z * World :=
  let s := zeroed_state in
  let s := match config with
           | config_at c => set_config c s
           | config_in_si_state => s
           | config_null => s
           end in
  let c := reset8080 0x0001 in
  let banks := banks_after_reset (memory w) in
  let cpu_with := fun mem => set_pointers (ram_handle mem) (portIn c) (portOut c) c in
  match registerBank room 0x0000 (4 * 0x0800) None true banks with
  | None => (-1, {| e8080 := cpu_with banks; memory := banks; si_state := s |})
  | Some mem =>
      let rom_buf := length banks in
      let '(loaded, mem) :=
        load_roms [rom_h; rom_g; rom_f; rom_e] 0 rom_buf fs mem in
      if negb loaded
      then (-1, {| e8080 := cpu_with mem; memory := mem; si_state := s |})
      else
        let mem := buf_write rom_buf 0 [Byte.xc3] mem in
        match registerBank room SI_RAM_START SI_RAM_SIZE None false mem with
        | None => (-1, {| e8080 := cpu_with mem; memory := mem; si_state := s |})
        | Some mem =>
            let c := set_pointers (ram_handle mem)
                       si_port_in_ptr si_port_out_ptr c in
            (0, {| e8080 := c; memory := mem; si_state := init_hardware s |})
        end
  end.

Definition default_config : si_config_t :=
  {| headless := false; speed_multiplier := 0x3F800000; uncapped := false;
     dip_switches := (Byte.x0e, Byte.x08, Byte.x00) |}.

(** [si_init] passes the address of its local [default_config]. *)
Definition si_init (rom_h rom_g rom_f rom_e : string) (fs : FileSystem)
    (w : World) : Z * World :=
  si_init_with_config rom_h rom_g rom_f rom_e (config_at default_config) fs w.

(** [si_api_init_headless] of [space_invaders_api.c]: the DIP switches are
    the caller's three bytes, or the defaults for a null pointer; the
    configuration is a local of the function. *)
Definition si_api_init_headless (rom_h rom_g rom_f rom_e : string)
    (dip_switches : option (byte * byte * byte)) (fs : FileSystem) (w : World)
    : Z * World :=
  let config :=
    {| headless := true; speed_multiplier := 0; uncapped := true;
       dip_switches := match dip_switches with
                       | Some d => d
                       | None => (Byte.x0e, Byte.x08, Byte.x00)
                       end |} in
  si_init_with_config rom_h rom_g rom_f rom_e (config_at config) fs w.

End Initialization.

(** ** Stepping several frames *)

Section Frames.
Context {cpu : Cpu8080}.

(** [n] calls of [si_step_frame] in a row, as a caller's loop makes them;
    the cycles returned are added up. *)
Fixpoint step_frames (n : nat) (w : World) : Z * World :=
  match n with
  | O => (0, w)
  | S n' =>
      let '(cycles, w1) := si_step_frame w in
      let '(more, w2) := step_frames n' w1 in
      (cycles + more, w2)
  end.

End Frames.

(** ** The display and the keys of the older front-end ([SpaceInvaders.c]) *)

Module LegacyFrontEnd.

Inductive key : Type :=
| SDLK_UP | SDLK_DOWN | SDLK_LEFT | SDLK_RIGHT | SDLK_c | SDLK_other.

Inductive event : Type :=
| SDL_KEYDOWN (sym : key)
| SDL_QUIT
| SDL_other.

(** The bit a key sets in [dip1]; no bit for any other key. *)
Definition key_bit (k : key) : Z :=
  match k with
  | SDLK_UP => Z.shiftl 1 4
  | SDLK_DOWN => Z.shiftl 1 2
  | SDLK_LEFT => Z.shiftl 1 5
  | SDLK_RIGHT => Z.shiftl 1 6
  | SDLK_c => Z.shiftl 1 0
  | SDLK_other => 0
  end.

(** The loop [while (SDL_PollEvent(&ev))] over the pending events; [None]
    is [exit(0)]. *)
Fixpoint poll_events (pending : list event) (dip1 : byte) : option byte :=
  match pending with
  | [] => Some dip1
  | SDL_KEYDOWN sym :: rest =>
      poll_events rest (byte.of_Z (Z.lor (byte.unsigned dip1) (key_bit sym)))
  | SDL_QUIT :: _ => None
  | SDL_other :: rest => poll_events rest dip1
  end.

(** The eight surface pixels of one video byte, in the order they are
    stored: [(x >> (7 - b)) & 1] for [b] from 0 to 7. *)
Definition byte_pixels (x : byte) : list byte :=
  map (fun b => if negb (Z.land (Z.shiftr (byte.unsigned x) (7 - b)) 1 =? 0)
                then Byte.xff else Byte.x00)
      [0; 1; 2; 3; 4; 5; 6; 7].

(** The pixels written to the surface from the flat memory array
    [e8080.ram]. *)
Definition render (ram : list byte) : list byte :=
  flat_map (fun p => byte_pixels (nth (Z.to_nat (0x2400 + Z.of_nat p)) ram Byte.x00))
           (seq 0 (Z.to_nat (0x4000 - 0x2400))).

(** [spaceInvaders_vblank]: [dip1] is cleared, the pending events are
    polled, then the surface is redrawn. *)
Definition spaceInvaders_vblank (pending : list event) (p : Legacy.ports)
    (ram : list byte) : option (Legacy.ports * list byte) :=
  match poll_events pending Byte.x00 with
  | None => None
  | Some d =>
      Some ({| Legacy.dip1 := d; Legacy.dip2 := Legacy.dip2 p;
               Legacy.shiftReg := Legacy.shiftReg p;
               Legacy.shiftOff := Legacy.shiftOff p |},
            render ram)
  end.

End LegacyFrontEnd.

(** ** Definitions used to state the further properties *)

(** The number of video RAM bytes. *)
Definition vram_size : nat := Z.to_nat (SI_VRAM_END - SI_VRAM_START).

(** The eight grayscale values of one VRAM byte, bit 0 first. *)
Definition gray_of_byte (b : byte) : list byte :=
  map (fun i => if Z.testbit (byte.unsigned b) i then Byte.xff else Byte.x00)
      [0; 1; 2; 3; 4; 5; 6; 7].

(** The port-1 bit a key-down event sets, and the quit event. *)
Definition keydown_bit (i : Z) (e : LegacyFrontEnd.event) : bool :=
  match e with
  | LegacyFrontEnd.SDL_KEYDOWN sym => Z.testbit (LegacyFrontEnd.key_bit sym) i
  | _ => false
  end.

Definition is_quit (e : LegacyFrontEnd.event) : bool :=
  match e with
  | LegacyFrontEnd.SDL_QUIT => true
  | _ => false
  end.

(** The legacy front-end's ports before the first instruction. *)
Definition legacy_power_on : Legacy.ports :=
  {| Legacy.dip1 := Byte.x01; Legacy.dip2 := Byte.x00;
     Legacy.shiftReg := 0; Legacy.shiftOff := 0 |}.

(** Two decimal digits packed in a byte, one per nibble. *)
Definition bcd (n : Z) : byte := byte.of_Z (16 * (n / 10) + n mod 10).

(** A RAM image with the two score bytes set. *)
Definition score_memory (lsb msb : byte) : AddressSpace :=
  writeByte msb 0x20F9 (writeByte lsb 0x20F8 blank_memory).

(** The RAM bytes the observation functions below read. *)
Definition observed_ram : list Z := [0x20E7; 0x21FF; 0x20F8; 0x20F9; 0x2082].

(** A ROM file that can be opened and holds at least 2048 bytes. *)
Definition rom_file_ok (fs : FileSystem) (name : string) : bool :=
  match fs_file fs name with
  | Some contents => (ROM_FILE_SIZE <=? length contents)%nat
  | None => false
  end.

(** The bytes of a ROM file, and the part of it the loader reads. *)
Definition rom_contents (fs : FileSystem) (name : string) : list byte :=
  match fs_file fs name with
  | Some contents => contents
  | None => []
  end.

Definition rom_chunk (fs : FileSystem) (name : string) : list byte :=
  firstn ROM_FILE_SIZE (rom_contents fs name).

(** No registered bank overlaps the region. *)
Definition region_free (base len : Z) (mem : AddressSpace) : bool :=
  negb (existsb (overlaps base len) mem).

(** A bank with its buffer replaced. *)
Definition with_data (b : MemoryBank) (data : list byte) : MemoryBank :=
  {| bank_base := bank_base b; bank_length := bank_length b;
     bank_read_only := bank_read_only b; bank_data := data |}.

(** A disk with four ROM files of 2048 bytes, and a process that has
    registered no bank yet. *)
Definition rom_disk : FileSystem :=
  {| fs_file := fun name =>
       if existsb (String.eqb name)
            ["invaders.h"; "invaders.g"; "invaders.f"; "invaders.e"]%string
       then Some (repeat Byte.x76 ROM_FILE_SIZE)
       else None;
     fs_can_create := fun _ => true |}.

Definition fresh_world : World :=
  {| e8080 := reset8080 0; memory := []; si_state := zeroed_state |}.

(** The banks a successful initialization registers. *)
Definition loaded_rom_bank (fs : FileSystem) (names : list string) : MemoryBank :=
  {| bank_base := 0x0000; bank_length := 4 * 0x0800; bank_read_only := true;
     bank_data := List.upds (flat_map (rom_chunk fs) names) 0 [Byte.xc3] |}.

(** A bank registered without initial contents. *)
Definition zeroed_bank (base len : Z) (read_only : bool) : MemoryBank :=
  {| bank_base := base; bank_length := len; bank_read_only := read_only;
     bank_data := repeat Byte.x00 (Z.to_nat len) |}.

(** The machine state after the [memset] and the copy of the configuration. *)
Definition configured (config : config_ptr) : si_state_t :=
  match config with
  | config_at c => set_config c zeroed_state
  | config_in_si_state => zeroed_state
  | config_null => zeroed_state
  end.

Section SaveFileFormat.
Context {cpu_layout : Layout CpuState cpu_ok}.
Context {si_layout : Layout si_state_t si_state_ok}.

(** The size of a save file. *)
Definition save_file_size : nat :=
  (8 + @sizeof _ _ cpu_layout + @sizeof _ _ si_layout + Z.to_nat SI_RAM_SIZE)%nat.

(** Whether a load succeeds, read off the file alone. *)
Definition loadable (stream : list byte) : bool :=
  bytes_eqb (firstn 4 stream) magic
  && bytes_eqb (firstn 4 (skipn 4 stream)) (le_split 4 version)
  && (save_file_size <=? length stream)%nat.

End SaveFileFormat.

(** * Properties *)

(** ** Fixed-width arithmetic *)

Lemma byte_unsigned_lt (b : byte) : 0 <= byte.unsigned b < 256.
Proof. exact (byte.unsigned_range b). Qed.

Lemma land_7_small (k : Z) : 0 <= k <= 7 -> Z.land k 7 = k.
Proof.
  intros Hk. change 7 with (Z.ones 3).
  rewrite Z.land_ones by lia. apply Z.mod_small. change (2 ^ 3) with 8. lia.
Qed.

Lemma high_byte_insert (reg : Z) (v : byte) :
  Z.shiftr reg 8 = 0 ->
  to_u16 (Z.lor (Z.shiftr reg 8) (Z.shiftl (byte.unsigned v) 8))
  = Z.shiftl (byte.unsigned v) 8.
Proof.
  intros Hhi. rewrite Hhi, Z.lor_0_l. unfold to_u16.
  apply Z.mod_small. rewrite Z.shiftl_mul_pow2 by lia.
  pose proof (byte_unsigned_lt v). change (2 ^ 8) with 256.
  change (2 ^ 16) with 65536. lia.
Qed.

Lemma in_u16_range (z : Z) : in_u16 z = true -> 0 <= z < 2 ^ (Z.of_nat 2 * 8).
Proof.
  unfold in_u16. intros H. apply andb_prop in H. destruct H as [H1 H2].
  apply Z.leb_le in H1. apply Z.ltb_lt in H2. now split.
Qed.

Lemma in_u32_range (z : Z) : in_u32 z = true -> 0 <= z < 2 ^ (Z.of_nat 4 * 8).
Proof.
  unfold in_u32. intros H. apply andb_prop in H. destruct H as [H1 H2].
  apply Z.leb_le in H1. apply Z.ltb_lt in H2. now split.
Qed.

Lemma in_u64_range (z : Z) : in_u64 z = true -> 0 <= z < 2 ^ (Z.of_nat 8 * 8).
Proof.
  unfold in_u64. intros H. apply andb_prop in H. destruct H as [H1 H2].
  apply Z.leb_le in H1. apply Z.ltb_lt in H2. now split.
Qed.

(** ** The hardware shift register *)

Lemma shift_round_trip_unfold (s : si_state_t) (k v : byte) :
  shift_round_trip s k v
  = byte.of_Z
      (Z.shiftr
         (to_u16 (Z.lor (Z.shiftr (shift_reg s) 8)
                        (Z.shiftl (byte.unsigned v) 8)))
         (8 - Z.land (byte.unsigned k) 7)).
Proof. reflexivity. Qed.

(** The port-3 read in the words of the port table: the register shifted
    left by the offset, of which bits 15..8 are returned. *)
Lemma port3_read_top_byte (s : si_state_t) :
  0 <= shift_offset s <= 8 ->
  si_port_in 3 s
  = byte.of_Z (Z.shiftr (Z.shiftl (shift_reg s) (shift_offset s)) 8).
Proof.
  intros Hoff. cbn [si_port_in].
  rewrite Z.shiftr_shiftl_r by lia. reflexivity.
Qed.

(** C1 (as amended): from a shift register whose high byte is 0, writing an
    offset [k] in 0..7 to port 2, then a byte [v] to port 4, then reading
    port 3 returns [v << k] truncated to 8 bits: the byte that was written
    sits in the high byte of the register, and the read takes the eight
    bits that start [k] below the top. *)
Theorem shift_register_round_trip (s : si_state_t) (k v : byte) :
  Z.shiftr (shift_reg s) 8 = 0 ->
  byte.unsigned k <= 7 ->
  shift_round_trip s k v
  = byte.of_Z (Z.shiftl (byte.unsigned v) (byte.unsigned k)).
Proof.
  intros Hhi Hk. rewrite shift_round_trip_unfold.
  pose proof (byte_unsigned_lt k) as Hk0.
  rewrite high_byte_insert by assumption.
  rewrite land_7_small by lia.
  rewrite Z.shiftr_shiftl_l by lia.
  f_equal. f_equal. lia.
Qed.

(** From power-on, offset 7 and the byte 0xAA. *)
Lemma shift_register_round_trip_witness :
  shift_round_trip power_on_state Byte.x07 Byte.xaa
  = byte.of_Z (Z.shiftl 0xAA 7).
Proof.
  apply (shift_register_round_trip power_on_state Byte.x07 Byte.xaa).
  - reflexivity.
  - vm_compute. discriminate.
Defined.

(** C1 (as stated) fails: with offset 0, writing 0xAA and reading port 3
    gives 0xAA, where [(v << k) >> 8] is 0x00. *)
Lemma shift_register_claimed_formula_fails :
  shift_round_trip power_on_state Byte.x00 Byte.xaa = Byte.xaa /\
  shift_round_trip power_on_state Byte.x00 Byte.xaa
  <> byte.of_Z (Z.shiftr (Z.shiftl (byte.unsigned Byte.xaa)
                                   (byte.unsigned Byte.x00)) 8).
Proof. split; [ reflexivity | vm_compute; discriminate ]. Qed.

(** The handlers of the older front-end do follow [(v << k) >> 8]: they
    put the written byte in the low byte of the register. *)
Lemma legacy_shift_round_trip (p : Legacy.ports) (k v : byte) :
  Z.shiftr (Legacy.shiftReg p) 8 = 0 ->
  Legacy.spaceInvaders_portIn 3
    (Legacy.spaceInvaders_portOut 4 v (Legacy.spaceInvaders_portOut 2 k p))
  = Some (byte.of_Z (Z.shiftr (Z.shiftl (byte.unsigned v) (byte.unsigned k)) 8)).
Proof.
  intros Hhi.
  unfold Legacy.spaceInvaders_portIn, Legacy.spaceInvaders_portOut.
  cbn [Legacy.shiftReg Legacy.shiftOff].
  rewrite Hhi, Z.lor_0_l. unfold to_u16.
  pose proof (byte_unsigned_lt v).
  rewrite Z.mod_small by (change (2 ^ 16) with 65536; lia).
  reflexivity.
Qed.

(** ** The address space *)

Lemma upd_nth_same {A : Type} (l : list A) (i : nat) (d : A) :
  List.upd l i (nth i l d) = l.
Proof.
  revert i. induction l as [| h t IH]; intros i.
  - apply List.upd_nil.
  - destruct i as [| i].
    + rewrite List.upd_0_skipn by (cbn; lia). reflexivity.
    + rewrite List.upd_cons_S. cbn [nth]. now rewrite IH.
Qed.

Lemma nth_upd_zero (l : list byte) (i : nat) :
  nth i (List.upd l i Byte.x00) Byte.x00 = Byte.x00.
Proof.
  destruct (Nat.lt_ge_cases i (length l)) as [Hlt | Hge].
  - now apply List.nth_upd_same.
  - rewrite List.upd_above by assumption. now apply nth_overflow.
Qed.

Lemma store_bank_same (b : MemoryBank) (addr : Z) :
  store_bank b addr (nth (Z.to_nat (addr - bank_base b)) (bank_data b) Byte.x00) = b.
Proof. unfold store_bank. rewrite upd_nth_same. now destruct b. Qed.

Lemma covers_store_bank (b : MemoryBank) (a a' : Z) (v : byte) :
  covers (store_bank b a v) a' = covers b a'.
Proof. reflexivity. Qed.

(** Writing back the byte just read changes nothing. *)
Lemma writeByte_readByte (addr : Z) (mem : AddressSpace) :
  writeByte (readByte addr mem) addr mem = mem.
Proof.
  induction mem as [| b rest IH]; cbn [writeByte readByte]; [ reflexivity | ].
  destruct (covers b addr).
  - destruct (bank_read_only b); [ reflexivity | ].
    now rewrite store_bank_same.
  - now rewrite IH.
Qed.

Lemma readByte_write_zero (addr : Z) (mem : AddressSpace) :
  readByte addr (writeByte Byte.x00 addr mem)
  = if writable addr mem then Byte.x00 else readByte addr mem.
Proof.
  induction mem as [| b rest IH]; cbn [writeByte readByte writable];
    [ reflexivity | ].
  destruct (covers b addr) eqn:Hc.
  - destruct (bank_read_only b) eqn:Hro; cbn [negb readByte].
    + now rewrite Hc.
    + rewrite covers_store_bank, Hc. cbn [store_bank bank_data bank_base].
      apply nth_upd_zero.
  - cbn [readByte]. now rewrite Hc.
Qed.

Lemma readByte_writeByte_other (v : byte) (a a' : Z) (mem : AddressSpace) :
  a <> a' -> readByte a' (writeByte v a mem) = readByte a' mem.
Proof.
  intros Hne.
  induction mem as [| b rest IH]; cbn [writeByte readByte]; [ reflexivity | ].
  destruct (covers b a) eqn:Hc.
  - destruct (bank_read_only b); [ reflexivity | ].
    cbn [readByte]. rewrite covers_store_bank.
    destruct (covers b a') eqn:Hc'; [ | reflexivity ].
    cbn [store_bank bank_data bank_base].
    apply List.nth_upd_diff.
    unfold covers in Hc, Hc'.
    apply andb_prop in Hc, Hc'. destruct Hc as [Hc _], Hc' as [Hc' _].
    apply Z.leb_le in Hc, Hc'. lia.
  - cbn [readByte]. now rewrite IH.
Qed.

Lemma writable_writeByte (v : byte) (a a' : Z) (mem : AddressSpace) :
  writable a' (writeByte v a mem) = writable a' mem.
Proof.
  induction mem as [| b rest IH]; cbn [writeByte writable]; [ reflexivity | ].
  destruct (covers b a).
  - destruct (bank_read_only b) eqn:Hro; cbn [writable].
    + now rewrite Hro.
    + rewrite covers_store_bank.
      cbn [store_bank bank_read_only]. now rewrite Hro.
  - cbn [writable]. now rewrite IH.
Qed.

Lemma rom_banks_writeByte (v : byte) (a : Z) (mem : AddressSpace) :
  rom_banks (writeByte v a mem) = rom_banks mem.
Proof.
  unfold rom_banks.
  induction mem as [| b rest IH]; cbn [writeByte filter]; [ reflexivity | ].
  destruct (covers b a).
  - destruct (bank_read_only b) eqn:Hro; cbn [filter].
    + now rewrite Hro.
    + cbn [store_bank bank_read_only]. now rewrite Hro.
  - cbn [filter]. now rewrite IH.
Qed.

Lemma readByte_zero_fill (addrs : list Z) (a : Z) (mem : AddressSpace) :
  readByte a (zero_fill addrs mem)
  = if existsb (Z.eqb a) addrs && writable a mem
    then Byte.x00 else readByte a mem.
Proof.
  unfold zero_fill. revert mem.
  induction addrs as [| a0 addrs IH]; intros mem; cbn [fold_left existsb];
    [ reflexivity | ].
  rewrite IH, writable_writeByte.
  destruct (Z.eqb_spec a a0) as [-> | Hne]; cbn [orb].
  - rewrite readByte_write_zero.
    destruct (writable a0 mem); [ | now rewrite andb_false_r ].
    now destruct (existsb (Z.eqb a0) addrs).
  - rewrite readByte_writeByte_other by congruence. reflexivity.
Qed.

Lemma rom_banks_zero_fill (addrs : list Z) (mem : AddressSpace) :
  rom_banks (zero_fill addrs mem) = rom_banks mem.
Proof.
  unfold zero_fill. revert mem.
  induction addrs as [| a0 addrs IH]; intros mem; cbn [fold_left];
    [ reflexivity | ].
  now rewrite IH, rom_banks_writeByte.
Qed.

Lemma in_addr_range (start : Z) (n : nat) (a : Z) :
  existsb (Z.eqb a) (addr_range start n)
  = (start <=? a) && (a <? start + Z.of_nat n).
Proof.
  unfold addr_range.
  destruct ((start <=? a) && (a <? start + Z.of_nat n)) eqn:Hin.
  - apply andb_prop in Hin. destruct Hin as [H1 H2].
    apply Z.leb_le in H1. apply Z.ltb_lt in H2.
    apply existsb_exists. exists a. split; [ | apply Z.eqb_refl ].
    apply in_map_iff. exists (Z.to_nat (a - start)). split; [ lia | ].
    apply in_seq. lia.
  - apply not_true_is_false. intros Hex.
    apply existsb_exists in Hex. destruct Hex as [x [Hx Heq]].
    apply Z.eqb_eq in Heq. subst x.
    apply in_map_iff in Hx. destruct Hx as [i [Hi Hseq]].
    apply in_seq in Hseq.
    apply andb_false_iff in Hin.
    destruct Hin as [H | H]; [ apply Z.leb_gt in H | apply Z.ltb_ge in H ]; lia.
Qed.

Lemma in_ram_addresses (a : Z) : existsb (Z.eqb a) ram_addresses = in_ram a.
Proof.
  unfold ram_addresses, in_ram. rewrite in_addr_range.
  rewrite Z2Nat.id by (unfold SI_RAM_SIZE; lia). reflexivity.
Qed.

Lemma readByte_writeByte_same (v : byte) (a : Z) (mem : AddressSpace) :
  readByte a (writeByte v a mem) = if backed a mem then v else readByte a mem.
Proof.
  induction mem as [| b rest IH]; cbn [writeByte readByte backed];
    [ reflexivity | ].
  destruct (covers b a) eqn:Hc.
  - destruct (bank_read_only b) eqn:Hro; cbn [negb andb readByte].
    + now rewrite Hc.
    + rewrite covers_store_bank, Hc. cbn [store_bank bank_data bank_base].
      destruct (Nat.ltb_spec (Z.to_nat (a - bank_base b)) (length (bank_data b)))
        as [Hlt | Hge].
      * now apply List.nth_upd_same.
      * now rewrite List.upd_above.
  - cbn [readByte]. now rewrite Hc.
Qed.

Lemma backed_writeByte (v : byte) (a a' : Z) (mem : AddressSpace) :
  backed a' (writeByte v a mem) = backed a' mem.
Proof.
  induction mem as [| b rest IH]; cbn [writeByte backed]; [ reflexivity | ].
  destruct (covers b a).
  - destruct (bank_read_only b) eqn:Hro; cbn [backed].
    + now rewrite Hro.
    + rewrite covers_store_bank.
      cbn [store_bank bank_read_only bank_data bank_base].
      now rewrite Hro, List.upd_length.
  - cbn [backed]. now rewrite IH.
Qed.

Lemma readByte_fold_write (f : Z -> byte) (addrs : list Z) (a : Z)
    (mem : AddressSpace) :
  readByte a (fold_left (fun m x => writeByte (f x) x m) addrs mem)
  = if existsb (Z.eqb a) addrs && backed a mem then f a else readByte a mem.
Proof.
  revert mem.
  induction addrs as [| a0 addrs IH]; intros mem; cbn [fold_left existsb];
    [ reflexivity | ].
  rewrite IH, backed_writeByte.
  destruct (Z.eqb_spec a a0) as [-> | Hne]; cbn [orb].
  - rewrite readByte_writeByte_same.
    destruct (backed a0 mem); [ | now rewrite andb_false_r ].
    now destruct (existsb (Z.eqb a0) addrs).
  - rewrite readByte_writeByte_other by congruence. reflexivity.
Qed.

(** What the RAM-clearing loop of [si_reset] leaves in memory. *)
Lemma readByte_clear_ram (a : Z) (mem : AddressSpace) :
  readByte a (clear_ram mem)
  = if in_ram a && writable a mem then Byte.x00 else readByte a mem.
Proof.
  unfold clear_ram.
  rewrite readByte_zero_fill, in_ram_addresses. reflexivity.
Qed.

Lemma rom_banks_clear_ram (mem : AddressSpace) :
  rom_banks (clear_ram mem) = rom_banks mem.
Proof. unfold clear_ram. apply rom_banks_zero_fill. Qed.

(** ** The input latch *)

Lemma small_bit_cases (i : Z) :
  i < 0 \/ 8 <= i \/
  i = 0 \/ i = 1 \/ i = 2 \/ i = 3 \/ i = 4 \/ i = 5 \/ i = 6 \/ i = 7.
Proof. lia. Qed.

Lemma testbit_small_const (c i : Z) :
  0 <= c < 256 -> 8 <= i -> Z.testbit c i = false.
Proof.
  intros Hc Hi. destruct (Z.eq_dec c 0) as [-> | Hne].
  - apply Z.testbit_0_l.
  - apply Z.bits_above_log2; [ lia | ].
    assert (Z.log2 c < 8) by (apply Z.log2_lt_pow2; lia). lia.
Qed.

Lemma testbit_button_mask (i : Z) : Z.testbit 0x77 i = is_button_bit i.
Proof.
  destruct (small_bit_cases i) as [H | [H | H]].
  - rewrite Z.testbit_neg_r by assumption.
    unfold is_button_bit, button_bits; cbn [existsb].
    repeat (rewrite (proj2 (Z.eqb_neq i _)) by lia). reflexivity.
  - rewrite testbit_small_const by lia.
    unfold is_button_bit, button_bits; cbn [existsb].
    repeat (rewrite (proj2 (Z.eqb_neq i _)) by lia). reflexivity.
  - repeat (destruct H as [-> | H]); try subst i; reflexivity.
Qed.

Lemma testbit_idle_bit (i : Z) : Z.testbit 0x08 i = (i =? 3).
Proof.
  destruct (small_bit_cases i) as [H | [H | H]].
  - rewrite Z.testbit_neg_r by assumption. symmetry. apply Z.eqb_neq. lia.
  - rewrite testbit_small_const by lia. symmetry. apply Z.eqb_neq. lia.
  - repeat (destruct H as [-> | H]); try subst i; reflexivity.
Qed.

Lemma latch_value_is_byte (b : byte) :
  byte.unsigned (byte.of_Z (Z.lor (Z.land (byte.unsigned b) 0x77) 0x08))
  = Z.lor (Z.land (byte.unsigned b) 0x77) 0x08.
Proof.
  destruct b; vm_compute; reflexivity.
Qed.

(** C7: after [si_set_input(b)] the latch is [b] masked to the button bits
    0, 1, 2, 4, 5, 6 (the OR of the [SI_BTN_] flags) with bit 3 set, bit by
    bit; [si_get_input] returns the latch as it is; nothing else in the
    machine state changes. *)
Theorem set_input_latch (b : byte) (s : si_state_t) :
  let s' := si_set_input b s in
  byte.unsigned (input_state s')
  = Z.lor (Z.land (byte.unsigned b) button_mask) (Z.shiftl 1 3)
  /\ (forall i : Z,
        Z.testbit (byte.unsigned (input_state s')) i
        = ((i =? 3) || (is_button_bit i && Z.testbit (byte.unsigned b) i))%bool)
  /\ si_get_input s' = input_state s'
  /\ s' = set_input_state (input_state s') s.
Proof.
  cbv zeta. unfold si_set_input, si_get_input. cbn [input_state set_input_state].
  rewrite latch_value_is_byte.
  change button_mask with 0x77. change (Z.shiftl 1 3) with 0x08.
  repeat split.
  intros i. rewrite Z.lor_spec, Z.land_spec, testbit_button_mask, testbit_idle_bit.
  destruct (i =? 3), (is_button_bit i), (Z.testbit (byte.unsigned b) i); reflexivity.
Qed.

(** ** The observation extractor *)

Lemma byte_is_zero (b : byte) : (byte.unsigned b =? 0) = Byte.eqb b Byte.x00.
Proof. destruct b; reflexivity. Qed.

Lemma lives_memory_reads (reserve alive : byte) :
  readByte 0x21FF (lives_memory reserve alive) = reserve
  /\ readByte 0x20E7 (lives_memory reserve alive) = alive.
Proof.
  unfold lives_memory. split.
  - rewrite readByte_writeByte_same, backed_writeByte.
    change (backed 0x21FF blank_memory) with true. reflexivity.
  - rewrite readByte_writeByte_other by discriminate.
    rewrite readByte_writeByte_same.
    change (backed 0x20E7 blank_memory) with true. reflexivity.
Qed.

Lemma get_lives_reported (mem : AddressSpace) :
  si_get_lives mem = reported_lives (readByte 0x21FF mem) (readByte 0x20E7 mem).
Proof.
  unfold si_get_lives, reported_lives. rewrite byte_is_zero.
  set (r := byte.unsigned (readByte 0x21FF mem)).
  destruct (Byte.eqb (readByte 0x20E7 mem) Byte.x00); cbn [negb];
    rewrite Z.gtb_ltb;
    destruct (Z.ltb_spec 6 (r + 1)); destruct (Z.leb_spec (r + 1) 6);
    destruct (Z.ltb_spec 6 (r + 0)); destruct (Z.leb_spec (r + 0) 6);
    lia.
Qed.

(** C8: [si_get_lives] is the reserve count plus one when the alive flag is
    non-zero, as long as that sum is at most 6, and 0 when the sum is above
    6; so it lies in 0..6.  This holds for every memory, and every pair of
    a reserve byte and an alive byte is the content of some RAM.  Reserve 2
    with alive 1 gives 3, reserve 6 with alive 0 gives 6 (the boundary is
    not clamped), reserve 6 with alive 1 gives 0. *)
Theorem get_lives_clamped (mem : AddressSpace) :
  let r := byte.unsigned (readByte 0x21FF mem) in
  let a := readByte 0x20E7 mem in
  let sum := r + (if Byte.eqb a Byte.x00 then 0 else 1) in
  si_get_lives mem = (if sum <=? 6 then sum else 0)
  /\ 0 <= si_get_lives mem <= 6
  /\ (forall reserve alive : byte,
        si_get_lives (lives_memory reserve alive) = reported_lives reserve alive)
  /\ si_get_lives (lives_memory Byte.x02 Byte.x01) = 3
  /\ si_get_lives (lives_memory Byte.x06 Byte.x00) = 6
  /\ si_get_lives (lives_memory Byte.x06 Byte.x01) = 0.
Proof.
  cbv zeta.
  assert (Hall : forall reserve alive : byte,
             si_get_lives (lives_memory reserve alive)
             = reported_lives reserve alive).
  { intros reserve alive. rewrite get_lives_reported.
    destruct (lives_memory_reads reserve alive) as [-> ->]. reflexivity. }
  split; [ apply get_lives_reported | ].
  split.
  - rewrite get_lives_reported. unfold reported_lives.
    pose proof (byte_unsigned_lt (readByte 0x21FF mem)).
    destruct (Byte.eqb _ _);
      match goal with
      | |- context [?a <=? 6] => destruct (Z.leb_spec a 6)
      end; lia.
  - split; [ exact Hall | ]. rewrite !Hall. repeat split.
Qed.

Lemma flag_of_nonzero (b : byte) :
  negb (Byte.eqb (if negb (byte.unsigned b =? 0) then Byte.x01 else Byte.x00)
                 Byte.x00)
  = negb (Byte.eqb b Byte.x00).
Proof. destruct b; reflexivity. Qed.

(** C5 (as amended): for the rolling, plunger and squiggly shots the active
    predicate is true exactly when the vertical-position byte (the one the
    getter reports through [y]) is non-zero; the player-shot getter returns
    the shot-status byte at 0x2025 as it is, so its active predicate is true
    exactly when that status byte is non-zero. *)
Theorem shot_active_predicates (mem : AddressSpace) (x y : out_param) (y0 : byte) :
  (shot_active (si_get_rolling_shot x y mem)
     = negb (Byte.eqb (readByte 0x203D mem) Byte.x00)
   /\ shot_y (si_get_rolling_shot x (Some y0) mem) = Some (readByte 0x203D mem))
  /\ (shot_active (si_get_plunger_shot x y mem)
        = negb (Byte.eqb (readByte 0x204D mem) Byte.x00)
      /\ shot_y (si_get_plunger_shot x (Some y0) mem) = Some (readByte 0x204D mem))
  /\ (shot_active (si_get_squiggly_shot x y mem)
        = negb (Byte.eqb (readByte 0x205D mem) Byte.x00)
      /\ shot_y (si_get_squiggly_shot x (Some y0) mem) = Some (readByte 0x205D mem))
  /\ (fst (fst (si_get_player_shot x y mem)) = readByte 0x2025 mem
      /\ shot_active (si_get_player_shot x y mem)
         = negb (Byte.eqb (readByte 0x2025 mem) Byte.x00)
      /\ shot_y (si_get_player_shot x (Some y0) mem) = Some (readByte 0x2029 mem)).
Proof.
  unfold shot_active, shot_y, si_get_rolling_shot, si_get_plunger_shot,
    si_get_squiggly_shot, si_get_player_shot.
  cbn [fst snd store_out].
  rewrite !flag_of_nonzero. repeat split.
Qed.

(** C5 (as stated) fails for the player shot: its vertical-position byte
    is non-zero and the getter says inactive. *)
Lemma player_shot_ignores_position :
  ~ (shot_active (si_get_player_shot None None idle_shot_memory) = true
     <-> readByte 0x2029 idle_shot_memory <> Byte.x00).
Proof.
  intros [_ H].
  assert (Hy : readByte 0x2029 idle_shot_memory <> Byte.x00)
    by (vm_compute; discriminate).
  specialize (H Hy). vm_compute in H. discriminate.
Qed.

(** C10: when the UFO-active byte at 0x2084 is zero, [si_get_ufo_active]
    returns false and leaves both output locations as they were; when it
    is non-zero it returns true and stores the bytes at 0x207C and 0x207B
    into the locations [x] and [y] (those that are not null). *)
Theorem ufo_outputs_only_when_active (mem : AddressSpace) (x y : out_param)
    (x0 y0 : byte) :
  si_get_ufo_active x y mem
  = (if Byte.eqb (readByte 0x2084 mem) Byte.x00
     then (false, x, y)
     else (true, store_out x (readByte 0x207C mem),
                 store_out y (readByte 0x207B mem)))
  /\ si_get_ufo_active (Some x0) (Some y0) mem
     = (if Byte.eqb (readByte 0x2084 mem) Byte.x00
        then (false, Some x0, Some y0)
        else (true, Some (readByte 0x207C mem), Some (readByte 0x207B mem))).
Proof.
  unfold si_get_ufo_active. rewrite byte_is_zero.
  destruct (Byte.eqb (readByte 0x2084 mem) Byte.x00); split; reflexivity.
Qed.

(** ** Configuration *)

(** [m == 0.0f] holds for the two zeros, and for nothing else (not for a
    NaN, an infinity or a non-zero number). *)
Lemma f32_eqb_zero (m : float32) :
  f32_eqb m f32_zero = is_zero_value (f32_value m).
Proof.
  unfold f32_eqb. change (f32_value f32_zero) with (S754_zero false).
  destruct (f32_value m) as [sg | sg | | sg mant e]; try reflexivity;
    destruct sg; reflexivity.
Qed.

(** C9: [si_set_speed(m)] stores [m] as the speed multiplier; the uncapped
    flag becomes true when [m == 0.0f] and keeps its value otherwise; no
    other field of the configuration or of the machine state changes. *)
Theorem set_speed_effect (m : float32) (s : si_state_t) :
  let s' := si_set_speed m s in
  speed_multiplier (config s') = m
  /\ uncapped (config s')
     = (if is_zero_value (f32_value m) then true else uncapped (config s))
  /\ headless (config s') = headless (config s)
  /\ dip_switches (config s') = dip_switches (config s)
  /\ s' = set_config (config s') s.
Proof.
  cbv zeta. unfold si_set_speed. rewrite f32_eqb_zero.
  destruct (is_zero_value (f32_value m)); repeat split.
Qed.

(** 0.0f and -0.0f switch the uncapped flag on; 1.0f and a NaN leave it. *)
Example set_speed_examples :
  uncapped (config (si_set_speed 0x00000000 power_on_state)) = true
  /\ uncapped (config (si_set_speed 0x80000000 power_on_state)) = true
  /\ uncapped (config (si_set_speed 0x3F800000 power_on_state)) = false
  /\ uncapped (config (si_set_speed 0x7FC00000 power_on_state)) = false.
Proof. vm_compute. repeat split. Qed.

(** ** Reset *)

(** C6 (as amended): after [si_reset] the registers, the stack pointer and
    the flags are cleared, the program counter is the reset vector 0x0001,
    the halted flag is false and the interrupt-enable flag is SET (the last
    statement of [si_reset] re-enables interrupts); every address of the
    RAM range that resolves to a writable bank reads 0x00, every other
    address reads what it did, and the read-only banks are what they
    were. *)
Theorem reset_state (w : World) :
  let w' := si_reset w in
  let c := e8080 w' in
  (reg_A c, reg_B c, reg_C c, reg_D c, reg_E c, reg_H c, reg_L c)
    = (Byte.x00, Byte.x00, Byte.x00, Byte.x00, Byte.x00, Byte.x00, Byte.x00)
  /\ SP c = 0
  /\ (flag_S c, flag_Z c, flag_P c, flag_CY c, flag_AC c)
     = (false, false, false, false, false)
  /\ PC c = 0x0001
  /\ IE c = Byte.x01
  /\ halt c = Byte.x00
  /\ (forall a : Z,
        readByte a (memory w')
        = if in_ram a && writable a (memory w)
          then Byte.x00 else readByte a (memory w))
  /\ rom_banks (memory w') = rom_banks (memory w).
Proof.
  cbv zeta. unfold si_reset. cbn [e8080 memory].
  repeat split.
  - intros a. apply readByte_clear_ram.
  - apply rom_banks_clear_ram.
Qed.

(** A reset in the middle of a game: the reserve-ships byte in RAM is back
    to zero, the patched first byte of the ROM is still there. *)
Example reset_clears_ram :
  readByte 0x21FF (memory running_world) = Byte.x02
  /\ readByte 0x21FF (memory (si_reset running_world)) = Byte.x00
  /\ readByte 0x0000 (memory (si_reset running_world)) = Byte.xc3.
Proof.
  change (memory (si_reset running_world))
    with (clear_ram (memory running_world)).
  rewrite !readByte_clear_ram.
  vm_compute. repeat split.
Qed.

(** C6 (as stated) fails: interrupts are enabled after [si_reset]. *)
Lemma reset_enables_interrupts :
  IE (e8080 (si_reset power_on_world)) = Byte.x01
  /\ IE (e8080 (si_reset power_on_world)) <> Byte.x00.
Proof.
  change (IE (e8080 (si_reset power_on_world))) with Byte.x01.
  split; [ reflexivity | discriminate ].
Qed.

(** ** The frame scheduler *)

Lemma same_outside_shift_refl (s : si_state_t) : same_outside_shift s s.
Proof. unfold same_outside_shift. now destruct s. Qed.

Lemma same_outside_shift_trans (s1 s2 s3 : si_state_t) :
  same_outside_shift s1 s2 -> same_outside_shift s2 s3 ->
  same_outside_shift s1 s3.
Proof.
  unfold same_outside_shift. intros H12 H23.
  rewrite H23 at 1. rewrite H12. reflexivity.
Qed.

Lemma si_port_out_frame (port : Z) (v : byte) (s : si_state_t) :
  same_outside_shift s (si_port_out port v s).
Proof.
  unfold si_port_out.
  destruct port as [| p | p]; try apply same_outside_shift_refl;
    repeat (destruct p as [p | p |]; try apply same_outside_shift_refl);
    unfold same_outside_shift; now destruct s.
Qed.

Lemma run_ports_frame {R : Type} (t : port_io R) (s : si_state_t) :
  same_outside_shift s (snd (run_ports t s)).
Proof.
  revert s. induction t as [r | port k IH | port v k IH]; intros s;
    cbn [run_ports].
  - apply same_outside_shift_refl.
  - apply IH.
  - eapply same_outside_shift_trans; [ apply si_port_out_frame | apply IH ].
Qed.

Lemma same_outside_shift_counters (s s' : si_state_t) :
  same_outside_shift s s' ->
  frame_count s' = frame_count s /\ cycle_count s' = cycle_count s.
Proof. unfold same_outside_shift. intros ->. split; reflexivity. Qed.

Section Scheduler.
Context {cpu : Cpu8080}.

Lemma call_emulate8080_frame (cycles : Z) (w : World) :
  same_outside_shift (si_state w) (si_state (snd (call_emulate8080 cycles w))).
Proof.
  unfold call_emulate8080.
  pose proof (run_ports_frame (emulate8080 cycles (e8080 w) (memory w))
                (si_state w)) as H.
  destruct (run_ports _ _) as [[n [c m]] s]. exact H.
Qed.

Lemma call_causeInt_si_state (vector : Z) (w : World) :
  si_state (call_causeInt vector w) = si_state w.
Proof. unfold call_causeInt. now destruct (causeInt _ _ _). Qed.

(** [si_step_frame] is the engine's part followed by the two counter
    updates. *)
Lemma step_frame_unfold (w : World) :
  si_step_frame w
  = (fst (frame_bursts w),
     with_si (snd (frame_bursts w))
       (set_counters
          (to_u32 (frame_count (si_state (snd (frame_bursts w))) + 1))
          (to_u64 (cycle_count (si_state (snd (frame_bursts w)))
                   + fst (frame_bursts w)))
          (si_state (snd (frame_bursts w))))).
Proof.
  unfold si_step_frame, frame_bursts, half_frame_cycles.
  destruct (call_emulate8080 17066 w) as [cycles1 w1]. cbn [fst snd].
  destruct (call_emulate8080 17066 (call_causeInt 8 w1)) as [cycles2 w3].
  cbn [fst snd]. reflexivity.
Qed.

(** Whatever the engine does with the ports during the two bursts, it
    leaves the counters alone. *)
Lemma frame_bursts_counters (w : World) :
  frame_count (si_state (snd (frame_bursts w))) = frame_count (si_state w)
  /\ cycle_count (si_state (snd (frame_bursts w))) = cycle_count (si_state w).
Proof.
  unfold frame_bursts. cbn [fst snd].
  rewrite call_causeInt_si_state.
  apply same_outside_shift_counters.
  eapply same_outside_shift_trans; [ apply call_emulate8080_frame | ].
  rewrite <- (call_causeInt_si_state 8 (snd (call_emulate8080 17066 w))) at 1.
  apply call_emulate8080_frame.
Qed.

(** C4: one call of [si_step_frame] is burst 1, interrupt 8, burst 2,
    interrupt 16 on the engine, in that order and once each, whatever
    the engine does: burst 1 is the engine's [emulate8080(17066)] on the
    CPU and the memory as they were, interrupt 8 its [causeInt(8)] on what
    burst 1 left, burst 2 its [emulate8080(17066)] on what that left, and
    interrupt 16 its [causeInt(16)] on what burst 2 left, which is the CPU
    and the memory after the call.  During a burst each port read of the
    engine is answered by [si_port_in] and each port write is applied by
    [si_port_out], on the machine state as it is then.  The call returns
    the sum of the cycles the two bursts report, and bumps the frame
    counter by 1 (a [uint32_t]) and the cycle counter by that sum (a
    [uint64_t]), both counted from their values before the call; the other
    fields of the machine state are as burst 2 left them. *)
Theorem step_frame_schedule (w : World) :
  let burst1 :=
    run_ports (emulate8080 17066 (e8080 w) (memory w)) (si_state w) in
  let cycles1 := fst (fst burst1) in
  let after_A :=
    causeInt 8 (fst (snd (fst burst1))) (snd (snd (fst burst1))) in
  let burst2 :=
    run_ports (emulate8080 17066 (fst after_A) (snd after_A)) (snd burst1) in
  let cycles2 := fst (fst burst2) in
  let after_B :=
    causeInt 16 (fst (snd (fst burst2))) (snd (snd (fst burst2))) in
  let total := cycles1 + cycles2 in
  let w' := snd (si_step_frame w) in
  fst (si_step_frame w) = total
  /\ e8080 w' = fst after_B
  /\ memory w' = snd after_B
  /\ frame_count (si_state w') = to_u32 (frame_count (si_state w) + 1)
  /\ cycle_count (si_state w') = to_u64 (cycle_count (si_state w) + total)
  /\ si_state w'
     = set_counters (to_u32 (frame_count (si_state w) + 1))
                    (to_u64 (cycle_count (si_state w) + total))
                    (snd burst2)
  /\ (screen_buf (si_state w'), shift_reg (si_state w'),
      shift_offset (si_state w'), input_state (si_state w'),
      initialized (si_state w'), config (si_state w'))
     = (screen_buf (snd burst2), shift_reg (snd burst2),
        shift_offset (snd burst2), input_state (snd burst2),
        initialized (snd burst2), config (snd burst2))
  /\ (forall (R : Type) (r : R) (s : si_state_t),
        run_ports (Done r) s = (r, s))
  /\ (forall (R : Type) (port : Z) (k : byte -> port_io R) (s : si_state_t),
        run_ports (PortIn port k) s = run_ports (k (si_port_in port s)) s)
  /\ (forall (R : Type) (port : Z) (v : byte) (k : port_io R) (s : si_state_t),
        run_ports (PortOut port v k) s = run_ports k (si_port_out port v s)).
Proof.
  cbv zeta. rewrite step_frame_unfold.
  destruct (frame_bursts_counters w) as [Hf Hc]. rewrite Hf, Hc.
  clear Hf Hc.
  unfold frame_bursts, half_frame_cycles, call_emulate8080, call_causeInt.
  destruct (run_ports (emulate8080 17066 (e8080 w) (memory w)) (si_state w))
    as [[cycles1 [c1 m1]] s1].
  cbn [fst snd e8080 memory si_state].
  destruct (causeInt 8 c1 m1) as [cA mA]. cbn [fst snd e8080 memory si_state].
  destruct (run_ports (emulate8080 17066 cA mA) s1) as [[cycles2 [c2 m2]] s2].
  cbn [fst snd e8080 memory si_state].
  destruct (causeInt 16 c2 m2) as [cB mB].
  cbn [fst snd with_si e8080 memory si_state set_counters frame_count
       cycle_count screen_buf shift_reg shift_offset input_state initialized
       config].
  repeat split.
Qed.

(** While the counters have room, the increments are exact. *)
Corollary step_frame_counts_exactly (w : World) :
  in_u32 (frame_count (si_state w) + 1) = true ->
  in_u64 (cycle_count (si_state w) + fst (si_step_frame w)) = true ->
  frame_count (si_state (snd (si_step_frame w)))
  = frame_count (si_state w) + 1
  /\ cycle_count (si_state (snd (si_step_frame w)))
     = cycle_count (si_state w) + fst (si_step_frame w).
Proof.
  rewrite step_frame_unfold.
  destruct (frame_bursts_counters w) as [Hf Hc]. rewrite Hf, Hc.
  cbn [fst snd with_si si_state set_counters frame_count cycle_count].
  intros Hframe Hcycle.
  apply in_u32_range in Hframe. apply in_u64_range in Hcycle.
  unfold to_u32, to_u64.
  change (2 ^ (Z.of_nat 4 * 8)) with (2 ^ 32) in Hframe.
  change (2 ^ (Z.of_nat 8 * 8)) with (2 ^ 64) in Hcycle.
  rewrite !Z.mod_small by assumption. split; reflexivity.
Qed.

End Scheduler.

(** One frame on the small engine: both bursts ran (the accumulator holds
    the second read-back), the first interrupt was taken and the second
    dropped, and the counters moved by 1 and by the 34140 cycles
    returned. *)
Example demo_frame :
  let r := @si_step_frame demo_cpu running_world in
  fst r = 34140
  /\ frame_count (si_state (snd r)) = 121
  /\ cycle_count (si_state (snd r)) = 4130140
  /\ reg_A (e8080 (snd r)) = Byte.x55
  /\ PC (e8080 (snd r)) = 8
  /\ shift_reg (si_state (snd r)) = 0xAAAA.
Proof. vm_compute. repeat split. Qed.

(** The frame counter is a [uint32_t]: from 2^32 - 1 it goes to 0. *)
Example frame_counter_wraps :
  frame_count (si_state (snd (@si_step_frame demo_cpu last_frame_world))) = 0.
Proof. vm_compute. reflexivity. Qed.

(** ** State persistence *)

Lemma load_ram_rom_banks (addrs : list Z) (stream : list byte) (mem : AddressSpace) :
  rom_banks (snd (load_ram addrs stream mem)) = rom_banks mem.
Proof.
  revert stream mem.
  induction addrs as [| a addrs IH]; intros stream mem; cbn [load_ram];
    [ reflexivity | ].
  destruct stream as [| b stream]; [ reflexivity | ].
  now rewrite IH, rom_banks_writeByte.
Qed.

Lemma load_ram_written (saved : AddressSpace) (addrs : list Z) (live : AddressSpace) :
  load_ram addrs (map (fun a => readByte a saved) addrs) live
  = (true, fold_left (fun m a => writeByte (readByte a saved) a m) addrs live).
Proof.
  revert live.
  induction addrs as [| a addrs IH]; intros live; cbn [load_ram map fold_left];
    [ reflexivity | ].
  apply IH.
Qed.

Lemma load_ram_saved (saved live : AddressSpace) :
  load_ram ram_addresses (map (fun a => readByte a saved) ram_addresses) live
  = (true, restore_ram saved live).
Proof. unfold restore_ram. apply load_ram_written. Qed.

Lemma fold_write_back (addrs : list Z) (mem : AddressSpace) :
  fold_left (fun m a => writeByte (readByte a mem) a m) addrs mem = mem.
Proof.
  induction addrs as [| a addrs IH]; cbn [fold_left]; [ reflexivity | ].
  now rewrite writeByte_readByte.
Qed.

Lemma restore_ram_same (mem : AddressSpace) : restore_ram mem mem = mem.
Proof. unfold restore_ram. apply fold_write_back. Qed.

(** After a restore, every RAM address that is backed by a writable bank
    reads the saved byte; every other address reads what it did. *)
Lemma readByte_restore_ram (saved live : AddressSpace) (a : Z) :
  readByte a (restore_ram saved live)
  = if in_ram a && backed a live then readByte a saved else readByte a live.
Proof.
  unfold restore_ram.
  rewrite (readByte_fold_write (fun x => readByte x saved)), in_ram_addresses.
  reflexivity.
Qed.

Lemma bytes_eqb_refl (bs : list byte) : bytes_eqb bs bs = true.
Proof.
  induction bs as [| b bs IH]; cbn [bytes_eqb]; [ reflexivity | ].
  rewrite IH. now destruct b.
Qed.

Lemma world_ok_parts (w : World) :
  world_ok w = true -> cpu_ok (e8080 w) = true /\ si_state_ok (si_state w) = true.
Proof. unfold world_ok. intros H. now apply andb_prop in H. Qed.

Section PersistenceProperties.
Context {cpu_layout : Layout CpuState cpu_ok}.
Context {si_layout : Layout si_state_t si_state_ok}.

(** A whole object in the stream is read back as it was written. *)
Lemma fread_object_written {T : Type} {ok : T -> bool} {L : Layout T ok}
    (x live : T) (rest : list byte) :
  ok x = true ->
  fread_object live (to_bytes x ++ rest) = (true, x, rest).
Proof.
  intros Hok. unfold fread_object.
  pose proof (to_bytes_length x Hok) as Hlen.
  rewrite List.firstn_app_l by (symmetry; exact Hlen).
  rewrite List.skipn_app_r by (symmetry; exact Hlen).
  rewrite Hlen, Nat.eqb_refl, (of_to_bytes x Hok). reflexivity.
Qed.

(** Loading a blob written from [saved] into any live state. *)
Lemma load_saved_blob (filename : string) (fs : FileSystem) (saved live : World) :
  world_ok saved = true ->
  fs_file fs filename = Some (save_blob saved) ->
  si_load_state filename fs live
  = (0, None,
     {| e8080 := e8080 saved;
        memory := restore_ram (memory saved) (memory live);
        si_state := si_state saved |}).
Proof.
  intros Hok Hfile. apply world_ok_parts in Hok. destruct Hok as [Hc Hs].
  unfold si_load_state. rewrite Hfile. unfold save_blob.
  change (firstn 4 (magic ++ ?r)) with magic.
  change (skipn 4 (magic ++ ?r)) with r.
  change (length magic =? 4)%nat with true.
  rewrite bytes_eqb_refl. cbn [negb orb].
  change (firstn 4 (le_split 4 version ++ ?r)) with (le_split 4 version).
  change (skipn 4 (le_split 4 version ++ ?r)) with r.
  change (length (le_split 4 version) =? 4)%nat with true.
  change (le_combine (le_split 4 version) =? 1) with true. cbn [negb orb].
  rewrite (fread_object_written (e8080 saved) (e8080 live) _ Hc).
  cbn [negb with_cpu si_state].
  pose proof (fread_object_written (si_state saved) (si_state live)
                (map (fun addr => readByte addr (memory saved)) ram_addresses)
                Hs) as Hread.
  rewrite Hread. cbn [negb with_si memory].
  rewrite load_ram_saved. reflexivity.
Qed.

(** C3: when [si_save_state] succeeds, [si_load_state] on the file it
    wrote succeeds too and leaves the globals exactly as they were saved:
    the CPU state, the machine state with its frame and cycle counters
    and its configuration, and the memory.  Loaded into any other live
    state, the file brings back the saved CPU and machine state, and
    stores the saved RAM bytes through [writeByte]. *)
Theorem save_then_load (filename : string) (fs : FileSystem) (w : World) :
  world_ok w = true ->
  fs_can_create fs filename = true ->
  let fs' := snd (si_save_state filename w fs) in
  fst (si_save_state filename w fs) = 0
  /\ si_load_state filename fs' w = (0, None, w)
  /\ (forall live : World,
        si_load_state filename fs' live
        = (0, None,
           {| e8080 := e8080 w;
              memory := restore_ram (memory w) (memory live);
              si_state := si_state w |})).
Proof.
  intros Hok Hcreate. cbv zeta. unfold si_save_state. rewrite Hcreate.
  cbn [fst snd].
  assert (Hfile : fs_file (fs_write filename (save_blob w) fs) filename
                  = Some (save_blob w)).
  { cbn [fs_write fs_file]. now rewrite String.eqb_refl. }
  split; [ reflexivity | ]. split.
  - rewrite (load_saved_blob filename _ w w Hok Hfile).
    rewrite restore_ram_same. now destruct w.
  - intros live. apply (load_saved_blob filename _ w live Hok Hfile).
Qed.

(** C2 (as amended): a load that fails returns -1, and what it has
    touched depends on where it failed.  A file that cannot be opened, a
    bad or short magic tag, a bad or short version: nothing is changed.
    A short CPU section: the machine state and the memory are unchanged.
    A short machine-state section: the memory is unchanged.  Short RAM
    contents: the read-only banks are unchanged. *)
Theorem failed_load_effects (filename : string) (fs : FileSystem) (w : World) :
  let result := si_load_state filename fs w in
  let status := fst (fst result) in
  let w' := snd result in
  match snd (fst result) with
  | None => status = 0
  | Some FailedToOpen | Some BadMagic | Some IncompatibleVersion =>
      status = -1 /\ w' = w
  | Some FailedCpuState =>
      status = -1 /\ si_state w' = si_state w /\ memory w' = memory w
  | Some FailedEmulatorState =>
      status = -1 /\ memory w' = memory w
  | Some FailedRamContents =>
      status = -1 /\ rom_banks (memory w') = rom_banks (memory w)
  end.
Proof.
  cbv zeta. unfold si_load_state.
  destruct (fs_file fs filename) as [stream |]; [ | now split ].
  destruct (negb _ || negb _); [ now split | ].
  destruct (negb _ || negb _); [ now split | ].
  destruct (fread_object (e8080 w) _) as [[got c] stream1].
  destruct got; cbn [negb]; [ | now repeat split ].
  destruct (fread_object _ _) as [[got s] stream2].
  destruct got; cbn [negb]; [ | now repeat split ].
  cbn [with_si with_cpu memory].
  pose proof (load_ram_rom_banks ram_addresses stream2 (memory w)) as Hrom.
  destruct (load_ram ram_addresses stream2 (memory w)) as [got m].
  destruct got; cbn [negb fst snd]; [ reflexivity | ].
  split; [ reflexivity | exact Hrom ].
Qed.

End PersistenceProperties.

(** ** The packed layout is faithful *)

Lemma get_byte_cons (b : byte) (rest : list byte) :
  get_byte (b :: rest) = (b, rest).
Proof. reflexivity. Qed.

Lemma get_bool_put (b : bool) (rest : list byte) :
  get_bool (put_bool b ++ rest) = (b, rest).
Proof. now destruct b. Qed.

Lemma get_uint_split (n : nat) (z : Z) (rest : list byte) :
  0 <= z < 2 ^ (Z.of_nat n * 8) ->
  get_uint n (le_split n z ++ rest) = (z, rest).
Proof.
  intros Hz. unfold get_uint.
  rewrite List.firstn_app_l by (now rewrite length_le_split).
  rewrite List.skipn_app_r by (now rewrite length_le_split).
  rewrite le_combine_split, Z.mod_small by assumption. reflexivity.
Qed.

Lemma get_int_split (z : Z) (rest : list byte) :
  in_int z = true ->
  get_int (le_split 4 z ++ rest) = (z, rest).
Proof.
  intros Hz. unfold in_int in Hz. apply andb_prop in Hz.
  destruct Hz as [Hlo Hhi]. apply Z.leb_le in Hlo. apply Z.ltb_lt in Hhi.
  unfold get_int.
  rewrite List.firstn_app_l by (now rewrite length_le_split).
  rewrite List.skipn_app_r by (now rewrite length_le_split).
  rewrite le_combine_split.
  change (2 ^ (Z.of_nat 4 * 8)) with 4294967296.
  change (2 ^ 32) with 4294967296. change (2 ^ 31) with 2147483648 in *.
  f_equal.
  destruct (Z.ltb_spec (z mod 4294967296) 2147483648) as [Hs | Hs];
    Z.div_mod_to_equations; lia.
Qed.

Lemma get_array_app (n : nat) (l rest : list byte) :
  length l = n -> get_array n (l ++ rest) = (l, rest).
Proof.
  intros Hlen. unfold get_array.
  rewrite List.firstn_app_l, List.skipn_app_r by (symmetry; exact Hlen).
  reflexivity.
Qed.

Ltac split_ok H :=
  repeat match type of H with
         | (_ && _)%bool = true =>
             let H' := fresh "Hok" in
             apply andb_prop in H; destruct H as [H H']
         end.

Lemma cpu_to_bytes_length (c : CpuState) :
  cpu_ok c = true -> length (cpu_to_bytes c) = 42%nat.
Proof.
  intros _. unfold cpu_to_bytes, put_bool.
  rewrite !length_app, !length_le_split. reflexivity.
Qed.

Lemma cpu_of_to_bytes (c : CpuState) :
  cpu_ok c = true -> cpu_of_bytes (cpu_to_bytes c) = c.
Proof.
  intros H. unfold cpu_ok in H. split_ok H.
  unfold cpu_to_bytes, cpu_of_bytes.
  cbn [app]. rewrite !get_byte_cons.
  rewrite !get_uint_split by (apply in_u16_range; assumption).
  rewrite !get_bool_put.
  cbn [app]. rewrite !get_byte_cons.
  rewrite !get_uint_split by (apply in_u64_range; assumption).
  rewrite <- (app_nil_r (le_split 8 (portOut c))).
  rewrite get_uint_split by (apply in_u64_range; assumption).
  now destruct c.
Qed.

#[export] Instance packed_cpu : Layout CpuState cpu_ok := {|
  sizeof := 42%nat;
  to_bytes := cpu_to_bytes;
  of_bytes := cpu_of_bytes;
  to_bytes_length := cpu_to_bytes_length;
  of_to_bytes := cpu_of_to_bytes
|}.

Lemma si_state_to_bytes_length (s : si_state_t) :
  si_state_ok s = true -> length (si_state_to_bytes s) = si_state_packed_size.
Proof.
  intros H. unfold si_state_ok in H. split_ok H.
  apply Nat.eqb_eq in H.
  unfold si_state_to_bytes, put_bool, si_state_packed_size.
  rewrite !length_app, !length_le_split, H.
  apply (f_equal (Nat.add screen_bytes)). reflexivity.
Qed.

Lemma si_state_of_to_bytes (s : si_state_t) :
  si_state_ok s = true -> si_state_of_bytes (si_state_to_bytes s) = s.
Proof.
  intros H. unfold si_state_ok in H. split_ok H.
  apply Nat.eqb_eq in H.
  unfold si_state_to_bytes, si_state_of_bytes.
  rewrite get_array_app by assumption.
  rewrite get_uint_split by (apply in_u16_range; assumption).
  rewrite get_int_split by assumption.
  cbn [app]. rewrite get_byte_cons.
  rewrite get_uint_split by (apply in_u32_range; assumption).
  rewrite get_uint_split by (apply in_u64_range; assumption).
  rewrite !get_bool_put.
  rewrite get_uint_split by (apply in_u32_range; assumption).
  rewrite get_bool_put.
  rewrite !get_byte_cons.
  destruct s as [scr reg off inp fr cy ini [hl sp un [[d0 d1] d2]]].
  reflexivity.
Qed.

#[export] Instance packed_si_state : Layout si_state_t si_state_ok := {|
  sizeof := si_state_packed_size;
  to_bytes := si_state_to_bytes;
  of_bytes := si_state_of_bytes;
  to_bytes_length := si_state_to_bytes_length;
  of_to_bytes := si_state_of_to_bytes
|}.

(** ** Persistence on concrete files *)

(** The round trip on the sample game, saved to an empty disk. *)
Lemma save_then_load_witness :
  let fs' := snd (si_save_state "game.sav" running_world empty_disk) in
  fst (si_save_state "game.sav" running_world empty_disk) = 0
  /\ si_load_state "game.sav" fs' running_world = (0, None, running_world)
  /\ (forall live : World,
        si_load_state "game.sav" fs' live
        = (0, None,
           {| e8080 := e8080 running_world;
              memory := restore_ram (memory running_world) (memory live);
              si_state := si_state running_world |})).
Proof.
  apply (save_then_load "game.sav" empty_disk running_world).
  - vm_compute. reflexivity.
  - reflexivity.
Defined.

(** C2 (as stated) fails: loading a file that ends after the CPU section
    returns -1 with the message of the machine-state read, and the live
    CPU state has been replaced by the one in the file. *)
Lemma failed_load_commits_cpu :
  let result := si_load_state "cut.sav" damaged_disk power_on_world in
  fst result = (-1, Some FailedEmulatorState)
  /\ e8080 (snd result) = e8080 running_world
  /\ e8080 (snd result) <> e8080 power_on_world.
Proof.
  cbv zeta.
  assert (H : let result := si_load_state "cut.sav" damaged_disk power_on_world in
              fst result = (-1, Some FailedEmulatorState)
              /\ e8080 (snd result) = e8080 running_world).
  { vm_compute. split; reflexivity. }
  cbv zeta in H. destruct H as [H1 H2].
  split; [ exact H1 | ]. split; [ exact H2 | ].
  rewrite H2. vm_compute. discriminate.
Qed.

(** * Further properties *)

(** ** The port bridge *)

Lemma in_u16_bounds (z : Z) : in_u16 z = true -> 0 <= z < 65536.
Proof.
  intros H. apply in_u16_range in H.
  change (2 ^ (Z.of_nat 2 * 8)) with 65536 in H. exact H.
Qed.

(** A byte placed above a byte is a 16-bit value. *)
Lemma byte_over_byte (lo : Z) (hi : byte) :
  0 <= lo < 256 ->
  Z.lor lo (Z.shiftl (byte.unsigned hi) 8) = lo + 256 * byte.unsigned hi.
Proof.
  intros Hlo. pose proof (byte_unsigned_lt hi) as Hhi.
  rewrite Z.shiftl_mul_pow2 by lia.
  assert (Hdisj : Z.land lo (byte.unsigned hi * 2 ^ 8) = 0).
  { apply Z.bits_inj'. intros n Hn.
    rewrite Z.land_spec, Z.bits_0.
    destruct (Z.lt_ge_cases n 8) as [Hlt | Hge].
    - rewrite Z.mul_pow2_bits_low by lia. apply andb_false_r.
    - rewrite (testbit_small_const lo n) by lia. reflexivity. }
  rewrite <- Z.lxor_lor, <- Z.add_nocarry_lxor by exact Hdisj.
  change (2 ^ 8) with 256. lia.
Qed.

Lemma shift_in_byte (reg : Z) (v : byte) :
  0 <= reg < 65536 ->
  to_u16 (Z.lor (Z.shiftr reg 8) (Z.shiftl (byte.unsigned v) 8))
  = reg / 256 + 256 * byte.unsigned v.
Proof.
  intros Hreg. pose proof (byte_unsigned_lt v) as Hv.
  rewrite Z.shiftr_div_pow2 by lia. change (2 ^ 8) with 256.
  assert (Hq : 0 <= reg / 256 < 256)
    by (split; [ apply Z.div_pos; lia | apply Z.div_lt_upper_bound; lia ]).
  rewrite byte_over_byte by assumption.
  unfold to_u16. apply Z.mod_small. change (2 ^ 16) with 65536. lia.
Qed.

(** X1: the shift register holds the last two bytes written to port 4,
    the latest in its high byte; with an offset [k] in 0..7 the port-3 read
    is the window that starts [k] bits below the top: the low [8 - k] bits
    of the latest byte above the high [k] bits of the byte before. *)
Theorem shift_register_two_bytes (s : si_state_t) (v1 v2 k : byte) :
  in_u16 (shift_reg s) = true ->
  byte.unsigned k <= 7 ->
  let s' := si_port_out 2 k (si_port_out 4 v2 (si_port_out 4 v1 s)) in
  shift_reg s' = 256 * byte.unsigned v2 + byte.unsigned v1
  /\ si_port_in 3 s'
     = byte.of_Z (Z.lor (Z.shiftl (byte.unsigned v2) (byte.unsigned k))
                        (Z.shiftr (byte.unsigned v1) (8 - byte.unsigned k))).
Proof.
  intros Hreg Hk. cbv zeta. apply in_u16_bounds in Hreg.
  pose proof (byte_unsigned_lt k) as Hk0.
  pose proof (byte_unsigned_lt v1) as Hv1.
  pose proof (byte_unsigned_lt v2) as Hv2.
  cbn [si_port_out si_port_in set_shift_offset set_shift_reg shift_reg
       shift_offset].
  rewrite (shift_in_byte (shift_reg s) v1) by assumption.
  assert (Hq : 0 <= shift_reg s / 256 < 256)
    by (split; [ apply Z.div_pos; lia | apply Z.div_lt_upper_bound; lia ]).
  rewrite shift_in_byte by lia.
  replace ((shift_reg s / 256 + 256 * byte.unsigned v1) / 256)
    with (byte.unsigned v1)
    by (rewrite Z.add_comm, Z.mul_comm, Z.div_add_l by lia;
        rewrite (Z.div_small (shift_reg s / 256)) by lia; lia).
  split; [ lia | ].
  rewrite land_7_small by lia.
  rewrite <- byte_over_byte by lia.
  rewrite Z.shiftr_lor, Z.shiftr_shiftl_l by lia.
  rewrite Z.lor_comm. do 3 f_equal. lia.
Qed.

(** After power-on, the bytes 0x12 then 0xAB and the offset 3. *)
Lemma shift_register_two_bytes_witness :
  let s' := si_port_out 2 Byte.x03
              (si_port_out 4 Byte.xab (si_port_out 4 Byte.x12 power_on_state)) in
  shift_reg s' = 256 * 0xAB + 0x12
  /\ si_port_in 3 s' = byte.of_Z (Z.lor (Z.shiftl 0xAB 3) (Z.shiftr 0x12 (8 - 3))).
Proof.
  apply (shift_register_two_bytes power_on_state Byte.x12 Byte.xab Byte.x03).
  - reflexivity.
  - vm_compute. discriminate.
Defined.

(** X2: a write to port 2 keeps the low three bits of the value only, so
    the stored offset is the value modulo 8 and always lies in 0..7 (a
    write of 9 selects offset 1); the port-3 read that follows is then
    bits 15..8 of the register shifted left by that offset. *)
Theorem port2_masks_offset (s : si_state_t) (v : byte) :
  let s' := si_port_out 2 v s in
  shift_offset s' = byte.unsigned v mod 8
  /\ 0 <= shift_offset s' <= 7
  /\ shift_reg s' = shift_reg s
  /\ si_port_in 3 s'
     = byte.of_Z (Z.shiftr (Z.shiftl (shift_reg s) (byte.unsigned v mod 8)) 8).
Proof.
  cbv zeta.
  assert (Hland : Z.land (byte.unsigned v) 7 = byte.unsigned v mod 8).
  { change 7 with (Z.ones 3). rewrite Z.land_ones by lia. reflexivity. }
  assert (Hrange : 0 <= byte.unsigned v mod 8 < 8)
    by (apply Z.mod_pos_bound; lia).
  cbn [si_port_out si_port_in set_shift_offset shift_offset shift_reg].
  rewrite Hland. repeat split; try lia.
  rewrite Z.shiftr_shiftl_r by lia. reflexivity.
Qed.

Lemma si_port_in_cases (port : Z) (s : si_state_t) :
  si_port_in port s
  = if port =? 0 then dip0 (config s)
    else if port =? 1 then input_state s
    else if port =? 2 then dip2 (config s)
    else if port =? 3
         then byte.of_Z (Z.shiftr (shift_reg s) (8 - shift_offset s))
    else Byte.x00.
Proof.
  unfold si_port_in.
  destruct port as [| p | p]; try reflexivity;
    repeat (destruct p as [p | p |]; try reflexivity).
Qed.

Lemma si_port_out_cases (port : Z) (v : byte) (s : si_state_t) :
  si_port_out port v s
  = if port =? 2 then set_shift_offset (Z.land (byte.unsigned v) 7) s
    else if port =? 4
         then set_shift_reg
                (to_u16 (Z.lor (Z.shiftr (shift_reg s) 8)
                               (Z.shiftl (byte.unsigned v) 8))) s
    else s.
Proof.
  unfold si_port_out.
  destruct port as [| p | p]; try reflexivity;
    repeat (destruct p as [p | p |]; try reflexivity).
Qed.

(** X3: after [si_set_dip_switches(d0, d1, d2)] port 0 reads [d0] and port
    2 reads [d2]; port 1 reads the input latch, not [d1]; and no port read
    at all depends on [d1]: the second DIP byte is stored but never shown
    to the program. *)
Theorem dip_switches_on_ports (d0 d1 d2 d1' : byte) (port : Z) (s : si_state_t) :
  si_port_in 0 (si_set_dip_switches d0 d1 d2 s) = d0
  /\ si_port_in 2 (si_set_dip_switches d0 d1 d2 s) = d2
  /\ si_port_in 1 (si_set_dip_switches d0 d1 d2 s) = input_state s
  /\ si_port_in port (si_set_dip_switches d0 d1 d2 s)
     = si_port_in port (si_set_dip_switches d0 d1' d2 s).
Proof.
  split; [ reflexivity | ]. split; [ reflexivity | ].
  split; [ reflexivity | ].
  rewrite !si_port_in_cases. reflexivity.
Qed.

(** X4: a port write never touches the input latch, the counters, the
    configuration, the initialized flag or the frame buffer, and a write
    to any port other than 2 and 4 (the sound ports 3 and 5, the watchdog
    6, an unassigned port) changes nothing at all; a read of a port
    outside 0..3 gives 0. *)
Theorem port_writes_are_local (port : Z) (v : byte) (s : si_state_t) :
  let s' := si_port_out port v s in
  (input_state s', frame_count s', cycle_count s', config s',
   initialized s', screen_buf s')
  = (input_state s, frame_count s, cycle_count s, config s,
     initialized s, screen_buf s)
  /\ (port <> 2 -> port <> 4 -> s' = s)
  /\ (port < 0 \/ 3 < port -> si_port_in port s = Byte.x00).
Proof.
  cbv zeta. rewrite si_port_out_cases, si_port_in_cases.
  split; [ | split ].
  - destruct (port =? 2); [ reflexivity | ].
    destruct (port =? 4); reflexivity.
  - intros H2 H4.
    rewrite (proj2 (Z.eqb_neq port 2)), (proj2 (Z.eqb_neq port 4)) by assumption.
    reflexivity.
  - intros Hout.
    repeat match goal with
           | |- context [port =? ?c] =>
               rewrite (proj2 (Z.eqb_neq port c)) by lia
           end.
    reflexivity.
Qed.

(** X5: after [si_set_input] the program reads the latch on port 1 with
    bit 3 set and bit 7 clear whatever the caller passed, so the value is
    between 0x08 and 0x7F; writing back what [si_get_input] returns changes
    nothing. *)
Theorem input_latch_on_port1 (b : byte) (s : si_state_t) :
  let s' := si_set_input b s in
  si_port_in 1 s' = si_get_input s'
  /\ Z.testbit (byte.unsigned (si_port_in 1 s')) 3 = true
  /\ Z.testbit (byte.unsigned (si_port_in 1 s')) 7 = false
  /\ 0x08 <= byte.unsigned (si_port_in 1 s') <= 0x7F
  /\ si_set_input (si_get_input s') s' = s'.
Proof.
  cbv zeta. unfold si_set_input, si_get_input.
  cbn [si_port_in input_state set_input_state].
  assert (Hfix : forall x : byte,
             let l := byte.of_Z (Z.lor (Z.land (byte.unsigned x) 0x77) 0x08) in
             Z.testbit (byte.unsigned l) 3 = true
             /\ Z.testbit (byte.unsigned l) 7 = false
             /\ 0x08 <= byte.unsigned l <= 0x7F
             /\ byte.of_Z (Z.lor (Z.land (byte.unsigned l) 0x77) 0x08) = l).
  { intros x. destruct x; vm_compute; repeat split; discriminate. }
  destruct (Hfix b) as [H3 [H7 [Hr Hid]]]. cbv zeta in *.
  repeat split; try assumption; try lia.
  rewrite Hid. reflexivity.
Qed.

(** ** Lists cut in chunks of equal length *)

Lemma length_flat_map_chunks {A B : Type} (f : A -> list B) (k : nat)
    (l : list A) :
  (forall x, length (f x) = k) -> length (flat_map f l) = (k * length l)%nat.
Proof.
  intros Hk. induction l as [| a l IH]; cbn [flat_map length]; [ lia | ].
  rewrite length_app, Hk, IH. lia.
Qed.

Lemma flat_map_chunk {A B : Type} (f : A -> list B) (k : nat) (l : list A)
    (i : nat) (d : A) :
  (forall x, length (f x) = k) -> (i < length l)%nat ->
  firstn k (skipn (k * i) (flat_map f l)) = f (nth i l d).
Proof.
  intros Hk. revert i.
  induction l as [| a l IH]; intros i Hi; cbn [length] in Hi; [ lia | ].
  cbn [flat_map]. destruct i as [| i].
  - rewrite Nat.mul_0_r. cbn [skipn nth].
    apply List.firstn_app_l. symmetry. apply Hk.
  - replace (k * S i)%nat with (k + k * i)%nat by lia.
    rewrite List.skipn_app_r2 by (symmetry; apply Hk).
    cbn [nth]. apply IH. lia.
Qed.

Lemma nth_in_chunk {A B : Type} (f : A -> list B) (k : nat) (l : list A)
    (q r : nat) (d : A) (e : B) :
  (forall x, length (f x) = k) -> (q < length l)%nat -> (r < k)%nat ->
  nth (k * q + r) (flat_map f l) e = nth r (f (nth q l d)) e.
Proof.
  intros Hk Hq Hr.
  rewrite <- (flat_map_chunk f k l q d Hk Hq).
  rewrite nth_firstn by exact Hr.
  rewrite nth_skipn. reflexivity.
Qed.

Lemma map_nth_seq {A B : Type} (h : A -> B) (l : list A) (d : A) :
  map (fun i => h (nth i l d)) (seq 0 (length l)) = map h l.
Proof.
  induction l as [| a l IH]; cbn [length seq map]; [ reflexivity | ].
  f_equal. rewrite <- seq_shift, map_map. cbn [nth]. exact IH.
Qed.

Lemma length_addr_range (start : Z) (n : nat) : length (addr_range start n) = n.
Proof. unfold addr_range. now rewrite length_map, length_seq. Qed.

Lemma nth_addr_range (start : Z) (n i : nat) (d : Z) :
  (i < n)%nat -> nth i (addr_range start n) d = start + Z.of_nat i.
Proof.
  intros Hi. unfold addr_range.
  rewrite (nth_indep _ d (start + Z.of_nat 0))
    by (now rewrite length_map, length_seq).
  rewrite (map_nth (fun i => start + Z.of_nat i)), seq_nth by assumption.
  reflexivity.
Qed.

(** ** The frame buffer *)

Lemma pixel_count_vram : pixel_count = (8 * vram_size)%nat.
Proof.
  unfold pixel_count, vram_size.
  change 8%nat with (Z.to_nat 8). rewrite <- Z2Nat.inj_mul by (cbv; discriminate).
  reflexivity.
Qed.

Lemma screen_bytes_pixels : screen_bytes = (4 * pixel_count)%nat.
Proof.
  unfold screen_bytes, pixel_count.
  change 4%nat with (Z.to_nat 4). rewrite <- Z2Nat.inj_mul by (cbv; discriminate).
  reflexivity.
Qed.

Lemma length_pixels_of_byte (b : byte) : length (pixels_of_byte b) = 8%nat.
Proof. reflexivity. Qed.

Lemma length_vram_pixels (mem : AddressSpace) :
  length (vram_pixels mem) = pixel_count.
Proof.
  unfold vram_pixels.
  rewrite (length_flat_map_chunks _ 8) by (intros; apply length_pixels_of_byte).
  unfold vram_addresses. rewrite length_addr_range.
  symmetry. apply pixel_count_vram.
Qed.

Lemma length_pixel_bytes (pixels : list Z) :
  length (pixel_bytes pixels) = (4 * length pixels)%nat.
Proof.
  unfold pixel_bytes. apply length_flat_map_chunks.
  intros x. apply length_le_split.
Qed.

Lemma length_written_pixels (mem : AddressSpace) :
  length (pixel_bytes (vram_pixels mem)) = screen_bytes.
Proof.
  rewrite length_pixel_bytes, length_vram_pixels.
  symmetry. apply screen_bytes_pixels.
Qed.

Lemma pixel_of_bit_testbit (b : byte) (i : Z) :
  pixel_of_bit b i = if Z.testbit (byte.unsigned b) i then WHITE else BLACK.
Proof.
  unfold pixel_of_bit. rewrite Z.testbit_odd.
  change 1 with (Z.ones 1). rewrite Z.land_ones by lia. change (2 ^ 1) with 2.
  rewrite Zmod_odd. destruct (Z.odd _); reflexivity.
Qed.

Lemma shifted_bit_test (x i : Z) :
  negb (Z.land (Z.shiftr x i) 1 =? 0) = Z.testbit x i.
Proof.
  rewrite Z.testbit_odd.
  change 1 with (Z.ones 1). rewrite Z.land_ones by lia. change (2 ^ 1) with 2.
  rewrite Zmod_odd. destruct (Z.odd _); reflexivity.
Qed.

Lemma pixel_values (b : byte) (i : Z) : 0 <= pixel_of_bit b i < 2 ^ 32.
Proof.
  rewrite pixel_of_bit_testbit.
  destruct (Z.testbit _ _); unfold WHITE, BLACK; split;
    try (cbv; discriminate); reflexivity.
Qed.

Lemma nth_pixels_of_byte (b : byte) (r : nat) :
  (r < 8)%nat -> nth r (pixels_of_byte b) 0 = pixel_of_bit b (Z.of_nat r).
Proof.
  intros Hr. do 8 (destruct r as [| r]; [ reflexivity | ]). lia.
Qed.

Lemma nth_vram_pixels (mem : AddressSpace) (i : nat) :
  (i < pixel_count)%nat ->
  nth i (vram_pixels mem) 0
  = pixel_of_bit (readByte (SI_VRAM_START + Z.of_nat (i / 8)) mem)
                 (Z.of_nat (i mod 8)).
Proof.
  intros Hi. rewrite pixel_count_vram in Hi.
  assert (Hq : (i / 8 < vram_size)%nat)
    by (apply Nat.Div0.div_lt_upper_bound; exact Hi).
  assert (Hr : (i mod 8 < 8)%nat) by (apply Nat.mod_upper_bound; lia).
  rewrite (Nat.div_mod_eq i 8) at 1.
  unfold vram_pixels.
  rewrite (nth_in_chunk _ 8 vram_addresses (i / 8) (i mod 8) 0 0);
    [ | intros; apply length_pixels_of_byte
      | unfold vram_addresses; rewrite length_addr_range; exact Hq
      | exact Hr ].
  unfold vram_addresses. rewrite nth_addr_range by exact Hq.
  apply nth_pixels_of_byte. exact Hr.
Qed.

Lemma screen_pixel_written (pixels : list Z) (tail : list byte) (i : nat) :
  (i < length pixels)%nat ->
  screen_pixel (pixel_bytes pixels ++ tail) i = nth i pixels 0 mod 2 ^ 32.
Proof.
  intros Hi. unfold screen_pixel.
  pose proof (length_pixel_bytes pixels) as Hlen.
  rewrite Lists.List.skipn_app.
  replace (4 * i - length (pixel_bytes pixels))%nat with 0%nat by lia.
  rewrite Lists.List.firstn_app, length_skipn.
  replace (4 - (length (pixel_bytes pixels) - 4 * i))%nat with 0%nat by lia.
  rewrite firstn_O, app_nil_r.
  unfold pixel_bytes.
  rewrite (flat_map_chunk (le_split 4) 4 pixels i 0)
    by (try exact Hi; intros; apply length_le_split).
  rewrite le_combine_split. reflexivity.
Qed.

(** X6: [si_update_framebuffer] turns bit [i mod 8] of the VRAM byte at
    [SI_VRAM_START + i / 8] into pixel [i] of the frame buffer, bit 0
    first: 0xFFFFFFFF when the bit is set and 0xFF000000 when it is clear.
    It changes neither the CPU nor the memory nor any other field of the
    machine state. *)
Theorem update_framebuffer_pixels (w : World) (i : nat) :
  (i < pixel_count)%nat ->
  let w' := si_update_framebuffer w in
  screen_pixel (screen_buf (si_state w')) i
  = (if Z.testbit
          (byte.unsigned (readByte (SI_VRAM_START + Z.of_nat (i / 8)) (memory w)))
          (Z.of_nat (i mod 8))
     then 0xFFFFFFFF else 0xFF000000)
  /\ e8080 w' = e8080 w
  /\ memory w' = memory w
  /\ si_state w' = set_screen_buf (screen_buf (si_state w')) (si_state w).
Proof.
  intros Hi. cbv zeta. unfold si_update_framebuffer.
  cbn [with_si si_state e8080 memory set_screen_buf screen_buf].
  split; [ | repeat split ].
  rewrite screen_pixel_written by (rewrite length_vram_pixels; exact Hi).
  rewrite nth_vram_pixels by exact Hi.
  rewrite Z.mod_small by apply pixel_values.
  apply pixel_of_bit_testbit.
Qed.

(** Pixel 11 of the running game: bit 3 of the byte at 0x2401. *)
Lemma update_framebuffer_pixels_witness :
  let w' := si_update_framebuffer running_world in
  screen_pixel (screen_buf (si_state w')) 11
  = (if Z.testbit
          (byte.unsigned
             (readByte (SI_VRAM_START + Z.of_nat (11 / 8)) (memory running_world)))
          (Z.of_nat (11 mod 8))
     then 0xFFFFFFFF else 0xFF000000)
  /\ e8080 w' = e8080 running_world
  /\ memory w' = memory running_world
  /\ si_state w' = set_screen_buf (screen_buf (si_state w')) (si_state running_world).
Proof.
  apply (update_framebuffer_pixels running_world 11).
  rewrite pixel_count_vram. unfold vram_size.
  apply Nat2Z.inj_lt. rewrite Nat2Z.inj_mul, Z2Nat.id by (cbv; discriminate).
  reflexivity.
Defined.

Lemma map_flat_map_chunks {A B C : Type} (g : B -> C) (f : A -> list B)
    (l : list A) :
  map g (flat_map f l) = flat_map (fun x => map g (f x)) l.
Proof.
  induction l as [| a l IH]; cbn [flat_map map]; [ reflexivity | ].
  now rewrite map_app, IH.
Qed.

Lemma gray_of_pixel_of_bit (b : byte) (i : Z) :
  gray_of_pixel (pixel_of_bit b i)
  = if Z.testbit (byte.unsigned b) i then Byte.xff else Byte.x00.
Proof.
  rewrite pixel_of_bit_testbit. destruct (Z.testbit _ _); reflexivity.
Qed.

Lemma gray_pixels_of_byte (b : byte) :
  map gray_of_pixel (pixels_of_byte b) = gray_of_byte b.
Proof.
  unfold pixels_of_byte, gray_of_byte. rewrite map_map.
  apply map_ext. intros i. apply gray_of_pixel_of_bit.
Qed.

Lemma gray_pixels_after_update (w : World) :
  gray_pixels (si_state (si_update_framebuffer w))
  = flat_map (fun addr => gray_of_byte (readByte addr (memory w))) vram_addresses.
Proof.
  unfold gray_pixels, si_update_framebuffer.
  cbn [with_si si_state set_screen_buf screen_buf].
  rewrite <- (length_vram_pixels (memory w)).
  erewrite map_ext_in.
  - rewrite (map_nth_seq gray_of_pixel (vram_pixels (memory w)) 0).
    unfold vram_pixels. rewrite map_flat_map_chunks.
    apply flat_map_ext. intros addr. apply gray_pixels_of_byte.
  - intros i Hin. apply in_seq in Hin. cbn beta.
    rewrite screen_pixel_written by lia.
    rewrite length_vram_pixels in Hin.
    rewrite nth_vram_pixels by lia.
    rewrite Z.mod_small by apply pixel_values. reflexivity.
Qed.

(** X7: [si_get_framebuffer_grayscale] does nothing for a null buffer.
    Called after [si_update_framebuffer] it stores, for each VRAM byte in
    address order, eight values, 255 where the bit is set and 0 where it is
    clear, bit 0 first; the caller's bytes beyond [width * height] are left
    as they were. *)
Theorem grayscale_of_vram (w : World) (buf : list byte) :
  si_get_framebuffer_grayscale None (si_state (si_update_framebuffer w)) = None
  /\ si_get_framebuffer_grayscale (Some buf) (si_state (si_update_framebuffer w))
     = Some (flat_map (fun addr => gray_of_byte (readByte addr (memory w)))
                      vram_addresses
             ++ skipn pixel_count buf)
  /\ length (flat_map (fun addr => gray_of_byte (readByte addr (memory w)))
                      vram_addresses)
     = pixel_count.
Proof.
  split; [ reflexivity | ]. split.
  - unfold si_get_framebuffer_grayscale. now rewrite gray_pixels_after_update.
  - rewrite (length_flat_map_chunks _ 8) by reflexivity.
    unfold vram_addresses. rewrite length_addr_range.
    symmetry. apply pixel_count_vram.
Qed.

(** X8: the grayscale value of a frame-buffer pixel looks at its three
    colour bytes only: it is 0 exactly when they are all zero, whatever
    the fourth (opacity) byte holds. *)
Theorem grayscale_ignores_opacity (b0 b1 b2 b3 : byte) :
  gray_of_pixel (le_combine [b0; b1; b2; b3])
  = (if Byte.eqb b0 Byte.x00 && Byte.eqb b1 Byte.x00 && Byte.eqb b2 Byte.x00
     then Byte.x00 else Byte.xff).
Proof.
  assert (Hlow : Z.land (le_combine [b0; b1; b2; b3]) 0x00FFFFFF
                 = le_combine [b0; b1; b2]).
  { change 0x00FFFFFF with (Z.ones 24). rewrite Z.land_ones by lia.
    change [b0; b1; b2; b3] with ([b0; b1; b2] ++ [b3]).
    rewrite le_combine_app. cbn [length].
    pose proof (le_combine_bound [b0; b1; b2]) as Hb. cbn [length] in Hb.
    change (Z.of_nat 3 * 8) with 24. change (8 * Z.of_nat 3) with 24 in Hb.
    rewrite <- Z.land_ones, Z.land_lor_distr_l, !Z.land_ones by lia.
    rewrite Z.shiftl_mul_pow2, Z.mod_mul, Z.lor_0_r by lia.
    apply Z.mod_small. exact Hb. }
  unfold gray_of_pixel. rewrite Hlow.
  assert (Hzero : (le_combine [b0; b1; b2] =? 0)
                  = Byte.eqb b0 Byte.x00 && Byte.eqb b1 Byte.x00
                    && Byte.eqb b2 Byte.x00).
  { destruct (Z.eqb_spec (le_combine [b0; b1; b2]) 0) as [E | E].
    - change 0 with (le_combine [Byte.x00; Byte.x00; Byte.x00]) in E.
      apply le_combine_inj in E; [ | reflexivity ].
      injection E as -> -> ->. reflexivity.
    - destruct (Byte.eqb b0 Byte.x00) eqn:E0; [ | reflexivity ].
      destruct (Byte.eqb b1 Byte.x00) eqn:E1; [ | reflexivity ].
      destruct (Byte.eqb b2 Byte.x00) eqn:E2; [ | reflexivity ].
      apply Byte.byte_dec_bl in E0, E1, E2. subst. now contradiction E. }
  rewrite Hzero. destruct (_ && _ && _); reflexivity.
Qed.

(** ** The older front-end *)

(** X9: the older front-end draws each video byte from bit 7 down to bit
    0, the core from bit 0 up to bit 7: the eight pixels a byte gives on the
    legacy surface are the core's grayscale pixels in reverse order, over
    the whole screen. *)
Theorem legacy_pixels_mirrored (x : byte) (ram : list byte) :
  LegacyFrontEnd.byte_pixels x = rev (gray_of_byte x)
  /\ LegacyFrontEnd.render ram
     = flat_map
         (fun p => rev (gray_of_byte
                          (nth (Z.to_nat (0x2400 + Z.of_nat p)) ram Byte.x00)))
         (seq 0 (Z.to_nat (0x4000 - 0x2400))).
Proof.
  assert (Hbyte : forall y, LegacyFrontEnd.byte_pixels y = rev (gray_of_byte y)).
  { intros y. unfold LegacyFrontEnd.byte_pixels, gray_of_byte.
    cbn [map rev app]. rewrite !shifted_bit_test. reflexivity. }
  split; [ apply Hbyte | ].
  unfold LegacyFrontEnd.render. apply flat_map_ext. intros p. apply Hbyte.
Qed.

Lemma key_bit_small (sym : LegacyFrontEnd.key) :
  0 <= LegacyFrontEnd.key_bit sym < 256.
Proof. destruct sym; cbv; split; congruence. Qed.

Lemma testbit_or_key (d : byte) (sym : LegacyFrontEnd.key) (i : Z) :
  Z.testbit
    (byte.unsigned (byte.of_Z (Z.lor (byte.unsigned d) (LegacyFrontEnd.key_bit sym))))
    i
  = Z.testbit (byte.unsigned d) i || Z.testbit (LegacyFrontEnd.key_bit sym) i.
Proof.
  rewrite byte.unsigned_of_Z. unfold byte.wrap.
  pose proof (byte_unsigned_lt d) as Hd.
  pose proof (key_bit_small sym) as Hk.
  destruct (Z.lt_ge_cases i 8) as [Hlt | Hge].
  - destruct (Z.lt_ge_cases i 0) as [Hneg | Hpos].
    + now rewrite !Z.testbit_neg_r by assumption.
    + rewrite Z.mod_pow2_bits_low by lia. apply Z.lor_spec.
  - rewrite Z.mod_pow2_bits_high by lia.
    rewrite !testbit_small_const by lia. reflexivity.
Qed.

Lemma poll_events_bits (pending : list LegacyFrontEnd.event) (d0 : byte) :
  match LegacyFrontEnd.poll_events pending d0 with
  | None => existsb is_quit pending = true
  | Some d =>
      existsb is_quit pending = false
      /\ forall i, Z.testbit (byte.unsigned d) i
                   = Z.testbit (byte.unsigned d0) i
                     || existsb (keydown_bit i) pending
  end.
Proof.
  revert d0.
  induction pending as [| e pending IH]; intros d0;
    cbn [LegacyFrontEnd.poll_events existsb].
  - split; [ reflexivity | ]. intros i. now rewrite orb_false_r.
  - destruct e as [sym | |]; cbn [is_quit keydown_bit orb].
    + specialize (IH (byte.of_Z (Z.lor (byte.unsigned d0)
                                       (LegacyFrontEnd.key_bit sym)))).
      destruct (LegacyFrontEnd.poll_events pending _) as [d |]; [ | exact IH ].
      destruct IH as [Hq Hbits]. split; [ exact Hq | ].
      intros i. rewrite Hbits, testbit_or_key. now rewrite orb_assoc.
    + reflexivity.
    + apply IH.
Qed.

(** X10: [spaceInvaders_vblank] rebuilds [dip1] from nothing on every
    call: bit [i] is set exactly when one of the pending events is a key
    press of a key that has bit [i] (up 4, down 2, left 5, right 6, c 0), so
    it does not depend on the previous [dip1], and bits 1, 3 and 7 are never
    set.  It does not return when a quit event is pending. *)
Theorem legacy_vblank_keys (pending : list LegacyFrontEnd.event)
    (p : Legacy.ports) (ram : list byte) :
  match LegacyFrontEnd.spaceInvaders_vblank pending p ram with
  | None => existsb is_quit pending = true
  | Some (p', surface) =>
      existsb is_quit pending = false
      /\ (forall i, Z.testbit (byte.unsigned (Legacy.dip1 p')) i
                    = existsb (keydown_bit i) pending)
      /\ Z.testbit (byte.unsigned (Legacy.dip1 p')) 1 = false
      /\ Z.testbit (byte.unsigned (Legacy.dip1 p')) 3 = false
      /\ Z.testbit (byte.unsigned (Legacy.dip1 p')) 7 = false
      /\ surface = LegacyFrontEnd.render ram
  end.
Proof.
  unfold LegacyFrontEnd.spaceInvaders_vblank.
  pose proof (poll_events_bits pending Byte.x00) as H.
  destruct (LegacyFrontEnd.poll_events pending Byte.x00) as [d |];
    [ | exact H ].
  destruct H as [Hq Hbits]. cbn [Legacy.dip1].
  assert (Hall : forall i, Z.testbit (byte.unsigned d) i
                           = existsb (keydown_bit i) pending).
  { intros i. rewrite Hbits. change (byte.unsigned Byte.x00) with 0.
    now rewrite Z.testbit_0_l. }
  assert (Hnever : forall i, (forall sym, Z.testbit (LegacyFrontEnd.key_bit sym) i = false) ->
                             existsb (keydown_bit i) pending = false).
  { intros i Hi. clear -Hi.
    induction pending as [| e pending IH]; [ reflexivity | ].
    cbn [existsb]. rewrite IH, orb_false_r.
    destruct e as [sym | |]; cbn [keydown_bit]; [ apply Hi | | ]; reflexivity. }
  repeat split; try assumption.
  - rewrite Hall. apply Hnever. intros sym. now destruct sym.
  - rewrite Hall. apply Hnever. intros sym. now destruct sym.
  - rewrite Hall. apply Hnever. intros sym. now destruct sym.
Qed.

(** X11: the shift register of the older front-end holds one byte only:
    a write to port 4 puts the byte in the low half, so after two writes
    the register is the second byte and the first is gone, and a port-3
    read with an offset [k] in 0..7 returns the top [k] bits of that byte
    (0 for offset 0). *)
Theorem legacy_register_keeps_one_byte (p : Legacy.ports) (v1 v2 k : byte) :
  in_u16 (Legacy.shiftReg p) = true ->
  byte.unsigned k <= 7 ->
  let p' := Legacy.spaceInvaders_portOut 4 v2
              (Legacy.spaceInvaders_portOut 4 v1 p) in
  Legacy.shiftReg p' = byte.unsigned v2
  /\ Legacy.spaceInvaders_portIn 3 (Legacy.spaceInvaders_portOut 2 k p')
     = Some (byte.of_Z (Z.shiftr (byte.unsigned v2) (8 - byte.unsigned k))).
Proof.
  intros Hreg Hk. cbv zeta. apply in_u16_bounds in Hreg.
  pose proof (byte_unsigned_lt k) as Hk0.
  pose proof (byte_unsigned_lt v1) as Hv1.
  pose proof (byte_unsigned_lt v2) as Hv2.
  unfold Legacy.spaceInvaders_portOut at 2.
  unfold Legacy.spaceInvaders_portOut at 2.
  cbn [Legacy.shiftReg].
  assert (Hfirst : 0 <= to_u16 (Z.lor (Z.shiftr (Legacy.shiftReg p) 8)
                                      (byte.unsigned v1)) < 256).
  { assert (Hhi : 0 <= Z.shiftr (Legacy.shiftReg p) 8 < 256).
    { rewrite Z.shiftr_div_pow2 by lia. change (2 ^ 8) with 256.
      split; [ apply Z.div_pos; lia | apply Z.div_lt_upper_bound; lia ]. }
    assert (Hlor : 0 <= Z.lor (Z.shiftr (Legacy.shiftReg p) 8)
                              (byte.unsigned v1) < 256).
    { split; [ apply Z.lor_nonneg; lia | ].
      destruct (Z.eq_dec (Z.lor (Z.shiftr (Legacy.shiftReg p) 8)
                                (byte.unsigned v1)) 0) as [-> | Hne]; [ lia | ].
      change 256 with (2 ^ 8). apply Z.log2_lt_pow2.
      - assert (0 <= Z.lor (Z.shiftr (Legacy.shiftReg p) 8) (byte.unsigned v1))
          by (apply Z.lor_nonneg; lia). lia.
      - rewrite Z.log2_lor by lia.
        apply Z.max_lub_lt.
        + destruct (Z.eq_dec (Z.shiftr (Legacy.shiftReg p) 8) 0) as [-> | Hz];
            [ reflexivity | apply Z.log2_lt_pow2; lia ].
        + destruct (Z.eq_dec (byte.unsigned v1) 0) as [-> | Hz];
            [ reflexivity | apply Z.log2_lt_pow2; lia ]. }
    unfold to_u16. rewrite Z.mod_small; change (2 ^ 16) with 65536; lia. }
  set (r1 := to_u16 (Z.lor (Z.shiftr (Legacy.shiftReg p) 8) (byte.unsigned v1)))
    in *.
  assert (Hr2 : to_u16 (Z.lor (Z.shiftr r1 8) (byte.unsigned v2))
                = byte.unsigned v2).
  { rewrite Z.shiftr_div_pow2 by lia. change (2 ^ 8) with 256.
    rewrite Z.div_small, Z.lor_0_l by lia.
    unfold to_u16. apply Z.mod_small. change (2 ^ 16) with 65536. lia. }
  unfold Legacy.spaceInvaders_portOut, Legacy.spaceInvaders_portIn.
  cbn [Legacy.shiftReg Legacy.shiftOff]. fold r1. rewrite Hr2.
  split; [ reflexivity | ].
  rewrite Z.shiftr_shiftl_r by lia. reflexivity.
Qed.

(** The bytes 0x12 then 0xAB and the offset 3 on the older front-end. *)
Lemma legacy_register_keeps_one_byte_witness :
  let p' := Legacy.spaceInvaders_portOut 4 Byte.xab
              (Legacy.spaceInvaders_portOut 4 Byte.x12 legacy_power_on) in
  Legacy.shiftReg p' = 0xAB
  /\ Legacy.spaceInvaders_portIn 3 (Legacy.spaceInvaders_portOut 2 Byte.x03 p')
     = Some (byte.of_Z (Z.shiftr 0xAB (8 - 3))).
Proof.
  apply (legacy_register_keeps_one_byte legacy_power_on Byte.x12 Byte.xab Byte.x03).
  - reflexivity.
  - vm_compute. discriminate.
Defined.

(** ** Score, game over and the alien grid *)

Lemma score_memory_reads (lsb msb : byte) :
  readByte 0x20F8 (score_memory lsb msb) = lsb
  /\ readByte 0x20F9 (score_memory lsb msb) = msb.
Proof.
  unfold score_memory. split.
  - rewrite readByte_writeByte_other by discriminate.
    rewrite readByte_writeByte_same.
    change (backed 0x20F8 blank_memory) with true. reflexivity.
  - rewrite readByte_writeByte_same, backed_writeByte.
    change (backed 0x20F9 blank_memory) with true. reflexivity.
Qed.

Lemma nibbles (x : Z) :
  0 <= x < 256 ->
  Z.shiftr x 4 = x / 16 /\ Z.land x 0x0F = x mod 16.
Proof.
  intros Hx. split.
  - rewrite Z.shiftr_div_pow2 by lia. reflexivity.
  - change 0x0F with (Z.ones 4). rewrite Z.land_ones by lia. reflexivity.
Qed.

Lemma score_digits (mem : AddressSpace) :
  let lsb := byte.unsigned (readByte 0x20F8 mem) in
  let msb := byte.unsigned (readByte 0x20F9 mem) in
  si_get_score mem
  = msb / 16 * 1000 + msb mod 16 * 100 + lsb / 16 * 10 + lsb mod 16.
Proof.
  cbv zeta. unfold si_get_score.
  pose proof (byte_unsigned_lt (readByte 0x20F8 mem)) as Hl.
  pose proof (byte_unsigned_lt (readByte 0x20F9 mem)) as Hm.
  destruct (nibbles _ Hl) as [-> ->]. destruct (nibbles _ Hm) as [-> ->].
  unfold to_u32. apply Z.mod_small. change (2 ^ 32) with 4294967296.
  Z.div_mod_to_equations. lia.
Qed.

Lemma bcd_digits (n : Z) :
  0 <= n <= 99 ->
  byte.unsigned (bcd n) / 16 = n / 10 /\ byte.unsigned (bcd n) mod 16 = n mod 10.
Proof.
  intros Hn. unfold bcd. rewrite byte.unsigned_of_Z. unfold byte.wrap.
  change (2 ^ 8) with 256.
  rewrite Z.mod_small by (Z.div_mod_to_equations; lia).
  Z.div_mod_to_equations. lia.
Qed.

(** X12: [si_get_score] reads the score as four decimal digits, two per
    byte: for every score [n] from 0 to 9999 stored that way (the low two
    digits at 0x20F8, the high two at 0x20F9) it returns [n].  A nibble
    above 9 is not rejected but counted with its value, so the result can
    exceed 9999, and is at most 16665. *)
Theorem score_bcd_round_trip (n : Z) (mem : AddressSpace) :
  0 <= n <= 9999 ->
  si_get_score (score_memory (bcd (n mod 100)) (bcd (n / 100))) = n
  /\ 0 <= si_get_score mem <= 16665
  /\ si_get_score (score_memory Byte.xff Byte.xff) = 16665.
Proof.
  intros Hn. split; [ | split ].
  - rewrite score_digits.
    destruct (score_memory_reads (bcd (n mod 100)) (bcd (n / 100))) as [-> ->].
    cbv zeta.
    destruct (bcd_digits (n mod 100)) as [-> ->];
      [ Z.div_mod_to_equations; lia | ].
    destruct (bcd_digits (n / 100)) as [-> ->];
      [ Z.div_mod_to_equations; lia | ].
    Z.div_mod_to_equations. lia.
  - rewrite score_digits. cbv zeta.
    pose proof (byte_unsigned_lt (readByte 0x20F8 mem)) as Hl.
    pose proof (byte_unsigned_lt (readByte 0x20F9 mem)) as Hm.
    Z.div_mod_to_equations. lia.
  - rewrite score_digits.
    destruct (score_memory_reads Byte.xff Byte.xff) as [-> ->]. reflexivity.
Qed.

(** The score 1234 is stored as 0x34, 0x12. *)
Lemma score_bcd_round_trip_witness :
  si_get_score (score_memory (bcd (1234 mod 100)) (bcd (1234 / 100))) = 1234
  /\ 0 <= si_get_score blank_memory <= 16665
  /\ si_get_score (score_memory Byte.xff Byte.xff) = 16665.
Proof. apply (score_bcd_round_trip 1234 blank_memory). lia. Defined.

(** X13: while the CPU is not halted, [si_is_game_over] holds exactly when
    the reserve count and the alive flag are both zero; then [si_get_lives]
    is 0 and [si_get_player_alive] is false.  The converse fails:
    [si_get_lives] is also 0 when its sum exceeds 6, with the game not
    over.  A halted CPU is game over whatever the RAM holds. *)
Theorem game_over_and_lives (c : CpuState) (mem : AddressSpace) :
  si_is_game_over c mem
  = negb (Byte.eqb (halt c) Byte.x00)
    || (Byte.eqb (readByte 0x20E7 mem) Byte.x00
        && Byte.eqb (readByte 0x21FF mem) Byte.x00)
  /\ (halt c = Byte.x00 -> si_is_game_over c mem = true ->
      si_get_lives mem = 0 /\ si_get_player_alive mem = false)
  /\ (si_get_lives (lives_memory Byte.x07 Byte.x00) = 0
      /\ si_is_game_over (reset8080 0x0001) (lives_memory Byte.x07 Byte.x00)
         = false).
Proof.
  assert (Hdef : si_is_game_over c mem
                 = negb (Byte.eqb (halt c) Byte.x00)
                   || (Byte.eqb (readByte 0x20E7 mem) Byte.x00
                       && Byte.eqb (readByte 0x21FF mem) Byte.x00)).
  { unfold si_is_game_over. now rewrite !byte_is_zero. }
  split; [ exact Hdef | ]. split.
  - intros Hhalt Hover. rewrite Hdef, Hhalt in Hover. cbn [Byte.eqb] in Hover.
    change (Byte.eqb Byte.x00 Byte.x00) with true in Hover.
    cbn [negb orb] in Hover.
    apply andb_prop in Hover. destruct Hover as [Ha Hr].
    apply Byte.byte_dec_bl in Ha, Hr.
    rewrite get_lives_reported, Ha, Hr.
    unfold si_get_player_alive. rewrite Ha. split; reflexivity.
  - split.
    + rewrite get_lives_reported.
      destruct (lives_memory_reads Byte.x07 Byte.x00) as [-> ->]. reflexivity.
    + unfold si_is_game_over.
      destruct (lives_memory_reads Byte.x07 Byte.x00) as [-> ->]. reflexivity.
Qed.

Lemma fold_upd_prefix {A : Type} (f : nat -> A) (n : nat) (l : list A) :
  (n <= length l)%nat ->
  fold_left (fun g i => List.upd g i (f i)) (seq 0 n) l
  = map f (seq 0 n) ++ skipn n l.
Proof.
  induction n as [| n IH]; intros Hn; [ reflexivity | ].
  rewrite seq_S, fold_left_app, map_app. cbn [fold_left map Nat.add].
  rewrite IH by lia.
  assert (Hlen : length (map f (seq 0 n)) = n)
    by now rewrite length_map, length_seq.
  rewrite List.upd_firstn_skipn by (rewrite length_app, length_skipn; lia).
  rewrite List.firstn_app_l by (symmetry; exact Hlen).
  replace (S n) with (n + 1)%nat at 1 by lia.
  rewrite List.skipn_app_r2 by (symmetry; exact Hlen).
  rewrite skipn_skipn, <- app_assoc.
  do 3 f_equal; try lia.
Qed.

(** X14: [si_get_alien_grid] stores exactly 55 bytes, the RAM bytes from
    0x2100 to 0x2136 in address order, at the front of the caller's buffer
    and leaves the rest of the buffer as it was. *)
Theorem alien_grid_filled (grid : list byte) (mem : AddressSpace) :
  (55 <= length grid)%nat ->
  si_get_alien_grid grid mem
  = map (fun i => readByte (0x2100 + Z.of_nat i) mem) (seq 0 55)
    ++ skipn 55 grid
  /\ length (si_get_alien_grid grid mem) = length grid.
Proof.
  intros Hlen. unfold si_get_alien_grid.
  rewrite (fold_upd_prefix (fun i => readByte (0x2100 + Z.of_nat i) mem))
    by exact Hlen.
  split; [ reflexivity | ].
  rewrite length_app, length_map, length_seq, length_skipn. lia.
Qed.

(** A buffer of 60 bytes over the running game. *)
Lemma alien_grid_filled_witness :
  si_get_alien_grid (repeat Byte.xff 60) (memory running_world)
  = map (fun i => readByte (0x2100 + Z.of_nat i) (memory running_world))
        (seq 0 55)
    ++ skipn 55 (repeat Byte.xff 60)
  /\ length (si_get_alien_grid (repeat Byte.xff 60) (memory running_world))
     = length (repeat Byte.xff 60).
Proof.
  apply (alien_grid_filled (repeat Byte.xff 60) (memory running_world)).
  rewrite repeat_length. lia.
Defined.

(** ** What a reset shows *)

(** X15: right after [si_reset], with the observed RAM bytes in a
    writable bank, the machine reports a finished game: [si_is_game_over]
    is true, there are 0 lives, no live player, score 0 and 0 aliens, before
    the program has run a single instruction.  The level is 1, the frame
    and cycle counts are 0 and port 1 reads the idle latch 0x08. *)
Theorem reset_reports_game_over (w : World) :
  forallb (fun a => writable a (memory w)) observed_ram = true ->
  let w' := si_reset w in
  si_is_game_over (e8080 w') (memory w') = true
  /\ si_get_lives (memory w') = 0
  /\ si_get_player_alive (memory w') = false
  /\ si_get_score (memory w') = 0
  /\ si_get_alien_count (memory w') = Byte.x00
  /\ si_get_level (si_state w') = 1
  /\ si_get_frame_count (si_state w') = 0
  /\ si_get_cycle_count (si_state w') = 0
  /\ si_port_in 1 (si_state w') = Byte.x08.
Proof.
  intros Hw. cbn [forallb observed_ram] in Hw.
  repeat (apply andb_prop in Hw; destruct Hw as [? Hw]).
  cbv zeta.
  assert (Hz : forall a, in_ram a = true -> writable a (memory w) = true ->
                         readByte a (memory (si_reset w)) = Byte.x00).
  { intros a Hin Hwr.
    change (memory (si_reset w)) with (clear_ram (memory w)).
    now rewrite readByte_clear_ram, Hin, Hwr. }
  pose proof (Hz 0x20E7 eq_refl ltac:(assumption)) as Hread1.
  pose proof (Hz 0x21FF eq_refl ltac:(assumption)) as Hread2.
  pose proof (Hz 0x20F8 eq_refl ltac:(assumption)) as Hread3.
  pose proof (Hz 0x20F9 eq_refl ltac:(assumption)) as Hread4.
  pose proof (Hz 0x2082 eq_refl ltac:(assumption)) as Hread5.
  unfold si_is_game_over, si_get_player_alive, si_get_alien_count.
  rewrite get_lives_reported, score_digits. cbv zeta.
  rewrite Hread1, Hread2, Hread3, Hread4, Hread5.
  repeat split.
Qed.

(** A reset of the running game. *)
Lemma reset_reports_game_over_witness :
  let w' := si_reset running_world in
  si_is_game_over (e8080 w') (memory w') = true
  /\ si_get_lives (memory w') = 0
  /\ si_get_player_alive (memory w') = false
  /\ si_get_score (memory w') = 0
  /\ si_get_alien_count (memory w') = Byte.x00
  /\ si_get_level (si_state w') = 1
  /\ si_get_frame_count (si_state w') = 0
  /\ si_get_cycle_count (si_state w') = 0
  /\ si_port_in 1 (si_state w') = Byte.x08.
Proof.
  apply (reset_reports_game_over running_world).
  vm_compute. reflexivity.
Defined.

(** ** Stepping *)

Lemma in_u16_to_u16 (z : Z) : in_u16 (to_u16 z) = true.
Proof.
  unfold in_u16, to_u16. pose proof (Z.mod_pos_bound z (2 ^ 16) eq_refl).
  apply andb_true_intro. split; [ apply Z.leb_le | apply Z.ltb_lt ]; lia.
Qed.

Lemma in_u32_to_u32 (z : Z) : in_u32 (to_u32 z) = true.
Proof.
  unfold in_u32, to_u32. pose proof (Z.mod_pos_bound z (2 ^ 32) eq_refl).
  apply andb_true_intro. split; [ apply Z.leb_le | apply Z.ltb_lt ]; lia.
Qed.

Lemma in_u64_to_u64 (z : Z) : in_u64 (to_u64 z) = true.
Proof.
  unfold in_u64, to_u64. pose proof (Z.mod_pos_bound z (2 ^ 64) eq_refl).
  apply andb_true_intro. split; [ apply Z.leb_le | apply Z.ltb_lt ]; lia.
Qed.

Lemma in_int_offset (v : byte) : in_int (Z.land (byte.unsigned v) 7) = true.
Proof.
  change 7 with (Z.ones 3). rewrite Z.land_ones by lia.
  pose proof (Z.mod_pos_bound (byte.unsigned v) (2 ^ 3) eq_refl) as H.
  change (2 ^ 3) with 8 in *. unfold in_int.
  apply andb_true_intro.
  split; [ apply Z.leb_le | apply Z.ltb_lt ]; change (2 ^ 31) with 2147483648; lia.
Qed.

Lemma si_state_ok_iff (s : si_state_t) :
  si_state_ok s = true
  <-> length (screen_buf s) = screen_bytes
      /\ in_u16 (shift_reg s) = true
      /\ in_int (shift_offset s) = true
      /\ in_u32 (frame_count s) = true
      /\ in_u64 (cycle_count s) = true
      /\ in_u32 (speed_multiplier (config s)) = true.
Proof.
  unfold si_state_ok. rewrite !andb_true_iff, Nat.eqb_eq. tauto.
Qed.

Lemma si_port_out_ok (port : Z) (v : byte) (s : si_state_t) :
  si_state_ok s = true -> si_state_ok (si_port_out port v s) = true.
Proof.
  intros Hok. rewrite si_port_out_cases.
  apply si_state_ok_iff in Hok. destruct Hok as [H1 [H2 [H3 [H4 [H5 H6]]]]].
  destruct (port =? 2); [ | destruct (port =? 4) ];
    apply si_state_ok_iff;
    cbn [set_shift_offset set_shift_reg screen_buf shift_reg shift_offset
         frame_count cycle_count config];
    repeat split; try assumption;
    [ apply in_int_offset | apply in_u16_to_u16 ].
Qed.

Lemma run_ports_ok {R : Type} (t : port_io R) (s : si_state_t) :
  si_state_ok s = true -> si_state_ok (snd (run_ports t s)) = true.
Proof.
  revert s. induction t as [r | port k IH | port v k IH]; intros s Hok;
    cbn [run_ports].
  - exact Hok.
  - now apply IH.
  - apply IH. now apply si_port_out_ok.
Qed.

Lemma set_counters_ok (f c : Z) (s : si_state_t) :
  si_state_ok s = true -> si_state_ok (set_counters (to_u32 f) (to_u64 c) s) = true.
Proof.
  intros Hok. apply si_state_ok_iff in Hok.
  destruct Hok as [H1 [H2 [H3 [H4 [H5 H6]]]]].
  apply si_state_ok_iff.
  cbn [set_counters screen_buf shift_reg shift_offset frame_count cycle_count
       config].
  repeat split; try assumption; [ apply in_u32_to_u32 | apply in_u64_to_u64 ].
Qed.

Section SteppingProperties.
Context {cpu : Cpu8080}.

Lemma call_emulate8080_ok (cycles : Z) (w : World) :
  si_state_ok (si_state w) = true ->
  si_state_ok (si_state (snd (call_emulate8080 cycles w))) = true.
Proof.
  intros Hok. unfold call_emulate8080.
  pose proof (run_ports_ok (emulate8080 cycles (e8080 w) (memory w))
                (si_state w) Hok) as H.
  destruct (run_ports _ _) as [[n [c m]] s]. exact H.
Qed.

Lemma frame_bursts_ok (w : World) :
  si_state_ok (si_state w) = true ->
  si_state_ok (si_state (snd (frame_bursts w))) = true.
Proof.
  intros Hok. unfold frame_bursts. cbn [snd].
  rewrite call_causeInt_si_state. apply call_emulate8080_ok.
  rewrite call_causeInt_si_state. now apply call_emulate8080_ok.
Qed.

Lemma step_cycles_unfold (cycles : Z) (w : World) :
  si_step_cycles cycles w
  = (fst (call_emulate8080 cycles w),
     with_si (snd (call_emulate8080 cycles w))
       (set_counters
          (frame_count (si_state (snd (call_emulate8080 cycles w))))
          (to_u64 (cycle_count (si_state (snd (call_emulate8080 cycles w)))
                   + fst (call_emulate8080 cycles w)))
          (si_state (snd (call_emulate8080 cycles w))))).
Proof.
  unfold si_step_cycles.
  destruct (call_emulate8080 cycles w) as [executed w1]. reflexivity.
Qed.

(** X16: [si_step_cycles(n)] is one call of the engine and nothing else:
    the engine's [emulate8080(n)] runs on the CPU and the memory as they
    were, with its port reads answered by [si_port_in] and its port writes
    applied by [si_port_out], and no interrupt is delivered, so the CPU and
    the memory are as that call left them; the value returned is what the
    engine reports; the cycle counter grows by it and the frame counter
    does not move.  An engine call that touches no port leaves every other
    field of the machine state alone. *)
Theorem step_cycles_effect (cycles : Z) (w : World) :
  let burst :=
    run_ports (emulate8080 cycles (e8080 w) (memory w)) (si_state w) in
  let w' := snd (si_step_cycles cycles w) in
  fst (si_step_cycles cycles w) = fst (fst burst)
  /\ e8080 w' = fst (snd (fst burst))
  /\ memory w' = snd (snd (fst burst))
  /\ frame_count (si_state w') = frame_count (si_state w)
  /\ cycle_count (si_state w')
     = to_u64 (cycle_count (si_state w) + fst (fst burst))
  /\ (input_state (si_state w'), config (si_state w'), screen_buf (si_state w'),
      initialized (si_state w'))
     = (input_state (si_state w), config (si_state w), screen_buf (si_state w),
        initialized (si_state w))
  /\ (shift_reg (si_state w'), shift_offset (si_state w'))
     = (shift_reg (snd burst), shift_offset (snd burst))
  /\ (forall (n : Z) (c : CpuState) (m : AddressSpace),
        emulate8080 cycles (e8080 w) (memory w) = Done (n, (c, m)) ->
        si_step_cycles cycles w
        = (n, {| e8080 := c; memory := m;
                 si_state := set_counters (frame_count (si_state w))
                               (to_u64 (cycle_count (si_state w) + n))
                               (si_state w) |}))
  /\ (forall (R : Type) (port : Z) (k : byte -> port_io R) (s : si_state_t),
        run_ports (PortIn port k) s = run_ports (k (si_port_in port s)) s)
  /\ (forall (R : Type) (port : Z) (v : byte) (k : port_io R) (s : si_state_t),
        run_ports (PortOut port v k) s = run_ports k (si_port_out port v s)).
Proof.
  cbv zeta. rewrite step_cycles_unfold.
  pose proof (call_emulate8080_frame cycles w) as Hframe.
  unfold call_emulate8080 in *.
  destruct (run_ports (emulate8080 cycles (e8080 w) (memory w)) (si_state w))
    as [[n [c m]] s] eqn:Hrun.
  cbn [fst snd with_si e8080 memory si_state set_counters frame_count
       cycle_count input_state config screen_buf initialized shift_reg
       shift_offset] in *.
  destruct (same_outside_shift_counters _ _ Hframe) as [Hf Hc].
  rewrite Hf, Hc.
  unfold same_outside_shift in Hframe.
  split; [ reflexivity | ]. split; [ reflexivity | ].
  split; [ reflexivity | ]. split; [ reflexivity | ].
  split; [ reflexivity | ].
  split; [ rewrite Hframe; reflexivity | ].
  split; [ reflexivity | ].
  split; [ | split; reflexivity ].
  intros n0 c0 m0 Hdone. rewrite Hdone in Hrun. cbn [run_ports] in Hrun.
  injection Hrun as <- <- <- <-. reflexivity.
Qed.

(** X17: the operations keep the machine state well typed: when every
    field of [si_state] is within the range of its C type and the frame
    buffer has its [width * height * 4] bytes, the same holds after a port
    write, after each setter, after a reset, after a frame or a cycle step
    on any engine, after a frame-buffer update and after [si_destroy]. *)
Theorem operations_keep_state_well_typed (w : World) (port cycles : Z)
    (v b d0 d1 d2 : byte) (m : float32) (u : bool) :
  si_state_ok (si_state w) = true ->
  in_u32 m = true ->
  let s := si_state w in
  si_state_ok (si_port_out port v s) = true
  /\ si_state_ok (si_set_input b s) = true
  /\ si_state_ok (si_set_speed m s) = true
  /\ si_state_ok (si_set_uncapped u s) = true
  /\ si_state_ok (si_set_dip_switches d0 d1 d2 s) = true
  /\ si_state_ok (si_state (si_reset w)) = true
  /\ si_state_ok (si_state (snd (si_step_frame w))) = true
  /\ si_state_ok (si_state (snd (si_step_cycles cycles w))) = true
  /\ si_state_ok (si_state (si_update_framebuffer w)) = true
  /\ si_state_ok (si_destroy s) = true.
Proof.
  intros Hok Hm. cbv zeta.
  pose proof Hok as Hparts. apply si_state_ok_iff in Hparts.
  destruct Hparts as [H1 [H2 [H3 [H4 [H5 H6]]]]].
  split; [ now apply si_port_out_ok | ].
  split; [ apply si_state_ok_iff; repeat split; assumption | ].
  split.
  { unfold si_set_speed. destruct (f32_eqb m f32_zero);
      apply si_state_ok_iff; repeat split; assumption. }
  split; [ apply si_state_ok_iff; repeat split; assumption | ].
  split; [ apply si_state_ok_iff; repeat split; assumption | ].
  split; [ apply si_state_ok_iff; repeat split; assumption | ].
  split.
  { rewrite step_frame_unfold. cbn [snd with_si si_state].
    apply set_counters_ok. now apply frame_bursts_ok. }
  split.
  { rewrite step_cycles_unfold. cbn [snd with_si si_state].
    pose proof (call_emulate8080_ok cycles w Hok) as Hb.
    apply si_state_ok_iff in Hb. destruct Hb as [B1 [B2 [B3 [B4 [B5 B6]]]]].
    apply si_state_ok_iff.
    cbn [set_counters screen_buf shift_reg shift_offset frame_count
         cycle_count config].
    repeat split; try assumption. apply in_u64_to_u64. }
  split.
  { apply si_state_ok_iff. unfold si_update_framebuffer.
    cbn [with_si si_state set_screen_buf screen_buf shift_reg shift_offset
         frame_count cycle_count config].
    split; [ | repeat split; assumption ].
    rewrite length_app, length_skipn, length_written_pixels, H1. lia. }
  apply si_state_ok_iff. unfold si_destroy, zeroed_state.
  cbn [screen_buf shift_reg shift_offset frame_count cycle_count config
       speed_multiplier].
  split; [ apply repeat_length | repeat split ].
Qed.

Lemma step_frames_counters (n : nat) (w : World) :
  frame_count (si_state (snd (step_frames n w)))
  = to_u32 (to_u32 (frame_count (si_state w)) + Z.of_nat n)
  /\ cycle_count (si_state (snd (step_frames n w)))
     = to_u64 (to_u64 (cycle_count (si_state w)) + fst (step_frames n w))
  \/ n = O.
Proof.
  destruct n as [| n]; [ now right | left ].
  revert w. induction n as [| n IH]; intros w.
  - cbn [step_frames]. rewrite step_frame_unfold.
    destruct (frame_bursts_counters w) as [Hf Hc]. rewrite Hf, Hc.
    cbn [fst snd with_si si_state set_counters frame_count cycle_count].
    unfold to_u32, to_u64.
    rewrite Z.add_0_r, !Zplus_mod_idemp_l. split; reflexivity.
  - remember (S n) as k. cbn [step_frames].
    destruct (si_step_frame w) as [cycles w1] eqn:Hstep.
    specialize (IH w1).
    destruct (step_frames k w1) as [more w2]. cbn [fst snd] in *.
    destruct IH as [IHf IHc]. rewrite IHf, IHc.
    pose proof (f_equal snd Hstep) as Hw1. cbn [snd] in Hw1.
    pose proof (f_equal fst Hstep) as Hcy. cbn [fst] in Hcy.
    rewrite step_frame_unfold in Hw1, Hcy. cbn [fst snd] in Hw1, Hcy.
    destruct (frame_bursts_counters w) as [Hf Hc]. rewrite Hf, Hc in Hw1.
    subst w1. cbn [with_si si_state set_counters frame_count cycle_count].
    rewrite Hcy. unfold to_u32, to_u64.
    rewrite !Zmod_mod, !Zplus_mod_idemp_l.
    split; f_equal; lia.
Qed.

(** X18: frames add up: after a reset, [n] calls of [si_step_frame] (for
    [n] below 2^32) leave the frame count at [n], the cycle count at the
    sum of the cycles the calls returned (as a [uint64_t]), and the level
    reported by [si_get_level] at [n / 3600 + 1], on any engine. *)
Theorem frames_after_reset (n : nat) (w : World) :
  Z.of_nat n < 2 ^ 32 ->
  let r := step_frames n (si_reset w) in
  si_get_frame_count (si_state (snd r)) = Z.of_nat n
  /\ si_get_cycle_count (si_state (snd r)) = to_u64 (fst r)
  /\ si_get_level (si_state (snd r)) = Z.of_nat n / 3600 + 1.
Proof.
  intros Hn. cbv zeta. unfold si_get_frame_count, si_get_cycle_count, si_get_level.
  assert (Hsmall : to_u32 (Z.of_nat n) = Z.of_nat n)
    by (unfold to_u32; apply Z.mod_small; lia).
  assert (Hlevel : to_u32 (Z.of_nat n / 3600 + 1) = Z.of_nat n / 3600 + 1).
  { unfold to_u32. apply Z.mod_small. change (2 ^ 32) with 4294967296 in *.
    Z.div_mod_to_equations. lia. }
  destruct (step_frames_counters n (si_reset w)) as [[Hf Hc] | ->].
  - change (frame_count (si_state (si_reset w))) with 0 in Hf.
    change (cycle_count (si_state (si_reset w))) with 0 in Hc.
    change (to_u32 0) with 0 in Hf. change (to_u64 0) with 0 in Hc.
    rewrite Z.add_0_l in Hf, Hc.
    rewrite Hf, Hc, Hsmall. repeat split. exact Hlevel.
  - cbn [step_frames fst snd]. repeat split.
Qed.

End SteppingProperties.

(** An hour of play at 60 frames a second would be 216000 frames; here 3600
    frames on the small engine, from a reset of the running game. *)
Lemma frames_after_reset_witness :
  let r := @step_frames demo_cpu 3600 (si_reset running_world) in
  si_get_frame_count (si_state (snd r)) = Z.of_nat 3600
  /\ si_get_cycle_count (si_state (snd r)) = to_u64 (fst r)
  /\ si_get_level (si_state (snd r)) = Z.of_nat 3600 / 3600 + 1.
Proof.
  apply (@frames_after_reset demo_cpu 3600 running_world).
  vm_compute. reflexivity.
Defined.

Lemma operations_keep_state_well_typed_witness :
  let s := si_state running_world in
  si_state_ok (si_port_out 4 Byte.xaa s) = true
  /\ si_state_ok (si_set_input Byte.x10 s) = true
  /\ si_state_ok (si_set_speed 0x40000000 s) = true
  /\ si_state_ok (si_set_uncapped true s) = true
  /\ si_state_ok (si_set_dip_switches Byte.x03 Byte.x08 Byte.x00 s) = true
  /\ si_state_ok (si_state (si_reset running_world)) = true
  /\ si_state_ok (si_state (snd (@si_step_frame demo_cpu running_world))) = true
  /\ si_state_ok (si_state (snd (@si_step_cycles demo_cpu 100 running_world))) = true
  /\ si_state_ok (si_state (si_update_framebuffer running_world)) = true
  /\ si_state_ok (si_destroy s) = true.
Proof.
  apply (@operations_keep_state_well_typed demo_cpu running_world 4 100
           Byte.xaa Byte.x10 Byte.x03 Byte.x08 Byte.x00 0x40000000 true).
  - vm_compute. reflexivity.
  - reflexivity.
Defined.

(** ** Save files *)

Lemma bytes_eqb_eq (a b : list byte) : bytes_eqb a b = true <-> a = b.
Proof.
  split.
  - revert b. induction a as [| x a IH]; intros [| y b] H; cbn [bytes_eqb] in H;
      try discriminate; [ reflexivity | ].
    apply andb_prop in H. destruct H as [Hx Hrest].
    apply Byte.byte_dec_bl in Hx. subst y. f_equal. now apply IH.
  - intros <-. apply bytes_eqb_refl.
Qed.

Lemma load_ram_got (addrs : list Z) (stream : list byte) (mem : AddressSpace) :
  fst (load_ram addrs stream mem) = (length addrs <=? length stream)%nat.
Proof.
  revert stream mem.
  induction addrs as [| a addrs IH]; intros stream mem; cbn [load_ram length];
    [ reflexivity | ].
  destruct stream as [| b stream]; cbn [length]; [ reflexivity | ].
  rewrite IH. reflexivity.
Qed.

Lemma load_ram_written_more (saved : AddressSpace) (addrs : list Z)
    (junk : list byte) (live : AddressSpace) :
  load_ram addrs (map (fun a => readByte a saved) addrs ++ junk) live
  = (true, fold_left (fun m a => writeByte (readByte a saved) a m) addrs live).
Proof.
  revert live.
  induction addrs as [| a addrs IH]; intros live; cbn [load_ram map fold_left app];
    [ reflexivity | ].
  apply IH.
Qed.

Lemma version_bytes (v : list byte) :
  length v = 4%nat -> le_combine v = version -> v = le_split 4 version.
Proof.
  intros Hlen Hv. rewrite <- Hv, <- Hlen. symmetry. apply split_le_combine.
Qed.

Lemma length_ram_addresses : length ram_addresses = Z.to_nat SI_RAM_SIZE.
Proof. unfold ram_addresses. apply length_addr_range. Qed.

Lemma backed_zero_fill (addrs : list Z) (a : Z) (mem : AddressSpace) :
  backed a (zero_fill addrs mem) = backed a mem.
Proof.
  unfold zero_fill. revert mem.
  induction addrs as [| a0 addrs IH]; intros mem; cbn [fold_left];
    [ reflexivity | ].
  now rewrite IH, backed_writeByte.
Qed.

Lemma unbacked_reads_zero (a : Z) (mem : AddressSpace) :
  writable a mem = true -> backed a mem = false -> readByte a mem = Byte.x00.
Proof.
  induction mem as [| b rest IH]; cbn [writable backed readByte];
    [ discriminate | ].
  destruct (covers b a); [ | exact IH ].
  intros Hw Hb. rewrite Hw in Hb. cbn [andb] in Hb.
  apply Nat.ltb_ge in Hb. now apply nth_overflow.
Qed.

Section SaveFiles.
Context {cpu_layout : Layout CpuState cpu_ok}.
Context {si_layout : Layout si_state_t si_state_ok}.

Lemma fread_object_got {T : Type} {ok : T -> bool} {L : Layout T ok}
    (x : T) (stream : list byte) :
  fst (fst (fread_object x stream)) = (sizeof <=? length stream)%nat
  /\ snd (fread_object x stream) = skipn sizeof stream.
Proof.
  unfold fread_object. rewrite length_firstn.
  destruct (Nat.leb_spec sizeof (length stream)) as [Hle | Hgt].
  - rewrite Nat.min_l, Nat.eqb_refl by exact Hle. split; reflexivity.
  - rewrite Nat.min_r by lia.
    replace (length stream =? sizeof)%nat with false
      by (symmetry; apply Nat.eqb_neq; lia).
    split; reflexivity.
Qed.

Lemma load_status (filename : string) (fs : FileSystem) (w : World) :
  fst (fst (si_load_state filename fs w))
  = match fs_file fs filename with
    | None => -1
    | Some stream => if loadable stream then 0 else -1
    end.
Proof.
  unfold si_load_state, loadable, save_file_size.
  destruct (fs_file fs filename) as [stream |]; [ | reflexivity ].
  destruct (bytes_eqb (firstn 4 stream) magic) eqn:Hmagic.
  2: { rewrite orb_true_r. reflexivity. }
  apply bytes_eqb_eq in Hmagic.
  assert (Hlen4 : length (firstn 4 stream) = 4%nat) by now rewrite Hmagic.
  rewrite Hlen4. cbn [Nat.eqb negb orb andb].
  assert (H4 : (4 <= length stream)%nat)
    by (rewrite length_firstn in Hlen4; lia).
  destruct (bytes_eqb (firstn 4 (skipn 4 stream)) (le_split 4 version))
    eqn:Hversion.
  2: { cbn [andb].
       destruct (Nat.eqb_spec (length (firstn 4 (skipn 4 stream))) 4)
         as [Hl | Hl]; [ | reflexivity ].
       cbn [negb orb].
       destruct (Z.eqb_spec (le_combine (firstn 4 (skipn 4 stream))) version)
         as [Hv | Hv]; [ | reflexivity ].
       rewrite (version_bytes _ Hl Hv), bytes_eqb_refl in Hversion.
       discriminate. }
  apply bytes_eqb_eq in Hversion. rewrite Hversion.
  change (length (le_split 4 version) =? 4)%nat with true.
  change (le_combine (le_split 4 version) =? version) with true.
  cbn [negb orb andb].
  assert (H8 : (8 <= length stream)%nat).
  { apply (f_equal (@length byte)) in Hversion.
    rewrite length_firstn, length_skipn in Hversion.
    change (length (le_split 4 version)) with 4%nat in Hversion. lia. }
  destruct (fread_object_got (e8080 w) (skipn 4 (skipn 4 stream)))
    as [Hgot1 Hrest1].
  destruct (fread_object (e8080 w) (skipn 4 (skipn 4 stream)))
    as [[got1 c] stream1].
  cbn [fst snd] in Hgot1, Hrest1. subst got1 stream1.
  rewrite !length_skipn.
  destruct (Nat.leb_spec (@sizeof _ _ cpu_layout) (length stream - 4 - 4))
    as [Hc | Hc]; cbn [negb].
  2: { replace (_ <=? length stream)%nat with false
         by (symmetry; apply Nat.leb_gt; lia). reflexivity. }
  cbn [with_cpu si_state].
  destruct (fread_object_got (si_state w)
              (skipn (@sizeof _ _ cpu_layout) (skipn 4 (skipn 4 stream))))
    as [Hgot2 Hrest2].
  destruct (fread_object (si_state w)
              (skipn (@sizeof _ _ cpu_layout) (skipn 4 (skipn 4 stream))))
    as [[got2 s] stream2].
  cbn [fst snd] in Hgot2, Hrest2. subst got2 stream2.
  rewrite !length_skipn.
  destruct (Nat.leb_spec (@sizeof _ _ si_layout)
              (length stream - 4 - 4 - @sizeof _ _ cpu_layout))
    as [Hs | Hs]; cbn [negb].
  2: { replace (_ <=? length stream)%nat with false
         by (symmetry; apply Nat.leb_gt; lia). reflexivity. }
  cbn [with_si with_cpu memory].
  pose proof (load_ram_got ram_addresses
                (skipn (@sizeof _ _ si_layout)
                   (skipn (@sizeof _ _ cpu_layout) (skipn 4 (skipn 4 stream))))
                (memory w)) as Hgot3.
  destruct (load_ram ram_addresses _ (memory w)) as [got3 m].
  cbn [fst] in Hgot3. subst got3.
  rewrite !length_skipn, length_ram_addresses.
  destruct (Nat.leb_spec (Z.to_nat SI_RAM_SIZE)
              (length stream - 4 - 4 - @sizeof _ _ cpu_layout
               - @sizeof _ _ si_layout)) as [Hr | Hr]; cbn [negb].
  - replace (_ <=? length stream)%nat with true
      by (symmetry; apply Nat.leb_le; lia). reflexivity.
  - replace (_ <=? length stream)%nat with false
      by (symmetry; apply Nat.leb_gt; lia). reflexivity.
Qed.

(** X19: [si_load_state] returns 0 exactly when the file exists, starts
    with the four bytes "SI80" and the four bytes 01 00 00 00, and is at
    least as long as a save file (8 bytes of header, the two structures,
    8192 bytes of RAM); nothing else in the file is checked, and bytes
    after the RAM contents are ignored. *)
Theorem load_succeeds_iff (filename : string) (fs : FileSystem) (w : World) :
  fst (fst (si_load_state filename fs w)) = 0
  <-> exists rest : list byte,
        fs_file fs filename = Some (magic ++ le_split 4 version ++ rest)
        /\ (save_file_size <= 8 + length rest)%nat.
Proof.
  rewrite load_status. split.
  - destruct (fs_file fs filename) as [stream |]; [ | discriminate ].
    destruct (loadable stream) eqn:Hload; [ intros _ | discriminate ].
    unfold loadable in Hload.
    apply andb_prop in Hload. destruct Hload as [Hload Hsize].
    apply andb_prop in Hload. destruct Hload as [Hmagic Hversion].
    apply bytes_eqb_eq in Hmagic, Hversion. apply Nat.leb_le in Hsize.
    exists (skipn 4 (skipn 4 stream)). split.
    + rewrite <- Hmagic, <- Hversion, !firstn_skipn. reflexivity.
    + rewrite !length_skipn.
      assert (8 <= length stream)%nat by (unfold save_file_size in Hsize; lia).
      lia.
  - intros [rest [-> Hsize]]. unfold loadable.
    change (firstn 4 (magic ++ ?r)) with magic.
    change (skipn 4 (magic ++ ?r)) with r.
    change (firstn 4 (le_split 4 version ++ ?r)) with (le_split 4 version).
    rewrite !bytes_eqb_refl. cbn [andb].
    replace (_ <=? _)%nat with true; [ reflexivity | ].
    symmetry. apply Nat.leb_le.
    rewrite !length_app.
    change (length magic) with 4%nat.
    change (length (le_split 4 version)) with 4%nat. lia.
Qed.

Lemma length_save_blob (w : World) :
  world_ok w = true -> length (save_blob w) = save_file_size.
Proof.
  intros Hok. apply world_ok_parts in Hok. destruct Hok as [Hc Hs].
  unfold save_blob, save_file_size.
  rewrite !length_app, length_map, length_ram_addresses.
  rewrite (to_bytes_length _ Hc), (to_bytes_length _ Hs).
  change (length magic) with 4%nat.
  change (length (le_split 4 version)) with 4%nat. lia.
Qed.

Lemma load_saved_blob_more (filename : string) (fs : FileSystem)
    (saved live : World) (junk : list byte) :
  world_ok saved = true ->
  fs_file fs filename = Some (save_blob saved ++ junk) ->
  si_load_state filename fs live
  = (0, None,
     {| e8080 := e8080 saved;
        memory := restore_ram (memory saved) (memory live);
        si_state := si_state saved |}).
Proof.
  intros Hok Hfile. apply world_ok_parts in Hok. destruct Hok as [Hc Hs].
  unfold si_load_state. rewrite Hfile. unfold save_blob.
  rewrite <- !app_assoc.
  change (firstn 4 (magic ++ ?r)) with magic.
  change (skipn 4 (magic ++ ?r)) with r.
  change (length magic =? 4)%nat with true.
  rewrite bytes_eqb_refl. cbn [negb orb].
  change (firstn 4 (le_split 4 version ++ ?r)) with (le_split 4 version).
  change (skipn 4 (le_split 4 version ++ ?r)) with r.
  change (length (le_split 4 version) =? 4)%nat with true.
  change (le_combine (le_split 4 version) =? version) with true.
  cbn [negb orb].
  rewrite (fread_object_written (e8080 saved) (e8080 live) _ Hc).
  cbn [negb with_cpu si_state].
  rewrite (fread_object_written (si_state saved) (si_state live) _ Hs).
  cbn [negb with_si memory].
  unfold restore_ram. rewrite load_ram_written_more. reflexivity.
Qed.

(** X20: a save file is exactly 8 bytes of header, the two structures and
    8192 bytes of RAM; with any bytes appended it still loads, to the same
    state; cut short anywhere it is rejected with -1. *)
Theorem save_file_prefix_and_suffix (filename : string) (fs : FileSystem)
    (saved live : World) (junk : list byte) (n : nat) :
  world_ok saved = true ->
  (n < save_file_size)%nat ->
  length (save_blob saved) = save_file_size
  /\ si_load_state filename (fs_write filename (save_blob saved ++ junk) fs) live
     = (0, None,
        {| e8080 := e8080 saved;
           memory := restore_ram (memory saved) (memory live);
           si_state := si_state saved |})
  /\ fst (fst (si_load_state filename
                 (fs_write filename (firstn n (save_blob saved)) fs) live))
     = -1.
Proof.
  intros Hok Hn.
  split; [ now apply length_save_blob | ]. split.
  - apply (load_saved_blob_more filename _ saved live junk Hok).
    cbn [fs_write fs_file]. now rewrite String.eqb_refl.
  - rewrite load_status. cbn [fs_write fs_file]. rewrite String.eqb_refl.
    unfold loadable.
    replace (save_file_size <=? length (firstn n (save_blob saved)))%nat
      with false; [ now rewrite andb_false_r | ].
    symmetry. apply Nat.leb_gt. rewrite length_firstn. lia.
Qed.

(** X21: a game saved, then reset, then loaded from the file is back where
    it was saved: the same CPU state, the same machine state, and every
    address reads the byte it read when the game was saved. *)
Theorem save_reset_load (filename : string) (fs : FileSystem) (w : World) :
  world_ok w = true ->
  fs_can_create fs filename = true ->
  let fs' := snd (si_save_state filename w fs) in
  let result := si_load_state filename fs' (si_reset w) in
  fst result = (0, None)
  /\ e8080 (snd result) = e8080 w
  /\ si_state (snd result) = si_state w
  /\ forall a : Z, readByte a (memory (snd result)) = readByte a (memory w).
Proof.
  intros Hok Hcreate. cbv zeta. unfold si_save_state. rewrite Hcreate.
  cbn [snd].
  rewrite (load_saved_blob filename _ w (si_reset w) Hok)
    by (cbn [fs_write fs_file]; now rewrite String.eqb_refl).
  cbn [fst snd e8080 si_state memory].
  split; [ reflexivity | ]. split; [ reflexivity | ].
  split; [ reflexivity | ]. intros a.
  change (memory (si_reset w)) with (clear_ram (memory w)).
  rewrite readByte_restore_ram. unfold clear_ram at 1.
  rewrite backed_zero_fill.
  destruct (in_ram a && backed a (memory w)) eqn:Hb; [ reflexivity | ].
  rewrite readByte_clear_ram.
  destruct (in_ram a && writable a (memory w)) eqn:Hw; [ | reflexivity ].
  apply andb_prop in Hw. destruct Hw as [Hin Hw].
  rewrite Hin in Hb. cbn [andb] in Hb.
  symmetry. now apply unbacked_reads_zero.
Qed.

End SaveFiles.

(** A proper prefix: the first 1000 bytes of the running game's file. *)
Lemma save_file_prefix_and_suffix_witness :
  length (save_blob running_world) = save_file_size
  /\ si_load_state "game.sav"
       (fs_write "game.sav" (save_blob running_world ++ [Byte.x2a]) empty_disk)
       power_on_world
     = (0, None,
        {| e8080 := e8080 running_world;
           memory := restore_ram (memory running_world) (memory power_on_world);
           si_state := si_state running_world |})
  /\ fst (fst (si_load_state "game.sav"
                 (fs_write "game.sav" (firstn 1000 (save_blob running_world))
                    empty_disk)
                 power_on_world))
     = -1.
Proof.
  apply (save_file_prefix_and_suffix "game.sav" empty_disk running_world
           power_on_world [Byte.x2a] 1000).
  - vm_compute. reflexivity.
  - unfold save_file_size. cbn [sizeof packed_cpu packed_si_state].
    unfold si_state_packed_size, screen_bytes.
    apply Nat2Z.inj_lt.
    rewrite !Nat2Z.inj_add, !Z2Nat.id by (cbv; discriminate).
    reflexivity.
Defined.

Lemma save_reset_load_witness :
  let fs' := snd (si_save_state "game.sav" running_world empty_disk) in
  let result := si_load_state "game.sav" fs' (si_reset running_world) in
  fst result = (0, None)
  /\ e8080 (snd result) = e8080 running_world
  /\ si_state (snd result) = si_state running_world
  /\ forall a : Z,
       readByte a (memory (snd result)) = readByte a (memory running_world).
Proof.
  apply (save_reset_load "game.sav" empty_disk running_world).
  - vm_compute. reflexivity.
  - reflexivity.
Defined.

(** ** Initialization *)

Lemma load_roms_status (names : list string) (i rom_buf : nat)
    (fs : FileSystem) (mem : AddressSpace) :
  fst (load_roms names i rom_buf fs mem) = forallb (rom_file_ok fs) names.
Proof.
  revert i mem.
  induction names as [| name names IH]; intros i mem; cbn [load_roms forallb];
    [ reflexivity | ].
  unfold rom_file_ok at 1.
  destruct (fs_file fs name) as [contents |]; [ | reflexivity ].
  rewrite length_firstn.
  destruct (Nat.leb_spec ROM_FILE_SIZE (length contents)) as [Hle | Hgt].
  - rewrite Nat.min_l, Nat.eqb_refl by exact Hle. cbn [negb andb]. apply IH.
  - rewrite Nat.min_r by lia.
    replace (length contents =? ROM_FILE_SIZE)%nat with false
      by (symmetry; apply Nat.eqb_neq; lia).
    reflexivity.
Qed.

Lemma buf_write_app (pre : list MemoryBank) (b : MemoryBank)
    (post : list MemoryBank) (off : nat) (bytes : list byte) :
  buf_write (length pre) off bytes (pre ++ b :: post)
  = pre ++ store_in_bank off bytes b :: post.
Proof.
  induction pre as [| p pre IH]; cbn [length app buf_write]; [ reflexivity | ].
  now rewrite IH.
Qed.

Lemma upds_split {E : Type} (l : list E) (j : nat) (xs : list E) :
  (j + length xs <= length l)%nat ->
  List.upds l j xs = firstn j l ++ xs ++ skipn (j + length xs) l.
Proof.
  intros Hfit. unfold List.upds.
  rewrite (@firstn_all2 _ (length l - j) xs) by lia.
  now rewrite (Nat.add_comm (length xs) j).
Qed.

Lemma length_rom_chunk (fs : FileSystem) (name : string) :
  rom_file_ok fs name = true -> length (rom_chunk fs name) = ROM_FILE_SIZE.
Proof.
  unfold rom_file_ok, rom_chunk, rom_contents.
  destruct (fs_file fs name) as [contents |]; [ | discriminate ].
  intros Hle. apply Nat.leb_le in Hle. rewrite length_firstn. lia.
Qed.

(** The ROM loop fills the buffer with the first 2048 bytes of each file,
    one after the other. *)
Lemma load_roms_image (fs : FileSystem) (names : list string) (i : nat)
    (pre : list MemoryBank) (b : MemoryBank) :
  forallb (rom_file_ok fs) names = true ->
  ((i + length names) * ROM_FILE_SIZE <= length (bank_data b))%nat ->
  load_roms names i (length pre) fs (pre ++ [b])
  = (true,
     pre ++ [with_data b
               (firstn (i * ROM_FILE_SIZE) (bank_data b)
                ++ flat_map (rom_chunk fs) names
                ++ skipn ((i + length names) * ROM_FILE_SIZE) (bank_data b))]).
Proof.
  revert i b.
  induction names as [| name names IH]; intros i b Hok Hfit;
    cbn [load_roms forallb flat_map length] in *.
  - rewrite Nat.add_0_r, firstn_skipn. destruct b. reflexivity.
  - apply andb_prop in Hok. destruct Hok as [Hname Hok].
    pose proof (length_rom_chunk fs name Hname) as Hlen.
    unfold rom_chunk, rom_contents in *. unfold rom_file_ok in Hname.
    destruct (fs_file fs name) as [contents |]; [ | discriminate ].
    rewrite Hlen, Nat.eqb_refl. cbn [negb].
    rewrite buf_write_app, IH; [ | exact Hok | ].
    2: { cbn [store_in_bank bank_data]. rewrite upds_length. lia. }
    f_equal. f_equal. f_equal. unfold with_data.
    cbn [store_in_bank bank_base bank_length bank_read_only bank_data].
    f_equal.
    rewrite upds_split by lia. rewrite Hlen.
    set (chunk := firstn ROM_FILE_SIZE contents) in *.
    set (d := bank_data b) in *.
    assert (Hd : (i * ROM_FILE_SIZE <= length d)%nat) by lia.
    rewrite (app_assoc (firstn (i * ROM_FILE_SIZE) d) chunk).
    assert (Hdone : length (firstn (i * ROM_FILE_SIZE) d ++ chunk) = (S i * ROM_FILE_SIZE)%nat).
    { rewrite length_app, length_firstn, Hlen. lia. }
    rewrite List.firstn_app_l by (symmetry; exact Hdone).
    rewrite Lists.List.skipn_app, Hdone.
    rewrite (skipn_all2 (firstn (i * ROM_FILE_SIZE) d ++ chunk)) by lia.
    rewrite skipn_skipn. cbn [app]. rewrite <- !app_assoc.
    do 3 f_equal. f_equal.
    rewrite Nat.mul_add_distr_r, (Nat.add_comm (S i * ROM_FILE_SIZE)), Nat.add_sub.
    lia.
Qed.

Lemma rom_buffer_size : Z.to_nat (4 * 0x0800) = (4 * ROM_FILE_SIZE)%nat.
Proof. reflexivity. Qed.

Lemma rom_file_size_Z : Z.of_nat ROM_FILE_SIZE = 0x0800.
Proof. reflexivity. Qed.

Lemma free_not_covered (base len a : Z) (mem : AddressSpace) :
  region_free base len mem = true -> base <= a < base + len ->
  existsb (fun b => covers b a) mem = false.
Proof.
  unfold region_free. intros Hfree Ha. apply negb_true_iff in Hfree.
  induction mem as [| b rest IH]; cbn [existsb] in *; [ reflexivity | ].
  apply orb_false_elim in Hfree. destruct Hfree as [Hb Hrest].
  rewrite (IH Hrest), orb_false_r.
  unfold overlaps in Hb. unfold covers.
  destruct (Z.leb_spec (bank_base b) a); [ | reflexivity ].
  destruct (Z.ltb_spec a (bank_base b + bank_length b)); [ | reflexivity ].
  apply andb_false_elim in Hb. destruct Hb as [Hb | Hb];
    [ apply Z.ltb_ge in Hb | apply Z.ltb_ge in Hb ]; lia.
Qed.

Lemma readByte_app_free (a : Z) (pre post : AddressSpace) :
  existsb (fun b => covers b a) pre = false ->
  readByte a (pre ++ post) = readByte a post.
Proof.
  induction pre as [| b pre IH]; cbn [existsb app readByte]; [ reflexivity | ].
  intros H. apply orb_false_elim in H. destruct H as [Hb Hpre].
  rewrite Hb. now apply IH.
Qed.

Lemma writable_app_free (a : Z) (pre post : AddressSpace) :
  existsb (fun b => covers b a) pre = false ->
  writable a (pre ++ post) = writable a post.
Proof.
  induction pre as [| b pre IH]; cbn [existsb app writable]; [ reflexivity | ].
  intros H. apply orb_false_elim in H. destruct H as [Hb Hpre].
  rewrite Hb. now apply IH.
Qed.

Lemma backed_app_free (a : Z) (pre post : AddressSpace) :
  existsb (fun b => covers b a) pre = false ->
  backed a (pre ++ post) = backed a post.
Proof.
  induction pre as [| b pre IH]; cbn [existsb app backed]; [ reflexivity | ].
  intros H. apply orb_false_elim in H. destruct H as [Hb Hpre].
  rewrite Hb. now apply IH.
Qed.

Lemma nth_in_chunks_ok {A B : Type} (f : A -> list B) (k : nat) (l : list A)
    (q r : nat) (d : A) (e : B) :
  (forall x, In x l -> length (f x) = k) -> (q < length l)%nat -> (r < k)%nat ->
  nth (k * q + r) (flat_map f l) e = nth r (f (nth q l d)) e.
Proof.
  revert q.
  induction l as [| a l IH]; intros q Hk Hq Hr; cbn [length] in Hq; [ lia | ].
  cbn [flat_map]. pose proof (Hk a (or_introl eq_refl)) as Ha.
  destruct q as [| q].
  - rewrite Nat.mul_0_r. cbn [Nat.add nth]. apply app_nth1. lia.
  - replace (k * S q + r)%nat with (length (f a) + (k * q + r))%nat by lia.
    rewrite app_nth2_plus. cbn [nth]. apply IH; [ | lia | exact Hr ].
    intros x Hx. apply Hk. now right.
Qed.

Section InitializationProperties.
Variables si_port_in_ptr si_port_out_ptr : Z.
Variable room : AddressSpace -> Z -> bool.
Variable banks_after_reset : AddressSpace -> AddressSpace.
Variable ram_handle : AddressSpace -> Z.

Lemma registerBank_fresh (base len : Z) (read_only : bool) (mem : AddressSpace) :
  registerBank room base len None read_only mem
  = if region_free base len mem && room mem len
    then Some (mem ++ [zeroed_bank base len read_only])
    else None.
Proof.
  unfold registerBank, region_free, zeroed_bank.
  destruct (existsb (overlaps base len) mem); cbn [negb orb andb];
    [ reflexivity | ].
  destruct (room mem len); reflexivity.
Qed.

(** The four outcomes of [si_init_with_config]. *)
Lemma init_result (rom_h rom_g rom_f rom_e : string) (cfg : config_ptr)
    (fs : FileSystem) (w : World) :
  let names := [rom_h; rom_g; rom_f; rom_e] in
  let c := reset8080 0x0001 in
  let banks := banks_after_reset (memory w) in
  let rom := zeroed_bank 0x0000 (4 * 0x0800) true in
  let cpu_with := fun mem => set_pointers (ram_handle mem) 0 0 c in
  si_init_with_config si_port_in_ptr si_port_out_ptr room banks_after_reset
    ram_handle rom_h rom_g rom_f rom_e cfg fs w
  = if negb (region_free 0x0000 (4 * 0x0800) banks && room banks (4 * 0x0800))
    then (-1, {| e8080 := cpu_with banks; memory := banks;
                 si_state := configured cfg |})
    else if negb (forallb (rom_file_ok fs) names)
    then (-1, {| e8080 := cpu_with (snd (load_roms names 0 (length banks) fs
                                           (banks ++ [rom])));
                 memory := snd (load_roms names 0 (length banks) fs
                                  (banks ++ [rom]));
                 si_state := configured cfg |})
    else if negb (region_free SI_RAM_START SI_RAM_SIZE banks
                  && room (banks ++ [loaded_rom_bank fs names]) SI_RAM_SIZE)
    then (-1, {| e8080 := cpu_with (banks ++ [loaded_rom_bank fs names]);
                 memory := banks ++ [loaded_rom_bank fs names];
                 si_state := configured cfg |})
    else (0, {| e8080 := set_pointers
                           (ram_handle
                              (banks ++ [loaded_rom_bank fs names;
                                         zeroed_bank SI_RAM_START SI_RAM_SIZE
                                           false]))
                           si_port_in_ptr si_port_out_ptr c;
                memory := banks ++ [loaded_rom_bank fs names;
                                    zeroed_bank SI_RAM_START SI_RAM_SIZE false];
                si_state := init_hardware (configured cfg) |}).
Proof.
  cbv zeta. unfold si_init_with_config.
  assert (Hcfg : match cfg with
                 | config_at c => set_config c zeroed_state
                 | config_in_si_state => zeroed_state
                 | config_null => zeroed_state
                 end = configured cfg) by reflexivity.
  rewrite Hcfg. clear Hcfg.
  change (portIn (reset8080 1)) with 0. change (portOut (reset8080 1)) with 0.
  set (banks := banks_after_reset (memory w)).
  rewrite registerBank_fresh.
  destruct (region_free 0 (4 * 0x0800) banks && room banks (4 * 0x0800));
    cbn [negb]; [ | reflexivity ].
  set (names := [rom_h; rom_g; rom_f; rom_e]).
  set (rom := zeroed_bank 0x0000 (4 * 0x0800) true).
  pose proof (load_roms_status names 0 (length banks) fs (banks ++ [rom]))
    as Hstatus.
  destruct (forallb (rom_file_ok fs) names) eqn:Hfiles; cbn [negb].
  2: { destruct (load_roms names 0 (length banks) fs (banks ++ [rom]))
         as [loaded mem].
       cbn [fst] in Hstatus. subst loaded. reflexivity. }
  clear Hstatus.
  rewrite (load_roms_image fs names 0 banks rom Hfiles).
  2: { unfold rom, zeroed_bank. cbn [bank_data].
       change (length names) with 4%nat.
       rewrite repeat_length, rom_buffer_size. lia. }
  cbn [negb]. rewrite buf_write_app.
  assert (Himage : store_in_bank 0 [Byte.xc3]
                     (with_data rom
                        (firstn (0 * ROM_FILE_SIZE) (bank_data rom)
                         ++ flat_map (rom_chunk fs) names
                         ++ skipn ((0 + length names) * ROM_FILE_SIZE)
                              (bank_data rom)))
                   = loaded_rom_bank fs names).
  { unfold store_in_bank, with_data, loaded_rom_bank, rom, zeroed_bank.
    cbn [bank_base bank_length bank_read_only bank_data].
    f_equal. f_equal.
    rewrite Nat.mul_0_l, firstn_O. cbn [app].
    rewrite skipn_all2, app_nil_r; [ reflexivity | ].
    change (length names) with 4%nat.
    rewrite repeat_length, rom_buffer_size. lia. }
  rewrite Himage. rewrite registerBank_fresh.
  unfold region_free at 1. rewrite existsb_app. cbn [existsb].
  change (overlaps SI_RAM_START SI_RAM_SIZE (loaded_rom_bank fs names))
    with false.
  rewrite !orb_false_r. fold (region_free SI_RAM_START SI_RAM_SIZE banks).
  destruct (region_free SI_RAM_START SI_RAM_SIZE banks
            && room (banks ++ [loaded_rom_bank fs names]) SI_RAM_SIZE);
    cbn [negb]; [ | reflexivity ].
  rewrite <- app_assoc. reflexivity.
Qed.

(** Whether both registrations and the four reads succeed. *)
Lemma init_status_eq (rom_h rom_g rom_f rom_e : string) (cfg : config_ptr)
    (fs : FileSystem) (w : World) :
  let names := [rom_h; rom_g; rom_f; rom_e] in
  let banks := banks_after_reset (memory w) in
  fst (si_init_with_config si_port_in_ptr si_port_out_ptr room
         banks_after_reset ram_handle rom_h rom_g rom_f rom_e cfg fs w)
  = if (region_free 0x0000 (4 * 0x0800) banks && room banks (4 * 0x0800))
       && forallb (rom_file_ok fs) names
       && (region_free SI_RAM_START SI_RAM_SIZE banks
           && room (banks ++ [loaded_rom_bank fs names]) SI_RAM_SIZE)
    then 0 else -1.
Proof.
  cbv zeta. rewrite init_result. cbv zeta.
  destruct (region_free 0x0000 (4 * 0x0800) (banks_after_reset (memory w))
            && room (banks_after_reset (memory w)) (4 * 0x0800));
    [ | reflexivity ].
  destruct (forallb _ _); [ | reflexivity ].
  destruct (region_free SI_RAM_START SI_RAM_SIZE _ && room _ SI_RAM_SIZE);
    reflexivity.
Qed.

Lemma init_succeeded (rom_h rom_g rom_f rom_e : string) (cfg : config_ptr)
    (fs : FileSystem) (w : World) :
  let names := [rom_h; rom_g; rom_f; rom_e] in
  let banks := banks_after_reset (memory w) in
  fst (si_init_with_config si_port_in_ptr si_port_out_ptr room
         banks_after_reset ram_handle rom_h rom_g rom_f rom_e cfg fs w) = 0 ->
  (region_free 0x0000 (4 * 0x0800) banks && room banks (4 * 0x0800) = true)
  /\ forallb (rom_file_ok fs) names = true
  /\ (region_free SI_RAM_START SI_RAM_SIZE banks
      && room (banks ++ [loaded_rom_bank fs names]) SI_RAM_SIZE = true).
Proof.
  cbv zeta. rewrite init_status_eq. cbv zeta.
  destruct (region_free 0x0000 (4 * 0x0800) (banks_after_reset (memory w))
            && room (banks_after_reset (memory w)) (4 * 0x0800));
    [ | discriminate ].
  destruct (forallb _ _); [ | discriminate ].
  destruct (region_free SI_RAM_START SI_RAM_SIZE _ && room _ SI_RAM_SIZE);
    [ | discriminate ].
  intros _. repeat split.
Qed.

(** X22: [si_init_with_config] returns 0 or -1.  It returns 0 exactly when
    the registration of the ROM bank succeeds (the region 0x0000..0x1FFF
    overlaps no bank still registered after [reset8080], and the memory
    system has room for it), each of the four ROM files can be opened and
    holds at least 2048 bytes, and the registration of the RAM bank
    succeeds (0x2000..0x3FFF overlaps no such bank, and there is room for
    it beside the loaded ROM bank).  [initialized] is set exactly on
    success; the input latch is 0x08 on success and 0 on failure.  The
    configuration kept is the caller's object on every path, and the
    zeroed one when the pointer is null or points into [si_state] itself,
    which the [memset] clears before the copy. *)
Theorem init_status (rom_h rom_g rom_f rom_e : string) (cfg : config_ptr)
    (fs : FileSystem) (w : World) :
  let names := [rom_h; rom_g; rom_f; rom_e] in
  let banks := banks_after_reset (memory w) in
  let result :=
    si_init_with_config si_port_in_ptr si_port_out_ptr room banks_after_reset
      ram_handle rom_h rom_g rom_f rom_e cfg fs w in
  (fst result = 0 \/ fst result = -1)
  /\ (fst result = 0
      <-> (existsb (overlaps 0x0000 (4 * 0x0800)) banks = false
           /\ room banks (4 * 0x0800) = true)
          /\ forallb (rom_file_ok fs) names = true
          /\ (existsb (overlaps SI_RAM_START SI_RAM_SIZE) banks = false
              /\ room (banks ++ [loaded_rom_bank fs names]) SI_RAM_SIZE = true))
  /\ initialized (si_state (snd result)) = (fst result =? 0)
  /\ input_state (si_state (snd result))
     = (if fst result =? 0 then Byte.x08 else Byte.x00)
  /\ config (si_state (snd result))
     = match cfg with
       | config_at c => c
       | config_in_si_state => config zeroed_state
       | config_null => config zeroed_state
       end.
Proof.
  cbv zeta. rewrite init_result. cbv zeta. unfold region_free.
  set (banks := banks_after_reset (memory w)).
  set (names := [rom_h; rom_g; rom_f; rom_e]).
  destruct (existsb (overlaps 0 (4 * 0x0800)) banks); cbn [negb andb].
  { cbn [fst snd si_state].
    split; [ right; reflexivity | ].
    split; [ split; [ discriminate | intros [[H _] _]; discriminate ] | ].
    repeat split; destruct cfg; reflexivity. }
  destruct (room banks (4 * 0x0800)); cbn [negb].
  2: { cbn [fst snd si_state].
       split; [ right; reflexivity | ].
       split; [ split; [ discriminate | intros [[_ H] _]; discriminate ] | ].
       repeat split; destruct cfg; reflexivity. }
  destruct (forallb (rom_file_ok fs) names); cbn [negb].
  2: { cbn [fst snd si_state].
       split; [ right; reflexivity | ].
       split; [ split; [ discriminate | intros [_ [H _]]; discriminate ] | ].
       repeat split; destruct cfg; reflexivity. }
  destruct (existsb (overlaps SI_RAM_START SI_RAM_SIZE) banks);
    cbn [negb andb].
  { cbn [fst snd si_state].
    split; [ right; reflexivity | ].
    split; [ split; [ discriminate | intros [_ [_ [H _]]]; discriminate ] | ].
    repeat split; destruct cfg; reflexivity. }
  destruct (room (banks ++ [loaded_rom_bank fs names]) SI_RAM_SIZE);
    cbn [negb].
  2: { cbn [fst snd si_state].
       split; [ right; reflexivity | ].
       split; [ split; [ discriminate | intros [_ [_ [_ H]]]; discriminate ] | ].
       repeat split; destruct cfg; reflexivity. }
  cbn [fst snd si_state].
  split; [ left; reflexivity | ].
  split; [ split; [ intros _; repeat split | reflexivity ] | ].
  repeat split; destruct cfg; reflexivity.
Qed.

Lemma length_rom_image (fs : FileSystem) (names : list string) :
  forallb (rom_file_ok fs) names = true ->
  length (flat_map (rom_chunk fs) names) = (ROM_FILE_SIZE * length names)%nat.
Proof.
  induction names as [| name names IH]; cbn [forallb flat_map length];
    [ lia | ].
  intros H. apply andb_prop in H. destruct H as [Hname Hrest].
  rewrite length_app, (length_rom_chunk fs name Hname), (IH Hrest). lia.
Qed.

(** X23: after a successful [si_init_with_config], ROM address 0 reads 0xC3
    and every other ROM address [a] reads byte [a mod 2048] of ROM file
    number [a / 2048] (in the order h, g, f, e); ROM addresses are not
    writable; every RAM address reads 0x00 and is backed by a writable
    buffer. *)
Theorem init_memory_image (rom_h rom_g rom_f rom_e : string)
    (cfg : config_ptr) (fs : FileSystem) (w : World) :
  let result :=
    si_init_with_config si_port_in_ptr si_port_out_ptr room banks_after_reset
      ram_handle rom_h rom_g rom_f rom_e cfg fs w in
  let mem := memory (snd result) in
  fst result = 0 ->
  (forall a : Z, 0 <= a < 4 * 0x0800 ->
     readByte a mem
     = (if a =? 0 then Byte.xc3
        else nth (Z.to_nat (a mod 0x0800))
               (rom_contents fs
                  (nth (Z.to_nat (a / 0x0800)) [rom_h; rom_g; rom_f; rom_e] rom_h))
               Byte.x00)
     /\ writable a mem = false)
  /\ (forall a : Z, in_ram a = true ->
        readByte a mem = Byte.x00 /\ backed a mem = true).
Proof.
  cbv zeta. intros Hok.
  pose proof (init_succeeded rom_h rom_g rom_f rom_e cfg fs w) as Hparts.
  cbv zeta in Hparts. destruct (Hparts Hok) as [Hrom_reg [Hfiles Hram_reg]].
  clear Hparts Hok.
  rewrite init_result. cbv zeta. rewrite Hrom_reg, Hfiles, Hram_reg.
  cbn [negb snd memory].
  apply andb_prop in Hrom_reg. destruct Hrom_reg as [Hrom _].
  apply andb_prop in Hram_reg. destruct Hram_reg as [Hram _].
  set (banks := banks_after_reset (memory w)) in *.
  set (names := [rom_h; rom_g; rom_f; rom_e]) in *.
  split.
  - intros a Ha.
    pose proof (free_not_covered _ _ a _ Hrom ltac:(lia)) as Hfree.
    rewrite readByte_app_free, writable_app_free by exact Hfree.
    cbn [readByte writable]. unfold covers.
    change (bank_base (loaded_rom_bank fs names)) with 0.
    change (bank_length (loaded_rom_bank fs names)) with (4 * 0x0800).
    change (bank_read_only (loaded_rom_bank fs names)) with true.
    change (bank_data (loaded_rom_bank fs names))
      with (List.upds (flat_map (rom_chunk fs) names) 0 [Byte.xc3]).
    replace ((0 <=? a) && (a <? 0 + 4 * 0x0800)) with true
      by (symmetry; apply andb_true_intro; split;
          [ apply Z.leb_le | apply Z.ltb_lt ]; lia).
    split; [ | reflexivity ].
    rewrite Z.sub_0_r.
    pose proof (length_rom_image fs names Hfiles) as Hlen.
    change (length names) with 4%nat in Hlen.
    pose proof rom_file_size_Z as Hsize.
    destruct (Z.eqb_spec a 0) as [-> | Hne].
    + change (Z.to_nat 0) with 0%nat.
      rewrite upds_0_skipn by (cbn [length]; lia). reflexivity.
    + fold (List.upd (flat_map (rom_chunk fs) names) 0 Byte.xc3).
      rewrite nth_upd_diff by lia.
      assert (Hsplit : Z.to_nat a
                       = (ROM_FILE_SIZE * Z.to_nat (a / 0x0800)
                          + Z.to_nat (a mod 0x0800))%nat).
      { apply Nat2Z.inj.
        rewrite Nat2Z.inj_add, Nat2Z.inj_mul, rom_file_size_Z.
        rewrite !Z2Nat.id by (try apply Z.div_pos; try apply Z.mod_pos_bound; lia).
        apply Z.div_mod. lia. }
      rewrite Hsplit.
      assert (Hq : (Z.to_nat (a / 0x0800) < length names)%nat).
      { change (length names) with 4%nat. apply Nat2Z.inj_lt.
        rewrite Z2Nat.id by (apply Z.div_pos; lia).
        apply Z.div_lt_upper_bound; lia. }
      assert (Hr : (Z.to_nat (a mod 0x0800) < ROM_FILE_SIZE)%nat).
      { apply Nat2Z.inj_lt. rewrite rom_file_size_Z.
        rewrite Z2Nat.id by (apply Z.mod_pos_bound; lia).
        apply Z.mod_pos_bound. lia. }
      rewrite (nth_in_chunks_ok (rom_chunk fs) ROM_FILE_SIZE names _ _ rom_h).
      * unfold rom_chunk. now rewrite nth_firstn by exact Hr.
      * intros x Hx. apply length_rom_chunk.
        rewrite forallb_forall in Hfiles. now apply Hfiles.
      * exact Hq.
      * exact Hr.
  - intros a Ha.
    assert (Hin : SI_RAM_START <= a < SI_RAM_START + SI_RAM_SIZE).
    { unfold in_ram in Ha. apply andb_prop in Ha. destruct Ha as [Hlo Hhi].
      apply Z.leb_le in Hlo. apply Z.ltb_lt in Hhi. lia. }
    pose proof (free_not_covered _ _ a _ Hram Hin) as Hfree.
    rewrite readByte_app_free, backed_app_free by exact Hfree.
    cbn [readByte backed]. unfold covers.
    change (bank_base (loaded_rom_bank fs names)) with 0.
    change (bank_length (loaded_rom_bank fs names)) with (4 * 0x0800).
    replace (a <? 0 + 4 * 0x0800) with false
      by (symmetry; apply Z.ltb_ge; unfold SI_RAM_START in Hin; lia).
    rewrite andb_false_r.
    unfold zeroed_bank. cbn [bank_base bank_length bank_read_only bank_data].
    fold (in_ram a). rewrite Ha. cbn [negb andb].
    rewrite repeat_length. split; [ apply Lists.List.nth_repeat | ].
    apply Nat.ltb_lt. unfold SI_RAM_START, SI_RAM_SIZE in *. lia.
Qed.

(** X25: the status, the CPU state and the memory that initialization
    leaves do not depend on the configuration; after a successful [si_init]
    ports 0, 1 and 2 read 0x0E, 0x08 and 0x00, and after a successful
    [si_api_init_headless] they read the caller's first DIP byte, 0x08 and
    the caller's third DIP byte (0x0E and 0x00 for a null pointer), with
    [headless] and [uncapped] set. *)
Theorem init_configuration (rom_h rom_g rom_f rom_e : string)
    (cfg : config_ptr) (dips : option (byte * byte * byte))
    (fs : FileSystem) (w : World) :
  let plain :=
    si_init_with_config si_port_in_ptr si_port_out_ptr room banks_after_reset
      ram_handle rom_h rom_g rom_f rom_e cfg fs w in
  let default :=
    si_init si_port_in_ptr si_port_out_ptr room banks_after_reset ram_handle
      rom_h rom_g rom_f rom_e fs w in
  let rl :=
    si_api_init_headless si_port_in_ptr si_port_out_ptr room banks_after_reset
      ram_handle rom_h rom_g rom_f rom_e dips fs w in
  fst plain = 0 ->
  (fst default = 0 /\ fst rl = 0)
  /\ (e8080 (snd default) = e8080 (snd plain)
      /\ memory (snd default) = memory (snd plain))
  /\ (e8080 (snd rl) = e8080 (snd plain)
      /\ memory (snd rl) = memory (snd plain))
  /\ map (fun port => si_port_in port (si_state (snd default))) [0; 1; 2]
     = [Byte.x0e; Byte.x08; Byte.x00]
  /\ map (fun port => si_port_in port (si_state (snd rl))) [0; 1; 2]
     = match dips with
       | Some d => [fst (fst d); Byte.x08; snd d]
       | None => [Byte.x0e; Byte.x08; Byte.x00]
       end
  /\ headless (config (si_state (snd rl))) = true
  /\ uncapped (config (si_state (snd rl))) = true
  /\ headless (config (si_state (snd default))) = false.
Proof.
  cbv zeta. intros Hok.
  pose proof (init_succeeded rom_h rom_g rom_f rom_e cfg fs w) as Hparts.
  cbv zeta in Hparts. destruct (Hparts Hok) as [Hrom [Hfiles Hram]].
  clear Hparts Hok.
  unfold si_init, si_api_init_headless.
  rewrite !init_result. cbv zeta. rewrite Hrom, Hfiles, Hram.
  cbn [negb fst snd e8080 memory si_state].
  split; [ split; reflexivity | ].
  split; [ split; reflexivity | ].
  split; [ split; reflexivity | ].
  split; [ reflexivity | ].
  split; [ destruct dips as [[[d0 d1] d2] |]; reflexivity | ].
  split; [ reflexivity | ]. split; reflexivity.
Qed.

End InitializationProperties.

Lemma init_memory_image_witness :
  let result := si_init_with_config 0x3000 0x3100 unlimited (fun banks => banks)
                  (fun _ => 0x1000)
                  "invaders.h" "invaders.g" "invaders.f" "invaders.e"
                  config_null rom_disk fresh_world in
  let mem := memory (snd result) in
  (forall a : Z, 0 <= a < 4 * 0x0800 ->
     readByte a mem
     = (if a =? 0 then Byte.xc3
        else nth (Z.to_nat (a mod 0x0800))
               (rom_contents rom_disk
                  (nth (Z.to_nat (a / 0x0800))
                     ["invaders.h"; "invaders.g"; "invaders.f"; "invaders.e"]%string
                     "invaders.h"%string))
               Byte.x00)
     /\ writable a mem = false)
  /\ (forall a : Z, in_ram a = true ->
        readByte a mem = Byte.x00 /\ backed a mem = true).
Proof.
  apply (init_memory_image 0x3000 0x3100 unlimited (fun banks => banks)
           (fun _ => 0x1000)
           "invaders.h" "invaders.g" "invaders.f" "invaders.e"
           config_null rom_disk fresh_world).
  reflexivity.
Defined.

Lemma init_configuration_witness :
  let plain := si_init_with_config 0x3000 0x3100 unlimited (fun banks => banks)
                 (fun _ => 0x1000)
                 "invaders.h" "invaders.g" "invaders.f" "invaders.e"
                 config_null rom_disk fresh_world in
  let default := si_init 0x3000 0x3100 unlimited (fun banks => banks)
                   (fun _ => 0x1000)
                   "invaders.h" "invaders.g" "invaders.f" "invaders.e"
                   rom_disk fresh_world in
  let rl := si_api_init_headless 0x3000 0x3100 unlimited (fun banks => banks)
              (fun _ => 0x1000)
              "invaders.h" "invaders.g" "invaders.f" "invaders.e"
              (Some (Byte.x01, Byte.x02, Byte.x03)) rom_disk fresh_world in
  (fst default = 0 /\ fst rl = 0)
  /\ (e8080 (snd default) = e8080 (snd plain)
      /\ memory (snd default) = memory (snd plain))
  /\ (e8080 (snd rl) = e8080 (snd plain)
      /\ memory (snd rl) = memory (snd plain))
  /\ map (fun port => si_port_in port (si_state (snd default))) [0; 1; 2]
     = [Byte.x0e; Byte.x08; Byte.x00]
  /\ map (fun port => si_port_in port (si_state (snd rl))) [0; 1; 2]
     = [Byte.x01; Byte.x08; Byte.x03]
  /\ headless (config (si_state (snd rl))) = true
  /\ uncapped (config (si_state (snd rl))) = true
  /\ headless (config (si_state (snd default))) = false.
Proof.
  apply (init_configuration 0x3000 0x3100 unlimited (fun banks => banks)
           (fun _ => 0x1000)
           "invaders.h" "invaders.g" "invaders.f" "invaders.e"
           config_null (Some (Byte.x01, Byte.x02, Byte.x03)) rom_disk fresh_world).
  reflexivity.
Defined.
